(** * gemini_2_speakers_tts: a shallow embedding and its verified properties

    The program reads a two-person dialogue script, asks a suggestion
    service for one voice per speaker, asks a speech service for the audio
    and wraps the raw PCM it receives in a WAV container.

    The embedding follows [gemini_2_speakers_tts.py] function by function.
    Python [str] is [string]; a character is a code point below 256, and
    the character classes below are CPython's on that range.  Python
    [bytes] is [list byte], Python [int] is [Z], a [dict] keyed by strings
    is a [gmap string _].  A call that can raise returns a [result], and
    the effects of a run are threaded through the state monad [M]. *)

From Stdlib Require Import ZArith List Ascii String Bool Lia.
From Stdlib Require Import Strings.Byte.
From stdpp Require Import gmap strings.
Import ListNotations.

Local Open Scope string_scope.
Local Open Scope Z_scope.

(** ** Exceptions *)

Inductive exn : Type :=
| ValueError
| IndexError
| KeyError
| StructError
| AttributeError
| OSError
| ServiceError
| SystemExit (code : Z).

Inductive result (A : Type) : Type :=
| Ok (a : A)
| Raise (e : exn).
Arguments Ok {A} a.
Arguments Raise {A} e.

Definition rbind {A B : Type} (r : result A) (k : A -> result B) : result B :=
  match r with
  | Ok a => k a
  | Raise e => Raise e
  end.

(** ** Python's string methods, as far as the program uses them *)

Module Py.

Definition ord (c : ascii) : N := N_of_ascii c.

(** [str.isspace] on one character; [str.strip] removes these. *)
Definition isspace (c : ascii) : bool :=
  let n := ord c in
  (((9 <=? n) && (n <=? 13)) || ((28 <=? n) && (n <=? 32))
   || (n =? 133) || (n =? 160))%N.

(** The line boundaries of [str.splitlines]. *)
Definition is_linebreak (c : ascii) : bool :=
  let n := ord c in
  (((10 <=? n) && (n <=? 13)) || ((28 <=? n) && (n <=? 30)) || (n =? 133))%N.

(** [str.lower] on one character. *)
Definition lower_char (c : ascii) : ascii :=
  let n := ord c in
  if (((65 <=? n) && (n <=? 90))
      || ((192 <=? n) && (n <=? 222) && negb (n =? 215)))%N
  then ascii_of_N (n + 32)
  else c.

Fixpoint lower (s : string) : string :=
  match s with
  | EmptyString => EmptyString
  | String c r => String (lower_char c) (lower r)
  end.

Definition is_empty (s : string) : bool :=
  match s with
  | EmptyString => true
  | String _ _ => false
  end.

Fixpoint lstrip (s : string) : string :=
  match s with
  | EmptyString => EmptyString
  | String c r => if isspace c then lstrip r else s
  end.

Fixpoint rstrip (s : string) : string :=
  match s with
  | EmptyString => EmptyString
  | String c r =>
      let r' := rstrip r in
      if isspace c && is_empty r' then EmptyString else String c r'
  end.

Definition strip (s : string) : string := rstrip (lstrip s).

(** [s.startswith(p)] *)
Definition startswith (s p : string) : bool := String.prefix p s.

(** [sub in s] *)
Fixpoint contains (sub s : string) : bool :=
  String.prefix sub s
  || match s with
     | EmptyString => false
     | String _ r => contains sub r
     end.

Fixpoint drop (n : nat) (s : string) : string :=
  match n, s with
  | O, _ => s
  | S _, EmptyString => EmptyString
  | S k, String _ r => drop k r
  end.

(** The first occurrence of a non-empty [sep] cuts [s] in two. *)
Fixpoint cut (sep s : string) : option (string * string) :=
  if String.prefix sep s then Some (EmptyString, drop (String.length sep) s)
  else match s with
       | EmptyString => None
       | String c r =>
           match cut sep r with
           | Some (a, b) => Some (String c a, b)
           | None => None
           end
       end.

(** [s.split(sep, 1)]: one or two pieces. *)
Definition split1 (sep s : string) : list string :=
  match cut sep s with
  | Some (a, b) => [a; b]
  | None => [s]
  end.

(** [s.split(sep)] for a separator of one character. *)
Fixpoint split (sep : ascii) (s : string) : list string :=
  match s with
  | EmptyString => [EmptyString]
  | String c r =>
      if Ascii.eqb c sep then EmptyString :: split sep r
      else match split sep r with
           | h :: t => String c h :: t
           | [] => [String c EmptyString]
           end
  end.

(** [s.splitlines()]: a carriage return followed by a line feed is one
    boundary, and a final boundary opens no further line. *)
Fixpoint splitlines (s : string) : list string :=
  match s with
  | EmptyString => []
  | String c r =>
      if is_linebreak c then
        EmptyString ::
          match r with
          | String c2 r2 =>
              if Ascii.eqb c "013" && Ascii.eqb c2 "010" then splitlines r2
              else splitlines r
          | EmptyString => splitlines r
          end
      else match splitlines r with
           | h :: t => String c h :: t
           | [] => [String c EmptyString]
           end
  end.

(** [l[i]] *)
Definition item {A : Type} (l : list A) (i : nat) : result A :=
  match nth_error l i with
  | Some a => Ok a
  | None => Raise IndexError
  end.

(** [l.index(x)] on a list of strings *)
Fixpoint index (x : string) (l : list string) : result nat :=
  match l with
  | [] => Raise ValueError
  | y :: t => if String.eqb y x then Ok O
              else rbind (index x t) (fun i => Ok (S i))
  end.

(** [x in l] on a list of strings *)
Definition mem (x : string) (l : list string) : bool :=
  existsb (String.eqb x) l.

(** *** [int(s)]

    After surrounding white space and one optional sign come decimal
    digits, single underscores allowed between two digits.  The white
    space of [int] is narrower than that of [strip] (the separators
    28 to 31 are refused).  More than [int_max_str_digits] digits are
    refused, as CPython does by default. *)

Definition int_isspace (c : ascii) : bool :=
  let n := ord c in
  (((9 <=? n) && (n <=? 13)) || (n =? 32) || (n =? 133) || (n =? 160))%N.

Definition is_digit (c : ascii) : bool :=
  let n := ord c in ((48 <=? n) && (n <=? 57))%N.

Definition digit_value (c : ascii) : Z := Z.of_N (ord c) - 48.

Definition int_max_str_digits : nat := 4300.

Fixpoint int_lstrip (s : string) : string :=
  match s with
  | EmptyString => EmptyString
  | String c r => if int_isspace c then int_lstrip r else s
  end.

Fixpoint all_int_space (s : string) : bool :=
  match s with
  | EmptyString => true
  | String c r => int_isspace c && all_int_space r
  end.

(** Scans digits and underscores; [prev_us] tells that the character just
    read was an underscore.  Returns the value, the number of digits and
    what follows the literal. *)
Fixpoint scan_digits (prev_us : bool) (acc : Z) (n : nat) (s : string)
  : option (Z * nat * string) :=
  match s with
  | EmptyString => if prev_us then None else Some (acc, n, s)
  | String c r =>
      if is_digit c then scan_digits false (10 * acc + digit_value c) (S n) r
      else if Ascii.eqb c "_" then
             if prev_us then None else scan_digits true acc n r
           else if prev_us then None else Some (acc, n, s)
  end.

(** The optional sign and what follows it. *)
Definition int_sign (s : string) : Z * string :=
  match s with
  | String c r =>
      if Ascii.eqb c "+" then (1, r)
      else if Ascii.eqb c "-" then (-1, r)
      else (1, s)
  | EmptyString => (1, s)
  end.

Definition int (s : string) : result Z :=
  let '(sign, s2) := int_sign (int_lstrip s) in
  if startswith s2 "_" then Raise ValueError
  else
    match scan_digits false 0 O s2 with
    | Some (v, n, rest) =>
        if (Nat.eqb n 0) || (Nat.ltb int_max_str_digits n)
           || negb (all_int_space rest)
        then Raise ValueError
        else Ok (sign * v)
    | None => Raise ValueError
    end.

End Py.

(** The line feed, for texts of several lines. *)
Definition LF : string := String "010" EmptyString.

(** ** parse_audio_mime_type *)

Record MediaTypeParams : Type := {
  bits_per_sample : Z;
  rate : Z
}.

(** One round of the loop over the segments.  Both [int] failures, and the
    missing second piece of a split, are caught and leave the value as it
    was. *)
Definition parse_param (acc : MediaTypeParams) (param0 : string)
  : MediaTypeParams :=
  let param := Py.strip param0 in
  if Py.startswith (Py.lower param) "rate=" then
    match rbind (Py.item (Py.split1 "=" param) 1) Py.int with
    | Ok r => {| bits_per_sample := bits_per_sample acc; rate := r |}
    | Raise _ => acc
    end
  else if Py.contains "audio/L" param then
    match rbind (Py.item (Py.split1 "L" param) 1) Py.int with
    | Ok b => {| bits_per_sample := b; rate := rate acc |}
    | Raise _ => acc
    end
  else acc.

Definition parse_audio_mime_type (mime_type : string) : MediaTypeParams :=
  fold_left parse_param (Py.split ";" mime_type)
    {| bits_per_sample := 16; rate := 24000 |}.

(** ** extract_speakers *)

(** [line.split(":", 1)[0].strip()] *)
Definition speaker_name_of (line : string) : string :=
  Py.strip (hd EmptyString (Py.split1 ":" line)).

(** The loop over the lines, with the list [seen] it appends to.  The test
    on the length of [seen] is made after every line that has a colon. *)
Fixpoint extract_loop (seen : list string) (lines : list string)
  : option string * option string :=
  match lines with
  | [] =>
      match seen with
      | s0 :: _ => (Some s0, None)
      | [] => (None, None)
      end
  | line :: rest =>
      if Py.contains ":" line then
        let name := speaker_name_of line in
        let seen' :=
          if negb (Py.is_empty name) && negb (Py.mem name seen)
          then (seen ++ [name])%list else seen in
        match seen' with
        | [s0; s1] => (Some s0, Some s1)
        | _ => extract_loop seen' rest
        end
      else extract_loop seen rest
  end.

Definition extract_speakers (text : string) : option string * option string :=
  extract_loop [] (Py.splitlines text).

(** ** The voice catalog *)

(** A catalog row is the source's tuple (name, style, gender). *)
Definition voice : Type := string * string * string.
Definition vname (v : voice) : string := fst (fst v).
Definition vgender (v : voice) : string := snd v.

Definition get_available_voices : list voice :=
  [ ("Zephyr", "Bright", "Female");
    ("Puck", "Upbeat", "Male");
    ("Charon", "Informative", "Male");
    ("Kore", "Firm", "Female");
    ("Fenrir", "Excitable", "Male");
    ("Leda", "Youthful", "Female");
    ("Orus", "Firm", "Male");
    ("Aoede", "Breezy", "Female");
    ("Callirrhoe", "Easy-going", "Female");
    ("Autonoe", "Bright", "Female");
    ("Enceladus", "Breathy", "Male");
    ("Iapetus", "Clear", "Male");
    ("Umbriel", "Easy-going", "Male");
    ("Algieba", "Smooth", "Male");
    ("Despina", "Smooth", "Female");
    ("Erinome", "Clear", "Female");
    ("Algenib", "Gravelly", "Male");
    ("Rasalgethi", "Informative", "Male");
    ("Laomedeia", "Upbeat", "Female");
    ("Achernar", "Soft", "Female");
    ("Alnilam", "Firm", "Male");
    ("Schedar", "Even", "Male");
    ("Gacrux", "Mature", "Female");
    ("Pulcherrima", "Forward", "Female");
    ("Achird", "Friendly", "Male");
    ("Zubenelgenubi", "Casual", "Male");
    ("Vindemiatrix", "Gentle", "Female");
    ("Sadachbia", "Lively", "Male");
    ("Sadaltager", "Knowledgeable", "Male");
    ("Sulafat", "Warm", "Female") ].

(** ** select_voices_for_speakers *)

Section VoiceSelection.

Variable available_voices : list voice.

Definition voice_names : list string := map vname available_voices.
Definition voice_names_lower : list string := map Py.lower voice_names.
Definition male_voices : list string :=
  map vname (List.filter (fun v => String.eqb (vgender v) "Male") available_voices).
Definition female_voices : list string :=
  map vname (List.filter (fun v => String.eqb (vgender v) "Female") available_voices).

(** What follows the first colon of a line, trimmed and looked up in the
    catalog without regard to case; the catalog's own spelling is returned.
    [None] when the catalog has no such voice. *)
Definition resolve_voice (line : string) : result (option string) :=
  rbind (Py.item (Py.split1 ":" line) 1) (fun rest =>
    let voice := Py.strip rest in
    let voice_lower := Py.lower voice in
    if Py.mem voice_lower voice_names_lower then
      rbind (Py.index voice_lower voice_names_lower) (fun correct_index =>
      rbind (Py.item voice_names correct_index) (fun v => Ok (Some v)))
    else Ok None).

(** One round of the loop over the lines of the response. *)
Definition parse_line (speaker1_name speaker2_name : string)
    (speaker_voices : gmap string string) (line : string)
  : result (gmap string string) :=
  if Py.startswith (Py.lower line) (Py.lower speaker1_name ++ ":") then
    rbind (resolve_voice line) (fun r =>
      match r with
      | Some v => Ok (<[speaker1_name := v]> speaker_voices)
      | None => Ok speaker_voices
      end)
  else if Py.startswith (Py.lower line) (Py.lower speaker2_name ++ ":") then
    rbind (resolve_voice line) (fun r =>
      match r with
      | Some v => Ok (<[speaker2_name := v]> speaker_voices)
      | None => Ok speaker_voices
      end)
  else Ok speaker_voices.

Fixpoint parse_lines (speaker1_name speaker2_name : string)
    (speaker_voices : gmap string string) (lines : list string)
  : result (gmap string string) :=
  match lines with
  | [] => Ok speaker_voices
  | line :: rest =>
      rbind (parse_line speaker1_name speaker2_name speaker_voices line)
        (fun sv => parse_lines speaker1_name speaker2_name sv rest)
  end.

(** [d[k]] *)
Definition getitem (d : gmap string string) (k : string) : result string :=
  match d !! k with
  | Some v => Ok v
  | None => Raise KeyError
  end.

(** [next((v[2] for v in available_voices if v[0] == name), "Male")] *)
Definition gender_of (name : string) : string :=
  match find (fun v => String.eqb (vname v) name) available_voices with
  | Some v => vgender v
  | None => "Male"
  end.

(** The defaults given to a speaker the response did not settle. *)
Definition fill_speaker1 (speaker1_name : string)
    (speaker_voices : gmap string string) : result (gmap string string) :=
  match speaker_voices !! speaker1_name with
  | Some _ => Ok speaker_voices
  | None =>
      rbind (Py.item male_voices 0) (fun v =>
        Ok (<[speaker1_name := v]> speaker_voices))
  end.

Definition fill_speaker2 (speaker1_name speaker2_name : string)
    (speaker_voices : gmap string string) : result (gmap string string) :=
  match speaker_voices !! speaker2_name with
  | Some _ => Ok speaker_voices
  | None =>
      rbind (getitem speaker_voices speaker1_name) (fun voice1 =>
        let voice1_gender := gender_of voice1 in
        if String.eqb voice1_gender "Male"
           && negb (Nat.eqb (List.length female_voices) 0) then
          rbind (Py.item female_voices 0) (fun v =>
            Ok (<[speaker2_name := v]> speaker_voices))
        else if negb (Nat.eqb (List.length male_voices) 0) then
          rbind (Py.item male_voices 0) (fun v =>
            Ok (<[speaker2_name := v]> speaker_voices))
        else
          match find (fun v => negb (String.eqb v voice1)) voice_names with
          | Some v => Ok (<[speaker2_name := v]> speaker_voices)
          | None => Ok (<[speaker2_name := voice1]> speaker_voices)
          end)
  end.

(** Everything the function does once the response text has arrived. *)
Definition select_voices_from (text0 speaker1_name speaker2_name : string)
  : result (gmap string string) :=
  let text := Py.strip text0 in
  let lines := Py.split "010" text in
  rbind (parse_lines speaker1_name speaker2_name ∅ lines) (fun sv =>
  rbind (fill_speaker1 speaker1_name sv) (fun sv =>
  fill_speaker2 speaker1_name speaker2_name sv)).

End VoiceSelection.

(** The request sent to the suggestion service, by the values the prompt
    is built from. *)
Record suggestion_request : Type := {
  sr_model : string;
  sr_speaker1 : string;
  sr_speaker2 : string;
  sr_male_voices : list string;
  sr_female_voices : list string;
  sr_script : string
}.

Definition speaker_suggestion_prompt
    (model prompt speaker1_name speaker2_name : string) : suggestion_request :=
  {| sr_model := model;
     sr_speaker1 := speaker1_name;
     sr_speaker2 := speaker2_name;
     sr_male_voices := male_voices get_available_voices;
     sr_female_voices := female_voices get_available_voices;
     sr_script := prompt |}.

(** [client] stands for [client.models.generate_content] followed by the
    read of the first text part of the first candidate; either may raise. *)
Definition select_voices_for_speakers
    (client : suggestion_request -> result string)
    (model prompt speaker1_name speaker2_name : string)
  : result (gmap string string) :=
  rbind (client (speaker_suggestion_prompt model prompt
                   speaker1_name speaker2_name))
    (fun text => select_voices_from get_available_voices text
                   speaker1_name speaker2_name).

(** ** convert_to_wav *)

Definition byte_of_Z (z : Z) : byte :=
  byte_of_ascii (ascii_of_N (Z.to_N (z mod 256))).

Definition Z_of_byte (b : byte) : Z := Z.of_N (Byte.to_N b).

(** The [n] low bytes of [z], least significant first. *)
Fixpoint le_bytes (n : nat) (z : Z) : list byte :=
  match n with
  | O => []
  | S k => byte_of_Z z :: le_bytes k (z / 256)
  end.

(** The fields of a [struct] format: ["4s"], ["I"] and ["H"]. *)
Inductive field : Type :=
| F4s (s : string)
| FI (z : Z)
| FH (z : Z).

(** Four bytes of the string, cut or padded with zero bytes. *)
Definition pack_4s (s : string) : list byte :=
  firstn 4 (list_byte_of_string s ++ repeat x00 4).

(** An unsigned field refuses a value out of its range. *)
Definition pack_uint (width : nat) (z : Z) : result (list byte) :=
  if (0 <=? z) && (z <? 2 ^ (8 * Z.of_nat width))
  then Ok (le_bytes width z)
  else Raise StructError.

Definition pack_field (f : field) : result (list byte) :=
  match f with
  | F4s s => Ok (pack_4s s)
  | FI z => pack_uint 4 z
  | FH z => pack_uint 2 z
  end.

(** [struct.pack("<...", ...)]: little-endian, no padding. *)
Fixpoint struct_pack (fields : list field) : result (list byte) :=
  match fields with
  | [] => Ok []
  | f :: rest =>
      rbind (pack_field f) (fun b =>
      rbind (struct_pack rest) (fun bs => Ok (b ++ bs)%list))
  end.

Definition convert_to_wav (audio_data : list byte) (mime_type : string)
  : result (list byte) :=
  let parameters := parse_audio_mime_type mime_type in
  let bits_per_sample := bits_per_sample parameters in
  let sample_rate := rate parameters in
  let num_channels := 1 in
  let data_size := Z.of_nat (List.length audio_data) in
  let bytes_per_sample := bits_per_sample / 8 in
  let block_align := num_channels * bytes_per_sample in
  let byte_rate := sample_rate * block_align in
  let chunk_size := 36 + data_size in
  rbind (struct_pack
           [ F4s "RIFF"; FI chunk_size; F4s "WAVE"; F4s "fmt ";
             FI 16; FH 1; FH num_channels; FI sample_rate; FI byte_rate;
             FH block_align; FH bits_per_sample; F4s "data"; FI data_size ])
    (fun header => Ok (header ++ audio_data)%list).

(** ** The run: console, files and the two services *)

(** What the speech service streams. *)
Record Blob : Type := {
  blob_data : list byte;
  blob_mime_type : string
}.

Record Part : Type := {
  inline_data : option Blob
}.

Record Content : Type := {
  parts : option (list Part)
}.

Record Candidate : Type := {
  content : option Content
}.

(** A value of the stream.  The candidates, the content of a candidate and
    the parts of a content may each be [None]; [chunk_text] is the [text]
    accessor of the chunk. *)
Record Chunk : Type := {
  candidates : option (list Candidate);
  chunk_text : option string
}.

Record generation_request : Type := {
  gr_model : string;
  gr_script : string;
  gr_speaker_voice_configs : list (string * string)
}.

(** The lines the program prints, by their format string. *)
Inductive output : Type :=
| OutWelcome
| OutNoApiKey
| OutSetApiKey
| OutFileNotFound (script_path : string)
| OutUsingFilename (file_name : string)
| OutExtracting
| OutDetected (speaker1 speaker2 : string)
| OutSelecting
| OutSelected (speaker1 voice1 speaker2 voice2 : string)
| OutGenerating
| OutConverting
| OutSaved (file_name : string)
| OutChunkText (text : option string).

(** [Wrote file_name data]: the file was opened for writing and now holds
    [data]. *)
Inductive event : Type :=
| Printed (o : output)
| Prompted
| AskedSuggestion (req : suggestion_request)
| AskedGeneration (req : generation_request)
| Wrote (file_name : string) (data : list byte).

(** What [open(file_name, "wb")] followed by [f.write(data)] comes to: the
    file holds the data; or [open] raises and no file is touched; or the
    file is opened, which empties it, and writing or closing raises, the
    file being left with [kept]. *)
Inductive write_outcome : Type :=
| Written
| OpenRaises (e : exn)
| WriteRaises (kept : list byte) (e : exn).

(** What the program finds around it.  [stem] is [Path(p).stem],
    [guess_extension] is [mimetypes.guess_extension]; the speech service
    yields its chunks and then either ends or raises; [write_file] is what
    the file system makes of a write, given all that happened before. *)
Record world : Type := {
  api_key : option string;
  isfile : string -> bool;
  read_file : string -> string;
  stdin_line : string;
  stem : string -> string;
  guess_extension : string -> option string;
  suggestion_service : suggestion_request -> result string;
  generation_service : generation_request -> list Chunk * option exn;
  write_file : list event -> string -> list byte -> write_outcome
}.

(** The effects of a run so far: what happened, in order, and the files
    written. *)
Record state : Type := {
  trace : list event;
  files : gmap string (list byte)
}.

Definition initial_state : state := {| trace := []; files := ∅ |}.

Definition M (A : Type) : Type := state -> result A * state.

Definition ret {A : Type} (a : A) : M A := fun st => (Ok a, st).

Definition raise {A : Type} (e : exn) : M A := fun st => (Raise e, st).

Definition bind {A B : Type} (m : M A) (k : A -> M B) : M B :=
  fun st =>
    match m st with
    | (Ok a, st') => k a st'
    | (Raise e, st') => (Raise e, st')
    end.

Notation "x <- m ;; k" := (bind m (fun x => k))
  (at level 90, m at level 89, right associativity).
Notation "m ;;; k" := (bind m (fun _ => k))
  (at level 90, right associativity).

Definition lift {A : Type} (r : result A) : M A := fun st => (r, st).

Definition emit (e : event) : M unit :=
  fun st => (Ok tt, {| trace := (trace st ++ [e])%list; files := files st |}).

Definition print (o : output) : M unit := emit (Printed o).

Definition save_binary_file (w : world) (file_name : string)
    (data : list byte) : M unit :=
  (fun st =>
     match write_file w (trace st) file_name data with
     | Written =>
         (Ok tt, {| trace := (trace st ++ [Wrote file_name data])%list;
                    files := <[file_name := data]> (files st) |})
     | OpenRaises e => (Raise e, st)
     | WriteRaises kept e =>
         (Raise e, {| trace := (trace st ++ [Wrote file_name kept])%list;
                      files := <[file_name := kept]> (files st) |})
     end) ;;;
  print (OutSaved file_name).

(** Python's truth of an optional string: neither [None] nor empty. *)
Definition truthy (o : option string) : bool :=
  match o with
  | Some s => negb (Py.is_empty s)
  | None => false
  end.

(** [s.replace(" ", "_")] *)
Fixpoint replace_space (s : string) : string :=
  match s with
  | EmptyString => EmptyString
  | String c r => String (if Ascii.eqb c " " then "_"%char else c) (replace_space r)
  end.

(** [mimetypes.guess_extension(mime) or ".wav"] *)
Definition file_extension_of (w : world) (mime : string) : string :=
  match guess_extension w mime with
  | Some e => if Py.is_empty e then ".wav" else e
  | None => ".wav"
  end.

(** The body of the loop over the stream. *)
Definition process_chunk (w : world) (file_name : string) (chunk : Chunk)
  : M unit :=
  match candidates chunk with
  | None | Some [] => ret tt
  | Some (candidate :: _) =>
      match content candidate with
      | None => raise AttributeError
      | Some content0 =>
          match parts content0 with
          | None | Some [] => ret tt
          | Some (part :: _) =>
              match inline_data part with
              | Some inline_data =>
                  let mime := blob_mime_type inline_data in
                  let file_extension := file_extension_of w mime in
                  data_buffer <-
                    (if negb (String.eqb mime "audio/wav") then
                       print OutConverting ;;;
                       lift (convert_to_wav (blob_data inline_data) mime)
                     else ret (blob_data inline_data)) ;;
                  save_binary_file w (file_name ++ file_extension)
                    data_buffer
              | None => print (OutChunkText (chunk_text chunk))
              end
          end
      end
  end.

Fixpoint stream_loop (w : world) (file_name : string) (chunks : list Chunk)
  : M unit :=
  match chunks with
  | [] => ret tt
  | chunk :: rest =>
      process_chunk w file_name chunk ;;; stream_loop w file_name rest
  end.

Definition generate (w : world) (script_path0 output_file : option string)
  : M unit :=
  script_path <-
    (match script_path0 with
     | Some p => if Py.is_empty p
                 then emit Prompted ;;; ret (Py.strip (stdin_line w))
                 else ret p
     | None => emit Prompted ;;; ret (Py.strip (stdin_line w))
     end) ;;
  if negb (isfile w script_path) then print (OutFileNotFound script_path)
  else
    let user_prompt := read_file w script_path in
    let '(speaker1, speaker2) := extract_speakers user_prompt in
    file_name <-
      (if truthy output_file then ret (default EmptyString output_file)
       else if truthy speaker1 && truthy speaker2 then
         let speaker1_part :=
           replace_space (Py.lower (default EmptyString speaker1)) in
         let speaker2_part :=
           replace_space (Py.lower (default EmptyString speaker2)) in
         ret (speaker1_part ++ "_" ++ speaker2_part)
       else
         let script_basename := stem w script_path in
         let file_name := if Py.is_empty script_basename
                          then "output_audio" else script_basename in
         print (OutUsingFilename file_name) ;;; ret file_name) ;;
    print OutExtracting ;;;
    let '(speaker1, speaker2) := extract_speakers user_prompt in
    let speaker1 := if truthy speaker1 then default EmptyString speaker1
                    else "Speaker 1" in
    let speaker2 := if truthy speaker2 then default EmptyString speaker2
                    else "Speaker 2" in
    print (OutDetected speaker1 speaker2) ;;;
    print OutSelecting ;;;
    let model := "gemini-2.5-flash-preview-tts" in
    let model_chat := "gemini-2.5-flash-preview-04-17" in
    emit (AskedSuggestion (speaker_suggestion_prompt model_chat user_prompt
                             speaker1 speaker2)) ;;;
    speaker_voices <-
      lift (select_voices_for_speakers (suggestion_service w) model_chat
              user_prompt speaker1 speaker2) ;;
    voice1 <- lift (getitem speaker_voices speaker1) ;;
    voice2 <- lift (getitem speaker_voices speaker2) ;;
    print (OutSelected speaker1 voice1 speaker2 voice2) ;;;
    print OutGenerating ;;;
    let req := {| gr_model := model;
                  gr_script := user_prompt;
                  gr_speaker_voice_configs :=
                    [(speaker1, voice1); (speaker2, voice2)] |} in
    emit (AskedGeneration req) ;;;
    let '(chunks, failure) := generation_service w req in
    stream_loop w file_name chunks ;;;
    match failure with
    | Some e => raise e
    | None => ret tt
    end.

(** The script's entry point, after the arguments are parsed. *)
Definition main (w : world) (input_file : string) (output : option string)
  : M unit :=
  print OutWelcome ;;;
  if negb (truthy (api_key w)) then
    print OutNoApiKey ;;; print OutSetApiKey ;;; raise (SystemExit 1)
  else generate w (Some input_file) output.

(** The exit status of the interpreter: 0 when the script runs to its end,
    the argument of [sys.exit], 1 for an exception nobody caught. *)
Definition exit_code (r : result unit) : Z :=
  match r with
  | Ok _ => 0
  | Raise (SystemExit n) => n
  | Raise _ => 1
  end.

Definition run (w : world) (input_file : string) (output : option string)
  : Z * state :=
  let '(r, st) := main w input_file output initial_state in
  (exit_code r, st).

(** ** Notions the statements are written with *)

Definition is_ok {A : Type} (r : result A) : bool :=
  match r with
  | Ok _ => true
  | Raise _ => false
  end.

Definition is_some {A : Type} (o : option A) : bool :=
  match o with
  | Some _ => true
  | None => false
  end.

(** [c] occurs in [s]. *)
Fixpoint occurs (c : ascii) (s : string) : Prop :=
  match s with
  | EmptyString => False
  | String c' r => c' = c \/ occurs c r
  end.

(** *** Media types *)

(** A segment is recognized and its integer parses. *)
Definition param_parses (param0 : string) : bool :=
  let param := Py.strip param0 in
  if Py.startswith (Py.lower param) "rate=" then
    is_ok (rbind (Py.item (Py.split1 "=" param) 1) Py.int)
  else if Py.contains "audio/L" param then
    is_ok (rbind (Py.item (Py.split1 "L" param) 1) Py.int)
  else false.

Definition default_params : MediaTypeParams :=
  {| bits_per_sample := 16; rate := 24000 |}.

(** *** Speakers, in the words of the specification *)

(** The trimmed, non-empty names before the first colon of the lines that
    have one, top to bottom. *)
Definition names_of (lines : list string) : list string :=
  List.filter (fun n => negb (Py.is_empty n))
    (map speaker_name_of (List.filter (Py.contains ":") lines)).

Definition name_candidates (text : string) : list string :=
  names_of (Py.splitlines text).

(** The first name, then the first name that differs from it; what is
    missing is null. *)
Definition first_two_distinct (names : list string)
  : option string * option string :=
  match names with
  | [] => (None, None)
  | a :: rest => (Some a, find (fun n => negb (String.eqb n a)) rest)
  end.

(** *** Reading a WAV header back *)

Fixpoint le_value (bs : list byte) : Z :=
  match bs with
  | [] => 0
  | b :: r => Z_of_byte b + 256 * le_value r
  end.

Definition slice (off len : nat) (bs : list byte) : list byte :=
  firstn len (skipn off bs).

Definition uint_at (off width : nat) (bs : list byte) : Z :=
  le_value (slice off width bs).

Definition tag_at (off : nat) (bs : list byte) : string :=
  string_of_list_byte (slice off 4 bs).

Record WavHeader : Type := {
  chunkSize : Z;
  subchunkSize : Z;
  audioFormat : Z;
  numChannels : Z;
  sampleRate : Z;
  byteRate : Z;
  blockAlign : Z;
  bitsPerSample : Z;
  dataSize : Z
}.

(** The canonical 44-byte layout: the four tags at 0, 8, 12 and 36 and the
    little-endian fields between them; the payload follows. *)
Definition read_wav (bs : list byte) : option (WavHeader * list byte) :=
  if String.eqb (tag_at 0 bs) "RIFF" && String.eqb (tag_at 8 bs) "WAVE"
     && String.eqb (tag_at 12 bs) "fmt " && String.eqb (tag_at 36 bs) "data"
     && Nat.leb 44 (List.length bs)
  then Some ({| chunkSize := uint_at 4 4 bs;
               subchunkSize := uint_at 16 4 bs;
               audioFormat := uint_at 20 2 bs;
               numChannels := uint_at 22 2 bs;
               sampleRate := uint_at 24 4 bs;
               byteRate := uint_at 28 4 bs;
               blockAlign := uint_at 32 2 bs;
               bitsPerSample := uint_at 34 2 bs;
               dataSize := uint_at 40 4 bs |}, skipn 44 bs)
  else None.

(** The 44 bytes the encoder puts before the payload. *)
Definition wav_header_bytes (cs sr br ba bits ds : Z) : list byte :=
  (pack_4s "RIFF" ++ le_bytes 4 cs ++ pack_4s "WAVE" ++ pack_4s "fmt "
   ++ le_bytes 4 16 ++ le_bytes 2 1 ++ le_bytes 2 1 ++ le_bytes 4 sr
   ++ le_bytes 4 br ++ le_bytes 2 ba ++ le_bytes 2 bits
   ++ pack_4s "data" ++ le_bytes 4 ds)%list.

(** *** Responses of the suggestion service *)

(** The lines the parser walks over. *)
Definition response_lines (text0 : string) : list string :=
  Py.split "010" (Py.strip text0).

(** The line starts, case apart, with the speaker's name and a colon. *)
Definition has_prefix (speaker_name line : string) : bool :=
  Py.startswith (Py.lower line) (Py.lower speaker_name ++ ":").

(** The catalog voice a line names after its first colon, if any. *)
Definition named_on (available_voices : list voice) (line : string)
  : option string :=
  match resolve_voice available_voices line with
  | Ok (Some v) => Some v
  | _ => None
  end.

(** No line of the response resolves to a catalog voice. *)
Definition no_line_resolves (available_voices : list voice) (text0 : string)
  : bool :=
  forallb (fun line => negb (is_some (named_on available_voices line)))
    (response_lines text0).

(** The line has the speaker's prefix and names the voice [v]. *)
Definition line_names (available_voices : list voice)
    (speaker_name v line : string) : bool :=
  has_prefix speaker_name line
  && match named_on available_voices line with
     | Some v' => String.eqb v' v
     | None => false
     end.

(** A voice named on the line under the speaker's prefix can only be [v]. *)
Definition line_names_only (available_voices : list voice)
    (speaker_name v line : string) : bool :=
  negb (has_prefix speaker_name line)
  || match named_on available_voices line with
     | Some v' => String.eqb v' v
     | None => true
     end.

Definition line_not_shared (speaker1_name speaker2_name line : string)
  : bool :=
  negb (has_prefix speaker1_name line && has_prefix speaker2_name line).

(** Some line with the speaker's prefix names the voice [v]. *)
Definition names_voice (available_voices : list voice)
    (text0 speaker_name v : string) : bool :=
  existsb (line_names available_voices speaker_name v)
    (response_lines text0).

(** Every voice named on a line with the speaker's prefix is [v]. *)
Definition names_only (available_voices : list voice)
    (text0 speaker_name v : string) : bool :=
  forallb (line_names_only available_voices speaker_name v)
    (response_lines text0).

(** No line carries the prefix of both speakers. *)
Definition no_shared_line (text0 speaker1_name speaker2_name : string)
  : bool :=
  forallb (line_not_shared speaker1_name speaker2_name)
    (response_lines text0).

(** A service that answers every request with the same text. *)
Definition answering (text : string) : suggestion_request -> result string :=
  fun _ => Ok text.

(** The claim that a response naming a voice for each speaker is followed
    to the letter, as the specification words it. *)
Definition follows_every_well_formed_response : Prop :=
  forall speaker1_name speaker2_name text v1 v2 model prompt,
    names_voice get_available_voices text speaker1_name v1 = true ->
    names_voice get_available_voices text speaker2_name v2 = true ->
    v1 <> v2 ->
    select_voices_for_speakers (answering text) model prompt
      speaker1_name speaker2_name
    = Ok (<[speaker2_name := v2]> (<[speaker1_name := v1]> ∅)).

(** *** Streams *)

(** A chunk of one candidate whose content is the one part [part]. *)
Definition one_part (part : Part) (text : option string) : Chunk :=
  {| candidates := Some [ {| content := Some {| parts := Some [part] |} |} ];
     chunk_text := text |}.

Definition Text (text : string) : Chunk :=
  one_part {| inline_data := None |} (Some text).

Definition Binary (bytes : list byte) (mediaType : string) : Chunk :=
  one_part {| inline_data := Some {| blob_data := bytes;
                                     blob_mime_type := mediaType |} |} None.

(** A chunk whose one candidate has no content. *)
Definition Contentless : Chunk :=
  {| candidates := Some [ {| content := None |} ]; chunk_text := None |}.

(** The part the loop looks at: the first part of the content of the first
    candidate. *)
Definition first_part (chunk : Chunk) : option Part :=
  match candidates chunk with
  | Some (candidate :: _) =>
      match content candidate with
      | Some content0 =>
          match parts content0 with
          | Some (part :: _) => Some part
          | _ => None
          end
      | None => None
      end
  | _ => None
  end.

(** The binary payload the loop looks at. *)
Definition chunk_blob (chunk : Chunk) : option Blob :=
  match first_part chunk with
  | Some part => inline_data part
  | None => None
  end.

(** What the loop writes for a payload. *)
Definition bytes_to_write (b : Blob) : result (list byte) :=
  if String.eqb (blob_mime_type b) "audio/wav" then Ok (blob_data b)
  else convert_to_wav (blob_data b) (blob_mime_type b).

Fixpoint last_blob (chunks : list Chunk) : option Blob :=
  match chunks with
  | [] => None
  | chunk :: rest =>
      match last_blob rest with
      | Some b => Some b
      | None => chunk_blob chunk
      end
  end.

Fixpoint write_paths (tr : list event) : list string :=
  match tr with
  | [] => []
  | Wrote p _ :: rest => p :: write_paths rest
  | _ :: rest => write_paths rest
  end.

(** All writes of a trace go to one path. *)
Definition single_destination (tr : list event) : Prop :=
  forall p q, In p (write_paths tr) -> In q (write_paths tr) -> p = q.

(** A few rows of the table behind [mimetypes.guess_extension]. *)
Definition guess_extension_rows (mime : string) : option string :=
  if String.eqb mime "audio/mpeg" then Some ".mp3"
  else if String.eqb mime "audio/x-wav" then Some ".wav"
  else if String.eqb mime "audio/basic" then Some ".au"
  else None.

(** A world with the credential set, no file at all and silent services. *)
Definition bare_world : world :=
  {| api_key := Some "secret";
     isfile := fun _ => false;
     read_file := fun _ => EmptyString;
     stdin_line := EmptyString;
     stem := fun p => p;
     guess_extension := guess_extension_rows;
     suggestion_service := fun _ => Raise ServiceError;
     generation_service := fun _ => ([], Some ServiceError);
     write_file := fun _ _ _ => Written |}.

(** The same world without the credential. *)
Definition keyless_world : world :=
  {| api_key := None;
     isfile := isfile bare_world;
     read_file := read_file bare_world;
     stdin_line := stdin_line bare_world;
     stem := stem bare_world;
     guess_extension := guess_extension bare_world;
     suggestion_service := suggestion_service bare_world;
     generation_service := generation_service bare_world;
     write_file := write_file bare_world |}.

(** The world of [bare_world] where the directory "nodir" does not exist:
    no file can be opened below it. *)
Definition missing_directory_world : world :=
  {| api_key := api_key bare_world;
     isfile := isfile bare_world;
     read_file := read_file bare_world;
     stdin_line := stdin_line bare_world;
     stem := stem bare_world;
     guess_extension := guess_extension bare_world;
     suggestion_service := suggestion_service bare_world;
     generation_service := generation_service bare_world;
     write_file := fun _ file_name _ =>
                     if Py.startswith file_name "nodir/"
                     then OpenRaises OSError else Written |}.

Definition service_calls (tr : list event) : list event :=
  List.filter (fun e => match e with
                   | AskedSuggestion _ | AskedGeneration _ => true
                   | _ => false
                   end) tr.

(** ** Further notions, for the properties beyond the specification *)

(** A speaker name as the extractor hands it out: not empty, trimmed and
    free of colons. *)
Definition well_formed_name (n : string) : Prop :=
  n <> EmptyString /\ Py.strip n = n /\ ~ occurs ":" n.

(** What the voice mapping keeps true while it is built: only the two
    speakers are keys, only catalog names are values. *)
Definition voices_invariant (available_voices : list voice)
    (speaker1_name speaker2_name : string) (sv : gmap string string) : Prop :=
  forall k v, sv !! k = Some v ->
    (k = speaker1_name \/ k = speaker2_name)
    /\ In v (voice_names available_voices).

(** No line with the speaker's prefix names a catalog voice. *)
Definition speaker_unsettled (available_voices : list voice)
    (text0 speaker_name : string) : bool :=
  forallb (fun line => negb (has_prefix speaker_name line
                             && is_some (named_on available_voices line)))
    (response_lines text0).

(** The first candidate of the chunk, if there is one, has a content. *)
Definition has_content (chunk : Chunk) : bool :=
  match candidates chunk with
  | Some (candidate :: _) =>
      match content candidate with
      | Some _ => true
      | None => false
      end
  | _ => true
  end.

(** The loop can make something of the chunk: its first candidate has a
    content and its payload, if any, can be converted. *)
Definition chunk_writable (chunk : Chunk) : bool :=
  has_content chunk
  && match chunk_blob chunk with
     | Some b => is_ok (bytes_to_write b)
     | None => true
     end.

(** The file system takes every write. *)
Definition takes_every_write (w : world) : Prop :=
  forall tr file_name data, write_file w tr file_name data = Written.

(** An event of the console or of the file system, not a call of a
    service. *)
Definition is_local (e : event) : bool :=
  match e with
  | AskedSuggestion _ | AskedGeneration _ => false
  | _ => true
  end.

(** *** A run, piece by piece *)

(** The script path the run works with: the argument, or the trimmed
    answer to the prompt when the argument is empty. *)
Definition script_path_of (w : world) (input_file : string) : string :=
  if Py.is_empty input_file then Py.strip (stdin_line w) else input_file.

(** The names the two speakers go by in the requests. *)
Definition speakers_of (user_prompt : string) : string * string :=
  let '(speaker1, speaker2) := extract_speakers user_prompt in
  (if truthy speaker1 then default EmptyString speaker1 else "Speaker 1",
   if truthy speaker2 then default EmptyString speaker2 else "Speaker 2").

(** The name of the script stands in for the output name. *)
Definition falls_back_on_stem (output_file : option string)
    (user_prompt : string) : bool :=
  negb (truthy output_file)
  && negb (truthy (fst (extract_speakers user_prompt))
           && truthy (snd (extract_speakers user_prompt))).

(** The output name without its extension. *)
Definition output_name (w : world) (script_path : string)
    (output_file : option string) (user_prompt : string) : string :=
  if truthy output_file then default EmptyString output_file
  else if falls_back_on_stem output_file user_prompt then
    if Py.is_empty (stem w script_path) then "output_audio"
    else stem w script_path
  else
    (replace_space
       (Py.lower (default EmptyString (fst (extract_speakers user_prompt))))
     ++ "_"
     ++ replace_space
          (Py.lower
             (default EmptyString (snd (extract_speakers user_prompt)))))
    %string.

(** What a run shows before it turns to the suggestion service. *)
Definition preamble (w : world) (input_file : string)
    (output_file : option string) : list event :=
  let script_path := script_path_of w input_file in
  let user_prompt := read_file w script_path in
  ((if Py.is_empty input_file then [Prompted] else [])
   ++ (if falls_back_on_stem output_file user_prompt
       then [Printed (OutUsingFilename
                        (output_name w script_path output_file user_prompt))]
       else [])
   ++ [Printed OutExtracting;
       Printed (OutDetected (fst (speakers_of user_prompt))
                  (snd (speakers_of user_prompt)));
       Printed OutSelecting])%list.

Definition suggestion_request_of (w : world) (input_file : string)
  : suggestion_request :=
  let user_prompt := read_file w (script_path_of w input_file) in
  speaker_suggestion_prompt "gemini-2.5-flash-preview-04-17" user_prompt
    (fst (speakers_of user_prompt)) (snd (speakers_of user_prompt)).

Definition generation_request_of (w : world) (input_file : string)
    (voice1 voice2 : string) : generation_request :=
  let user_prompt := read_file w (script_path_of w input_file) in
  {| gr_model := "gemini-2.5-flash-preview-tts";
     gr_script := user_prompt;
     gr_speaker_voice_configs :=
       [(fst (speakers_of user_prompt), voice1);
        (snd (speakers_of user_prompt), voice2)] |}.

(** What [generate] does once the script is found and the voices are
    chosen. *)
Definition generate_audio (w : world) (input_file : string)
    (output_file : option string) (voice1 voice2 : string) (st : state)
  : result unit * state :=
  let script_path := script_path_of w input_file in
  let user_prompt := read_file w script_path in
  let req := generation_request_of w input_file voice1 voice2 in
  let st1 :=
    {| trace := (trace st ++ preamble w input_file output_file
                 ++ [AskedSuggestion (suggestion_request_of w input_file);
                     Printed (OutSelected (fst (speakers_of user_prompt))
                                voice1 (snd (speakers_of user_prompt))
                                voice2);
                     Printed OutGenerating;
                     AskedGeneration req])%list;
       files := files st |} in
  match stream_loop w (output_name w script_path output_file user_prompt)
          (fst (generation_service w req)) st1 with
  | (Ok _, st2) =>
      (match snd (generation_service w req) with
       | Some e => Raise e
       | None => Ok tt
       end, st2)
  | (Raise e, st2) => (Raise e, st2)
  end.

(** A world with the credential set and one script, "scene.txt", of two
    speakers; the suggestion service gives [answer] and the speech service
    streams [chunks]. *)
Definition scene_world (answer : result string) (chunks : list Chunk)
  : world :=
  {| api_key := Some "secret";
     isfile := fun p => String.eqb p "scene.txt";
     read_file := fun _ => ("Alice: Hi" ++ LF ++ "Bob: Hello")%string;
     stdin_line := EmptyString;
     stem := fun p => p;
     guess_extension := guess_extension_rows;
     suggestion_service := fun _ => answer;
     generation_service := fun _ => (chunks, None);
     write_file := fun _ _ _ => Written |}.

(** The same with a script whose only speaker is called "Speaker 2". *)
Definition lone_speaker_world : world :=
  {| api_key := Some "secret";
     isfile := fun p => String.eqb p "scene.txt";
     read_file := fun _ => "Speaker 2: hello";
     stdin_line := EmptyString;
     stem := fun p => p;
     guess_extension := guess_extension_rows;
     suggestion_service := fun _ => Ok EmptyString;
     generation_service := fun _ => ([], None);
     write_file := fun _ _ _ => Written |}.

(** * Properties *)

(** ** The media-type parser *)

Lemma parse_param_unrecognized acc param0 :
  param_parses param0 = false -> parse_param acc param0 = acc.
Proof.
  unfold param_parses, parse_param.
  destruct (Py.startswith _ "rate=").
  - destruct (rbind (Py.item (Py.split1 "=" _) 1) Py.int); simpl;
      [discriminate | reflexivity].
  - destruct (Py.contains "audio/L" _); [|reflexivity].
    destruct (rbind (Py.item (Py.split1 "L" _) 1) Py.int); simpl;
      [discriminate | reflexivity].
Qed.

Lemma fold_parse_param_unrecognized params acc :
  forallb (fun p => negb (param_parses p)) params = true ->
  fold_left parse_param params acc = acc.
Proof.
  revert acc. induction params as [|p ps IH]; intros acc H; simpl in *.
  - reflexivity.
  - apply andb_true_iff in H as [Hp Hps].
    apply negb_true_iff in Hp.
    rewrite (parse_param_unrecognized acc p Hp). now apply IH.
Qed.

(** C6. The parser gives 16 bits at 44100 Hz for "audio/L16;rate=44100",
    the defaults 16 bits and 24000 Hz for "audio/something-unrecognized",
    24 bits at 24000 Hz for "rate=not-a-number;audio/L24"; and the defaults
    for every media type none of whose segments is recognized and
    parses. *)
Theorem parse_audio_mime_type_defaults :
  parse_audio_mime_type "audio/L16;rate=44100"
    = {| bits_per_sample := 16; rate := 44100 |}
  /\ parse_audio_mime_type "audio/something-unrecognized"
    = {| bits_per_sample := 16; rate := 24000 |}
  /\ parse_audio_mime_type "rate=not-a-number;audio/L24"
    = {| bits_per_sample := 24; rate := 24000 |}
  /\ forall mime_type,
       forallb (fun p => negb (param_parses p)) (Py.split ";" mime_type)
         = true ->
       parse_audio_mime_type mime_type = default_params.
Proof.
  repeat split; try (vm_compute; reflexivity).
  intros mime_type H. unfold parse_audio_mime_type.
  now apply fold_parse_param_unrecognized.
Qed.

Lemma parse_audio_mime_type_defaults_witness :
  forallb (fun p => negb (param_parses p))
    (Py.split ";" "rate=fast; audio/Lxvi ;codec=pcm") = true
  /\ parse_audio_mime_type "rate=fast; audio/Lxvi ;codec=pcm" = default_params.
Proof.
  split.
  - vm_compute. reflexivity.
  - apply (proj2 (proj2 (proj2 parse_audio_mime_type_defaults))).
    vm_compute. reflexivity.
Defined.

(** ** Strings *)

Lemma append_nil (s : string) : (EmptyString ++ s)%string = s.
Proof. reflexivity. Qed.

Lemma append_cons x (a b : string) :
  (String x a ++ b)%string = String x (a ++ b).
Proof. reflexivity. Qed.

Ltac unfold_append := rewrite ?append_nil, ?append_cons in *.

Lemma append_assoc (a b c : string) : ((a ++ b) ++ c = a ++ (b ++ c))%string.
Proof. induction a as [|x a IH]; unfold_append; congruence. Qed.

Lemma occurs_append c a b : occurs c (a ++ b) <-> occurs c a \/ occurs c b.
Proof. induction a as [|x a IH]; unfold_append; simpl; tauto. Qed.

Lemma prefix_char c s :
  String.prefix (String c EmptyString) s = true <->
  exists r, s = String c r.
Proof.
  destruct s as [|x r]; simpl.
  - split; [discriminate | intros [r H]; discriminate].
  - destruct (ascii_dec c x) as [->|Hne].
    + split; [eauto | intros _; destruct r; reflexivity].
    + split; [discriminate | intros [r' H]; injection H; congruence].
Qed.

Lemma contains_char c s :
  Py.contains (String c EmptyString) s = true <-> occurs c s.
Proof.
  induction s as [|x r IH].
  - simpl. split; [discriminate | tauto].
  - change (Py.contains (String c EmptyString) (String x r))
      with (String.prefix (String c EmptyString) (String x r)
            || Py.contains (String c EmptyString) r).
    rewrite orb_true_iff, IH, prefix_char. simpl. split.
    + intros [[r' H]|H]; [injection H; auto | auto].
    + intros [->|H]; eauto.
Qed.

Lemma cut_cons sep x r :
  Py.cut sep (String x r)
  = if String.prefix sep (String x r)
    then Some (EmptyString, Py.drop (String.length sep) (String x r))
    else match Py.cut sep r with
         | Some (a, b) => Some (String x a, b)
         | None => None
         end.
Proof. reflexivity. Qed.

(** Cutting at a character: the left piece is free of it. *)
Lemma cut_char_spec c s a b :
  Py.cut (String c EmptyString) s = Some (a, b) ->
  s = (a ++ String c b)%string /\ ~ occurs c a.
Proof.
  revert a b. induction s as [|x r IH]; intros a b.
  - simpl. discriminate.
  - rewrite cut_cons.
    destruct (String.prefix (String c EmptyString) (String x r)) eqn:Hp.
    + apply prefix_char in Hp as [r' Hr]. injection Hr as -> ->.
      intros H. injection H as <- <-. unfold_append. simpl. tauto.
    + destruct (Py.cut (String c EmptyString) r) as [[a' b']|] eqn:Hc;
        [|discriminate].
      intros H. injection H as <- <-.
      destruct (IH _ _ eq_refl) as [-> Hno]. split; [reflexivity|].
      simpl. intros [->|Hin]; [|tauto].
      assert (String.prefix (String c EmptyString)
                (String c (a' ++ String c b')) = true) as Hp'
        by (apply prefix_char; eauto).
      congruence.
Qed.

Lemma cut_char_occurs c s :
  occurs c s -> exists a b, Py.cut (String c EmptyString) s = Some (a, b).
Proof.
  induction s as [|x r IH]; [simpl; tauto|].
  intros H. rewrite cut_cons.
  destruct (String.prefix (String c EmptyString) (String x r)) eqn:Hp;
    [eauto|].
  destruct H as [->|H].
  - assert (String.prefix (String c EmptyString) (String c r) = true)
      by (apply prefix_char; eauto).
    congruence.
  - destruct (IH H) as (a & b & ->). eauto.
Qed.

(** ** The speaker extractor *)

Lemma names_of_cons line lines :
  names_of (line :: lines) =
  if Py.contains ":" line && negb (Py.is_empty (speaker_name_of line))
  then speaker_name_of line :: names_of lines
  else names_of lines.
Proof.
  unfold names_of. simpl.
  destruct (Py.contains ":" line); simpl; [|reflexivity].
  destruct (Py.is_empty (speaker_name_of line)); reflexivity.
Qed.

(** With one name seen, the loop looks for the first other name. *)
Lemma extract_loop_one a lines :
  extract_loop [a] lines
  = (Some a, find (fun n => negb (String.eqb n a)) (names_of lines)).
Proof.
  induction lines as [|line rest IH]; [reflexivity|].
  rewrite names_of_cons. simpl.
  destruct (Py.contains ":" line); simpl; [|exact IH].
  destruct (Py.is_empty (speaker_name_of line)); simpl; [exact IH|].
  rewrite orb_false_r.
  destruct (String.eqb (speaker_name_of line) a); simpl;
    [exact IH | reflexivity].
Qed.

Lemma extract_loop_none lines :
  extract_loop [] lines = first_two_distinct (names_of lines).
Proof.
  induction lines as [|line rest IH]; [reflexivity|].
  rewrite names_of_cons. simpl.
  destruct (Py.contains ":" line); simpl; [|exact IH].
  destruct (Py.is_empty (speaker_name_of line)); simpl; [exact IH|].
  apply extract_loop_one.
Qed.

Lemma before_first_colon line :
  Py.contains ":" line = true ->
  exists after,
    line = (hd EmptyString (Py.split1 ":" line) ++ ":" ++ after)%string
    /\ ~ occurs ":" (hd EmptyString (Py.split1 ":" line)).
Proof.
  intros H. apply contains_char in H.
  destruct (cut_char_occurs _ _ H) as (a & b & Hc).
  unfold Py.split1. rewrite Hc. simpl.
  apply cut_char_spec in Hc as [-> Hno]. eauto.
Qed.

(** C5. For every dialogue text, extract_speakers returns the first name
    and the first name different from it among the trimmed, non-empty
    texts that precede the first colon of the lines having one, read top
    to bottom, and null for each name that is missing.  "Alice: Hi",
    "Bob: Hello", "Alice: Bye" gives (Alice, Bob); one name gives
    (name, null); a text without colon gives (null, null). *)
Theorem extract_speakers_first_two :
  (forall text,
     extract_speakers text = first_two_distinct (name_candidates text))
  /\ (forall line,
        Py.contains ":" line = true ->
        exists after,
          line = (hd EmptyString (Py.split1 ":" line) ++ ":" ++ after)%string
          /\ ~ occurs ":" (hd EmptyString (Py.split1 ":" line))
          /\ speaker_name_of line
             = Py.strip (hd EmptyString (Py.split1 ":" line)))
  /\ extract_speakers ("Alice: Hi" ++ LF ++ "Bob: Hello" ++ LF ++ "Alice: Bye")
     = (Some "Alice", Some "Bob")
  /\ extract_speakers "OnlyOne: hi" = (Some "OnlyOne", None)
  /\ extract_speakers "no colons here" = (None, None).
Proof.
  split; [|split; [|repeat split; vm_compute; reflexivity]].
  - intros text. apply extract_loop_none.
  - intros line H. destruct (before_first_colon line H) as (after & H1 & H2).
    exists after. repeat split; assumption.
Qed.

Lemma extract_speakers_first_two_witness :
  Py.contains ":" "Bob: Hello" = true
  /\ exists after,
       "Bob: Hello"
       = (hd EmptyString (Py.split1 ":" "Bob: Hello") ++ ":" ++ after)%string
       /\ ~ occurs ":" (hd EmptyString (Py.split1 ":" "Bob: Hello"))
       /\ speaker_name_of "Bob: Hello"
          = Py.strip (hd EmptyString (Py.split1 ":" "Bob: Hello")).
Proof.
  split.
  - vm_compute. reflexivity.
  - apply (proj1 (proj2 extract_speakers_first_two)). vm_compute. reflexivity.
Defined.

(** ** What [int] accepts *)

Lemma int_lstrip_occurs c s :
  occurs c s -> Py.int_isspace c = true \/ occurs c (Py.int_lstrip s).
Proof.
  induction s as [|x r IH]; simpl; [tauto|].
  destruct (Py.int_isspace x) eqn:Hx.
  - intros [->|H]; [tauto | auto].
  - simpl. tauto.
Qed.

Lemma int_sign_occurs c s sg s2 :
  Py.int_sign s = (sg, s2) ->
  occurs c s -> c = "+"%char \/ c = "-"%char \/ occurs c s2.
Proof.
  destruct s as [|x r]; simpl.
  - intros _ [].
  - destruct (Ascii.eqb_spec x "+") as [->|_].
    { intros H. injection H as _ <-. intuition congruence. }
    destruct (Ascii.eqb_spec x "-") as [->|_].
    { intros H. injection H as _ <-. intuition congruence. }
    intros H. injection H as _ <-. simpl. tauto.
Qed.

Lemma scan_digits_occurs c s : forall p acc n v n' rest,
  Py.scan_digits p acc n s = Some (v, n', rest) ->
  occurs c s -> Py.is_digit c = true \/ c = "_"%char \/ occurs c rest.
Proof.
  induction s as [|x r IH]; intros p acc n v n' rest; simpl; [tauto|].
  destruct (Py.is_digit x) eqn:Hd.
  - intros Hs [->|H]; [tauto | eauto].
  - destruct (Ascii.eqb_spec x "_") as [->|_].
    + destruct p; [discriminate|].
      intros Hs [<-|H]; [tauto | eauto].
    + destruct p; [discriminate|].
      intros Hs. injection Hs as _ _ <-. simpl. tauto.
Qed.

Lemma all_int_space_occurs c s :
  Py.all_int_space s = true -> occurs c s -> Py.int_isspace c = true.
Proof.
  induction s as [|x r IH]; simpl; [tauto|].
  intros H. apply andb_true_iff in H as [Hx Hr].
  intros [->|H]; auto.
Qed.

(** Every character of an accepted literal is white space, a sign, a digit
    or an underscore. *)
Lemma int_ok_occurs s v c :
  Py.int s = Ok v -> occurs c s ->
  Py.int_isspace c = true \/ Py.is_digit c = true
  \/ c = "+"%char \/ c = "-"%char \/ c = "_"%char.
Proof.
  unfold Py.int.
  destruct (Py.int_sign (Py.int_lstrip s)) as [sg s2] eqn:Hsg.
  destruct (Py.startswith s2 "_"); [discriminate|].
  destruct (Py.scan_digits false 0 0 s2) as [[[v' n] rest]|] eqn:Hscan;
    [|discriminate].
  destruct (Nat.eqb n 0 || Nat.ltb Py.int_max_str_digits n
            || negb (Py.all_int_space rest)) eqn:Hc; [discriminate|].
  apply orb_false_iff in Hc as [_ Hrest].
  apply negb_false_iff in Hrest.
  intros _ Hin.
  destruct (int_lstrip_occurs _ _ Hin) as [?|Hin1]; [tauto|].
  destruct (int_sign_occurs _ _ _ _ Hsg Hin1) as [?|[?|Hin2]]; [tauto..|].
  destruct (scan_digits_occurs _ _ _ _ _ _ _ _ Hscan Hin2) as [?|[?|Hin3]];
    [tauto..|].
  left. eapply all_int_space_occurs; eassumption.
Qed.

Lemma int_letter_raises s :
  occurs "a" s -> Py.int s = Raise ValueError.
Proof.
  intros Hin. destruct (Py.int s) as [v|e] eqn:Hi.
  - destruct (int_ok_occurs _ _ _ Hi Hin) as [H|[H|[H|[H|H]]]];
      vm_compute in H; discriminate.
  - revert Hi. unfold Py.int.
    destruct (Py.int_sign _) as [sg s2].
    destruct (Py.startswith s2 "_"); [congruence|].
    destruct (Py.scan_digits _ _ _ _) as [[[v' n] rest]|]; [|congruence].
    destruct (_ || _); congruence.
Qed.

(** ** Trimming keeps what lies between two characters that are not
    white space *)

Lemma is_empty_append_cons x c y :
  Py.is_empty (x ++ String c y) = false.
Proof. destruct x; reflexivity. Qed.

Lemma lstrip_keeps pre c y :
  Py.isspace c = false ->
  exists pre', Py.lstrip (pre ++ String c y) = (pre' ++ String c y)%string.
Proof.
  intros Hc. induction pre as [|x pre IH]; unfold_append.
  - exists EmptyString. simpl. now rewrite Hc.
  - simpl. destruct (Py.isspace x).
    + exact IH.
    + exists (String x pre). reflexivity.
Qed.

Lemma rstrip_keeps x c y :
  Py.isspace c = false ->
  exists y', Py.rstrip (x ++ String c y) = (x ++ String c y')%string.
Proof.
  intros Hc. induction x as [|a x IH]; unfold_append.
  - exists (Py.rstrip y). simpl. now rewrite Hc.
  - destruct IH as [y' IH]. exists y'. simpl. rewrite IH.
    rewrite is_empty_append_cons, andb_false_r. reflexivity.
Qed.

Lemma strip_keeps pre c mid d post :
  Py.isspace c = false -> Py.isspace d = false ->
  exists pre' post',
    Py.strip (pre ++ String c (mid ++ String d post))
    = (pre' ++ String c (mid ++ String d post'))%string.
Proof.
  intros Hc Hd. unfold Py.strip.
  destruct (lstrip_keeps pre c (mid ++ String d post) Hc) as [pre' ->].
  assert ((pre' ++ String c (mid ++ String d post))%string
          = ((pre' ++ String c mid) ++ String d post)%string) as ->
    by (rewrite append_assoc; reflexivity).
  destruct (rstrip_keeps (pre' ++ String c mid) d post Hd) as [post' ->].
  exists pre', post'. rewrite append_assoc. reflexivity.
Qed.

(** What follows the first occurrence of a character ends with what
    follows any occurrence of it. *)
Lemma cut_char_suffix c x y :
  exists a z,
    Py.cut (String c EmptyString) (x ++ String c y) = Some (a, (z ++ y)%string).
Proof.
  induction x as [|b x IH]; unfold_append.
  - exists EmptyString, EmptyString. rewrite cut_cons.
    assert (String.prefix (String c EmptyString) (String c y) = true) as ->
      by (apply prefix_char; eauto).
    reflexivity.
  - rewrite cut_cons.
    destruct (String.prefix (String c EmptyString)
                (String b (x ++ String c y))) eqn:Hp.
    + apply prefix_char in Hp as [r Hr]. injection Hr as -> _.
      exists EmptyString, (x ++ String c EmptyString)%string.
      simpl. rewrite append_assoc. reflexivity.
    + destruct IH as (a & z & ->). eauto.
Qed.

Lemma split_no_sep c s :
  ~ occurs c s -> Py.split c s = [s].
Proof.
  induction s as [|x r IH]; simpl; [reflexivity|].
  intros H. destruct (Ascii.eqb_spec x c) as [->|_]; [tauto|].
  rewrite IH by tauto. reflexivity.
Qed.

(** ** The two matches of the media-type parser *)

Lemma parse_param_bits_needs_literal acc param0 :
  Py.contains "audio/L" (Py.strip param0) = false ->
  bits_per_sample (parse_param acc param0) = bits_per_sample acc.
Proof.
  intros H. unfold parse_param. rewrite H.
  destruct (Py.startswith _ "rate="); [|reflexivity].
  destruct (rbind _ _); reflexivity.
Qed.

(** A segment whose first "L" comes before "audio/L" leaves the bit depth
    as it was. *)
Lemma parse_param_bits_first_L acc pre mid post :
  bits_per_sample
    (parse_param acc (pre ++ "L" ++ mid ++ "audio/L" ++ post))
  = bits_per_sample acc.
Proof.
  assert ((pre ++ "L" ++ mid ++ "audio/L" ++ post)%string
          = (pre ++ String "L" ((mid ++ "audio/") ++ String "L" post))%string)
    as -> by (rewrite append_assoc; reflexivity).
  unfold parse_param.
  destruct (strip_keeps pre "L" (mid ++ "audio/") "L" post eq_refl eq_refl)
    as (pre' & post' & ->).
  destruct (Py.startswith _ "rate=").
  { destruct (rbind _ _); reflexivity. }
  destruct (Py.contains "audio/L" _); [|reflexivity].
  destruct (cut_char_suffix "L" pre' ((mid ++ "audio/") ++ String "L" post'))
    as (a & z & Hcut).
  unfold Py.split1. rewrite Hcut. simpl.
  rewrite int_letter_raises; [reflexivity|].
  rewrite !occurs_append. right. left. right. simpl. tauto.
Qed.

Lemma cut_char_first c a b :
  ~ occurs c a ->
  Py.cut (String c EmptyString) (a ++ String c b) = Some (a, b).
Proof.
  induction a as [|x a IH]; unfold_append; intros Hno; rewrite cut_cons.
  - assert (String.prefix (String c EmptyString) (String c b) = true) as ->
      by (apply prefix_char; eauto).
    reflexivity.
  - destruct (String.prefix (String c EmptyString)
                (String x (a ++ String c b))) eqn:Hp.
    + apply prefix_char in Hp as [r Hr]. injection Hr as -> _.
      simpl in Hno. tauto.
    + rewrite IH; [reflexivity | simpl in Hno; tauto].
Qed.

(** The bit depth is the integer after the first "L" of the segment. *)
Lemma parse_param_bits_after_first_L acc param0 a rest :
  Py.startswith (Py.lower (Py.strip param0)) "rate=" = false ->
  Py.contains "audio/L" (Py.strip param0) = true ->
  Py.strip param0 = (a ++ "L" ++ rest)%string ->
  ~ occurs "L" a ->
  parse_param acc param0
  = match Py.int rest with
    | Ok b => {| bits_per_sample := b; rate := rate acc |}
    | Raise _ => acc
    end.
Proof.
  intros Hr Hc Hs Hno. unfold parse_param. rewrite Hr, Hc, Hs.
  unfold Py.split1.
  change (a ++ "L" ++ rest)%string with (a ++ String "L" rest)%string.
  rewrite (cut_char_first "L" a rest Hno). reflexivity.
Qed.

Ltac lower_char_inversion c :=
  destruct c as [[] [] [] [] [] [] [] []]; vm_compute;
  intros H; try discriminate H; auto.

Lemma lower_char_r c :
  Py.lower_char c = "r"%char -> c = "r"%char \/ c = "R"%char.
Proof. lower_char_inversion c. Qed.

Lemma lower_char_a c :
  Py.lower_char c = "a"%char -> c = "a"%char \/ c = "A"%char.
Proof. lower_char_inversion c. Qed.

Lemma lower_char_t c :
  Py.lower_char c = "t"%char -> c = "t"%char \/ c = "T"%char.
Proof. lower_char_inversion c. Qed.

Lemma lower_char_e c :
  Py.lower_char c = "e"%char -> c = "e"%char \/ c = "E"%char.
Proof. lower_char_inversion c. Qed.

Lemma rate_in_any_case k :
  Py.lower k = "rate" ->
  parse_audio_mime_type (k ++ "=8000")
  = {| bits_per_sample := 16; rate := 8000 |}.
Proof.
  destruct k as [|c1 [|c2 [|c3 [|c4 [|c5 k]]]]]; simpl; try discriminate.
  intros H. injection H as H1 H2 H3 H4.
  apply lower_char_r in H1. apply lower_char_a in H2.
  apply lower_char_t in H3. apply lower_char_e in H4.
  destruct H1 as [-> | ->], H2 as [-> | ->], H3 as [-> | ->],
    H4 as [-> | ->]; vm_compute; reflexivity.
Qed.

(** C10. The bit-depth match needs the literal "audio/L" in that very
    case, the rate match takes "rate=" in any case: "AUDIO/L24;RATE=8000"
    gives 16 bits (the default) at 8000 Hz.  The bit depth is the integer
    that follows the first "L" of the segment, so a segment in which
    another "L" comes before "audio/L" leaves the bit depth as it was, the
    default when the segment is the whole media type. *)
Theorem parse_audio_mime_type_case :
  parse_audio_mime_type "AUDIO/L24;RATE=8000"
    = {| bits_per_sample := 16; rate := 8000 |}
  /\ (forall k, Py.lower k = "rate" ->
        parse_audio_mime_type (k ++ "=8000")
        = {| bits_per_sample := 16; rate := 8000 |})
  /\ (forall acc param0,
        Py.contains "audio/L" (Py.strip param0) = false ->
        bits_per_sample (parse_param acc param0) = bits_per_sample acc)
  /\ parse_audio_mime_type "audio/l24" = default_params
  /\ (forall acc param0 a rest,
        Py.startswith (Py.lower (Py.strip param0)) "rate=" = false ->
        Py.contains "audio/L" (Py.strip param0) = true ->
        Py.strip param0 = (a ++ "L" ++ rest)%string ->
        ~ occurs "L" a ->
        parse_param acc param0
        = match Py.int rest with
          | Ok b => {| bits_per_sample := b; rate := rate acc |}
          | Raise _ => acc
          end)
  /\ (forall acc pre mid post,
        bits_per_sample
          (parse_param acc (pre ++ "L" ++ mid ++ "audio/L" ++ post))
        = bits_per_sample acc)
  /\ (forall pre mid post,
        ~ occurs ";" (pre ++ "L" ++ mid ++ "audio/L" ++ post) ->
        bits_per_sample
          (parse_audio_mime_type (pre ++ "L" ++ mid ++ "audio/L" ++ post))
        = 16).
Proof.
  split; [vm_compute; reflexivity|].
  split; [exact rate_in_any_case|].
  split; [exact parse_param_bits_needs_literal|].
  split; [vm_compute; reflexivity|].
  split; [exact parse_param_bits_after_first_L|].
  split; [exact parse_param_bits_first_L|].
  intros pre mid post Hno. unfold parse_audio_mime_type.
  rewrite (split_no_sep _ _ Hno). simpl.
  apply parse_param_bits_first_L.
Qed.

Lemma parse_audio_mime_type_case_witness :
  (Py.lower "RaTe" = "rate"
   /\ parse_audio_mime_type ("RaTe" ++ "=8000")
      = {| bits_per_sample := 16; rate := 8000 |})
  /\ (~ occurs ";" ("x-" ++ "L" ++ "P/" ++ "audio/L" ++ "24")
      /\ bits_per_sample
           (parse_audio_mime_type ("x-" ++ "L" ++ "P/" ++ "audio/L" ++ "24"))
         = 16).
Proof.
  split; split.
  - reflexivity.
  - apply (proj1 (proj2 parse_audio_mime_type_case)). reflexivity.
  - vm_compute. intuition discriminate.
  - apply (proj2 (proj2 (proj2 (proj2 (proj2
             (proj2 parse_audio_mime_type_case)))))).
    vm_compute. intuition discriminate.
Defined.

(** ** The WAV encoder *)

Lemma Z_of_byte_of_Z z : Z_of_byte (byte_of_Z z) = z mod 256.
Proof.
  unfold Z_of_byte, byte_of_Z.
  assert (0 <= z mod 256 < 256) as Hm by (apply Z.mod_pos_bound; lia).
  set (n := Z.to_N (z mod 256)).
  assert (n < 256)%N as Hn by (unfold n; lia).
  assert (Byte.to_N (byte_of_ascii (ascii_of_N n)) = N_of_ascii (ascii_of_N n))
    as -> by (apply Byte.to_of_N; symmetry; apply byte_of_ascii_via_N).
  rewrite (N_ascii_embedding n Hn). unfold n. lia.
Qed.

Lemma length_le_bytes n z : List.length (le_bytes n z) = n.
Proof. revert z. induction n as [|n IH]; intros z; simpl; [|rewrite IH]; reflexivity. Qed.

(** Reading little-endian bytes back gives the value that was written. *)
Lemma le_value_le_bytes n z :
  0 <= z < 256 ^ Z.of_nat n -> le_value (le_bytes n z) = z.
Proof.
  revert z. induction n as [|n IH]; intros z Hz.
  - simpl in *. change (256 ^ Z.of_nat 0) with 1 in Hz. lia.
  - change (le_value (le_bytes (S n) z))
      with (Z_of_byte (byte_of_Z z) + 256 * le_value (le_bytes n (z / 256))).
    rewrite Z_of_byte_of_Z.
    rewrite Nat2Z.inj_succ, Z.pow_succ_r in Hz by lia.
    rewrite IH.
    + pose proof (Z.div_mod z 256). lia.
    + split; [apply Z.div_pos; lia | apply Z.div_lt_upper_bound; lia].
Qed.

Lemma pack_uint_in_range width z :
  0 <= z < 2 ^ (8 * Z.of_nat width) ->
  pack_uint width z = Ok (le_bytes width z).
Proof.
  intros [H0 H1]. unfold pack_uint.
  apply Z.leb_le in H0. apply Z.ltb_lt in H1. now rewrite H0, H1.
Qed.

Lemma pack_uint_out_of_range width z :
  z < 0 \/ 2 ^ (8 * Z.of_nat width) <= z ->
  pack_uint width z = Raise StructError.
Proof.
  intros H. unfold pack_uint.
  destruct (Z.leb_spec 0 z), (Z.ltb_spec z (2 ^ (8 * Z.of_nat width)));
    simpl; try reflexivity; lia.
Qed.

#[local] Arguments le_value : simpl never.

(** The header the encoder builds, field after field. *)
Lemma read_wav_layout cs sr br ba bits ds (payload : list byte) :
  0 <= cs < 2 ^ 32 -> 0 <= sr < 2 ^ 32 -> 0 <= br < 2 ^ 32 ->
  0 <= ba < 2 ^ 16 -> 0 <= bits < 2 ^ 16 -> 0 <= ds < 2 ^ 32 ->
  read_wav (wav_header_bytes cs sr br ba bits ds ++ payload)%list
  = Some ({| chunkSize := cs; subchunkSize := 16; audioFormat := 1;
             numChannels := 1; sampleRate := sr; byteRate := br;
             blockAlign := ba; bitsPerSample := bits; dataSize := ds |},
          payload).
Proof.
  intros Hcs Hsr Hbr Hba Hbits Hds.
  unfold read_wav, tag_at, uint_at, slice, wav_header_bytes. simpl.
  change (firstn 0 payload) with (@nil byte).
  change (skipn 0 payload) with payload.
  change [byte_of_Z cs; byte_of_Z (cs / 256); byte_of_Z (cs / 256 / 256);
          byte_of_Z (cs / 256 / 256 / 256)] with (le_bytes 4 cs).
  change [byte_of_Z sr; byte_of_Z (sr / 256); byte_of_Z (sr / 256 / 256);
          byte_of_Z (sr / 256 / 256 / 256)] with (le_bytes 4 sr).
  change [byte_of_Z br; byte_of_Z (br / 256); byte_of_Z (br / 256 / 256);
          byte_of_Z (br / 256 / 256 / 256)] with (le_bytes 4 br).
  change [byte_of_Z ds; byte_of_Z (ds / 256); byte_of_Z (ds / 256 / 256);
          byte_of_Z (ds / 256 / 256 / 256)] with (le_bytes 4 ds).
  change [byte_of_Z ba; byte_of_Z (ba / 256)] with (le_bytes 2 ba).
  change [byte_of_Z bits; byte_of_Z (bits / 256)] with (le_bytes 2 bits).
  change [byte_of_Z 16; byte_of_Z (16 / 256); byte_of_Z (16 / 256 / 256);
          byte_of_Z (16 / 256 / 256 / 256)] with (le_bytes 4 16).
  change [byte_of_Z 1; byte_of_Z (1 / 256)] with (le_bytes 2 1).
  rewrite !le_value_le_bytes by (simpl Z.of_nat; lia).
  reflexivity.
Qed.

Lemma length_wav_header_bytes cs sr br ba bits ds :
  List.length (wav_header_bytes cs sr br ba bits ds) = 44%nat.
Proof. reflexivity. Qed.

Lemma convert_to_wav_in_range audio_data mime_type :
  let bits := bits_per_sample (parse_audio_mime_type mime_type) in
  let sr := rate (parse_audio_mime_type mime_type) in
  let n := Z.of_nat (List.length audio_data) in
  0 <= bits < 2 ^ 16 -> 0 <= sr < 2 ^ 32 ->
  sr * (bits / 8) < 2 ^ 32 -> 36 + n < 2 ^ 32 ->
  convert_to_wav audio_data mime_type
  = Ok (wav_header_bytes (36 + n) sr (sr * (1 * (bits / 8)))
          (1 * (bits / 8)) bits n ++ audio_data)%list.
Proof.
  intros bits sr n Hbits Hsr Hbr Hn.
  assert (0 <= bits / 8 < 2 ^ 16) as Hba.
  { split; [apply Z.div_pos; lia|].
    apply Z.div_lt_upper_bound; lia. }
  assert (0 <= sr * (bits / 8)) as Hbr0 by (apply Z.mul_nonneg_nonneg; lia).
  unfold convert_to_wav. fold bits sr n.
  unfold struct_pack, pack_field.
  rewrite !pack_uint_in_range by lia.
  unfold wav_header_bytes. simpl. reflexivity.
Qed.

(** C4. When the parsed bit depth is a multiple of 8 and every value fits
    the width of its field, convert_to_wav returns 44 header bytes followed
    by the payload as it came; read back at the canonical offsets the
    header holds RIFF, chunkSize = 36 + len(payload), WAVE, "fmt ",
    subchunkSize = 16, audioFormat = 1, numChannels = 1, the sample rate,
    byteRate = sampleRate * blockAlign, blockAlign = 1 * (bits / 8), the
    bit depth, data and dataSize = len(payload).  Ten bytes at 16 bits and
    24000 Hz give chunkSize 46, dataSize 10, byteRate 48000 and
    blockAlign 2. *)
Theorem convert_to_wav_layout :
  (forall audio_data mime_type,
     let bits := bits_per_sample (parse_audio_mime_type mime_type) in
     let sr := rate (parse_audio_mime_type mime_type) in
     let n := Z.of_nat (List.length audio_data) in
     bits mod 8 = 0 ->
     0 <= bits < 2 ^ 16 -> 0 <= sr < 2 ^ 32 ->
     sr * (bits / 8) < 2 ^ 32 -> 36 + n < 2 ^ 32 ->
     exists header,
       convert_to_wav audio_data mime_type = Ok (header ++ audio_data)%list
       /\ List.length header = 44%nat
       /\ tag_at 0 header = "RIFF" /\ tag_at 8 header = "WAVE"
       /\ tag_at 12 header = "fmt " /\ tag_at 36 header = "data"
       /\ read_wav (header ++ audio_data)%list
          = Some ({| chunkSize := 36 + n;
                     subchunkSize := 16;
                     audioFormat := 1;
                     numChannels := 1;
                     sampleRate := sr;
                     byteRate := sr * (1 * (bits / 8));
                     blockAlign := 1 * (bits / 8);
                     bitsPerSample := bits;
                     dataSize := n |}, audio_data)
       /\ 8 * (1 * (bits / 8)) = bits)
  /\ (forall audio_data,
        List.length audio_data = 10%nat ->
        exists header,
          convert_to_wav audio_data "audio/L16;rate=24000"
          = Ok (header ++ audio_data)%list
          /\ List.length header = 44%nat
          /\ read_wav (header ++ audio_data)%list
             = Some ({| chunkSize := 46;
                        subchunkSize := 16;
                        audioFormat := 1;
                        numChannels := 1;
                        sampleRate := 24000;
                        byteRate := 48000;
                        blockAlign := 2;
                        bitsPerSample := 16;
                        dataSize := 10 |}, audio_data)).
Proof.
  split.
  - intros audio_data mime_type bits sr n Hmod Hbits Hsr Hbr Hn.
    assert (0 <= bits / 8 < 2 ^ 16) as Hba.
    { split; [apply Z.div_pos; lia|].
      apply Z.div_lt_upper_bound; lia. }
    assert (0 <= sr * (bits / 8)) as Hbr0
      by (apply Z.mul_nonneg_nonneg; lia).
    exists (wav_header_bytes (36 + n) sr (sr * (1 * (bits / 8)))
              (1 * (bits / 8)) bits n).
    split; [apply convert_to_wav_in_range; assumption|].
    split; [reflexivity|].
    repeat (split; [reflexivity|]).
    split; [apply read_wav_layout; lia|].
    pose proof (Z.div_mod bits 8). lia.
  - intros audio_data Hlen.
    exists (wav_header_bytes 46 24000 48000 2 16 10).
    pose proof (convert_to_wav_in_range audio_data "audio/L16;rate=24000")
      as H.
    change (parse_audio_mime_type "audio/L16;rate=24000")
      with {| bits_per_sample := 16; rate := 24000 |} in H.
    simpl in H. rewrite Hlen in H.
    split; [apply H; vm_compute; intuition discriminate|].
    split; [reflexivity|].
    apply read_wav_layout; lia.
Qed.

Lemma convert_to_wav_layout_witness :
  exists header,
    convert_to_wav [x01; x02; x03; x04] "audio/L24;rate=8000"
    = Ok (header ++ [x01; x02; x03; x04])%list
    /\ List.length header = 44%nat
    /\ tag_at 0 header = "RIFF" /\ tag_at 8 header = "WAVE"
    /\ tag_at 12 header = "fmt " /\ tag_at 36 header = "data"
    /\ read_wav (header ++ [x01; x02; x03; x04])%list
       = Some ({| chunkSize := 36 + 4;
                  subchunkSize := 16;
                  audioFormat := 1;
                  numChannels := 1;
                  sampleRate := 8000;
                  byteRate := 8000 * (1 * (24 / 8));
                  blockAlign := 1 * (24 / 8);
                  bitsPerSample := 24;
                  dataSize := 4 |}, [x01; x02; x03; x04])
    /\ 8 * (1 * (24 / 8)) = 24.
Proof.
  apply (proj1 convert_to_wav_layout [x01; x02; x03; x04]
           "audio/L24;rate=8000");
    vm_compute; intuition discriminate.
Defined.
(** ** The loop over the stream *)

Lemma write_paths_app tr1 tr2 :
  write_paths (tr1 ++ tr2) = (write_paths tr1 ++ write_paths tr2)%list.
Proof.
  induction tr1 as [|e tr1 IH]; [reflexivity|].
  destruct e; simpl; rewrite IH; reflexivity.
Qed.

Lemma stream_loop_cons w file_name chunk rest st :
  stream_loop w file_name (chunk :: rest) st
  = match process_chunk w file_name chunk st with
    | (Ok _, st') => stream_loop w file_name rest st'
    | (Raise e, st') => (Raise e, st')
    end.
Proof. reflexivity. Qed.

(** The shapes a chunk can have, as the guard of the loop tells them
    apart. *)
Lemma chunk_shape chunk :
  (candidates chunk = None \/ candidates chunk = Some []
   \/ exists candidate cs content0,
        candidates chunk = Some (candidate :: cs)
        /\ content candidate = Some content0
        /\ (parts content0 = None \/ parts content0 = Some []))
  \/ (exists candidate cs,
        candidates chunk = Some (candidate :: cs)
        /\ content candidate = None)
  \/ (exists part, first_part chunk = Some part).
Proof.
  unfold first_part.
  destruct (candidates chunk) as [[|candidate cs]|]; [tauto| |tauto].
  destruct (content candidate) as [content0|] eqn:Hc; [|right; left; eauto].
  destruct (parts content0) as [[|part ps]|] eqn:Hp.
  - left. right. right. eauto 7.
  - right. right. eauto.
  - left. right. right. eauto 7.
Qed.

(** A chunk without candidates, or whose first candidate has a content
    without parts, is passed over. *)
Lemma process_chunk_skipped w file_name chunk st :
  candidates chunk = None \/ candidates chunk = Some []
  \/ (exists candidate cs content0,
        candidates chunk = Some (candidate :: cs)
        /\ content candidate = Some content0
        /\ (parts content0 = None \/ parts content0 = Some [])) ->
  process_chunk w file_name chunk st = (Ok tt, st).
Proof.
  unfold process_chunk.
  intros [-> | [-> | (candidate & cs & content0 & -> & -> & [-> | ->])]];
    reflexivity.
Qed.

(** A first candidate without content: the guard of the loop raises. *)
Lemma process_chunk_no_content w file_name chunk candidate cs st :
  candidates chunk = Some (candidate :: cs) ->
  content candidate = None ->
  process_chunk w file_name chunk st = (Raise AttributeError, st).
Proof. unfold process_chunk. intros -> ->. reflexivity. Qed.

(** The loop body once the guard is passed. *)
Lemma process_chunk_first_part w file_name chunk part :
  first_part chunk = Some part ->
  process_chunk w file_name chunk
  = match inline_data part with
    | Some inline_data =>
        let mime := blob_mime_type inline_data in
        data_buffer <-
          (if negb (String.eqb mime "audio/wav") then
             print OutConverting ;;;
             lift (convert_to_wav (blob_data inline_data) mime)
           else ret (blob_data inline_data)) ;;
        save_binary_file w (file_name ++ file_extension_of w mime)
          data_buffer
    | None => print (OutChunkText (chunk_text chunk))
    end.
Proof.
  unfold first_part, process_chunk.
  destruct (candidates chunk) as [[|candidate cs]|]; try discriminate.
  destruct (content candidate) as [content0|]; try discriminate.
  destruct (parts content0) as [[|p ps]|]; try discriminate.
  intros H. injection H as ->. reflexivity.
Qed.

(** A first part without inline data: the text of the chunk is printed. *)
Lemma process_chunk_text w file_name chunk part st :
  first_part chunk = Some part ->
  inline_data part = None ->
  process_chunk w file_name chunk st
  = (Ok tt, {| trace := trace st ++ [Printed (OutChunkText (chunk_text chunk))];
               files := files st |}).
Proof.
  intros Hp Hi. rewrite (process_chunk_first_part _ _ _ _ Hp), Hi.
  reflexivity.
Qed.

(** Sending [data] to [path], by what the file system makes of it. *)
Lemma save_binary_file_outcome w path data st :
  save_binary_file w path data st
  = match write_file w (trace st) path data with
    | Written =>
        (Ok tt, {| trace := trace st ++ [Wrote path data;
                                         Printed (OutSaved path)];
                   files := <[path := data]> (files st) |})
    | OpenRaises e => (Raise e, st)
    | WriteRaises kept e =>
        (Raise e, {| trace := trace st ++ [Wrote path kept];
                     files := <[path := kept]> (files st) |})
    end.
Proof.
  unfold save_binary_file, bind, print, emit.
  destruct (write_file w (trace st) path data); simpl; [|reflexivity..].
  rewrite <- app_assoc. reflexivity.
Qed.

(** Inline data tagged "audio/wav" goes to the file as it is. *)
Lemma process_chunk_wav w file_name chunk b st :
  chunk_blob chunk = Some b ->
  blob_mime_type b = "audio/wav" ->
  process_chunk w file_name chunk st
  = save_binary_file w (file_name ++ file_extension_of w "audio/wav")
      (blob_data b) st.
Proof.
  unfold chunk_blob. destruct (first_part chunk) as [part|] eqn:Hp;
    [|discriminate].
  intros Hi Hm. rewrite (process_chunk_first_part _ _ _ _ Hp), Hi.
  cbv zeta. rewrite Hm. reflexivity.
Qed.

(** Inline data of any other media type is converted first. *)
Lemma process_chunk_other w file_name chunk b st :
  chunk_blob chunk = Some b ->
  blob_mime_type b <> "audio/wav" ->
  process_chunk w file_name chunk st
  = match convert_to_wav (blob_data b) (blob_mime_type b) with
    | Ok wav =>
        save_binary_file w
          (file_name ++ file_extension_of w (blob_mime_type b)) wav
          {| trace := trace st ++ [Printed OutConverting];
             files := files st |}
    | Raise e =>
        (Raise e, {| trace := trace st ++ [Printed OutConverting];
                     files := files st |})
    end.
Proof.
  unfold chunk_blob. destruct (first_part chunk) as [part|] eqn:Hp;
    [|discriminate].
  intros Hi Hm. rewrite (process_chunk_first_part _ _ _ _ Hp), Hi.
  cbv zeta. apply String.eqb_neq in Hm. rewrite Hm.
  unfold bind, print, emit, lift. simpl.
  destruct (convert_to_wav _ _); reflexivity.
Qed.

(** C9, amended.  A chunk with no candidates, or whose first candidate has
    a content without parts, is skipped; a chunk whose first part has no
    binary payload has its text printed and writes nothing; a binary chunk
    tagged "audio/wav" has its bytes written to the destination unchanged,
    and a binary chunk of any other media type is first converted by
    convert_to_wav and the converted bytes are written (the loop stops
    there when the conversion raises), in both cases when the file system
    takes the write; when it does not, its error ends the loop, no file
    being touched if the destination could not be opened.  The stream
    Text "hello", Binary pcm "audio/L16;rate=24000" writes exactly one
    file, which holds the WAV-wrapped pcm, when the file system takes the
    write. *)
Theorem process_chunk_dispatch :
  (forall w file_name chunk st,
     candidates chunk = None \/ candidates chunk = Some []
     \/ (exists candidate cs content0,
           candidates chunk = Some (candidate :: cs)
           /\ content candidate = Some content0
           /\ (parts content0 = None \/ parts content0 = Some [])) ->
     process_chunk w file_name chunk st = (Ok tt, st))
  /\ (forall w file_name chunk part st,
        first_part chunk = Some part ->
        inline_data part = None ->
        process_chunk w file_name chunk st
        = (Ok tt,
           {| trace := trace st ++ [Printed (OutChunkText (chunk_text chunk))];
              files := files st |}))
  /\ (forall w file_name chunk b st,
        chunk_blob chunk = Some b ->
        blob_mime_type b = "audio/wav" ->
        let path := (file_name ++ file_extension_of w "audio/wav")%string in
        write_file w (trace st) path (blob_data b) = Written ->
        process_chunk w file_name chunk st
        = (Ok tt,
           {| trace := trace st ++ [Wrote path (blob_data b);
                                    Printed (OutSaved path)];
              files := <[path := blob_data b]> (files st) |}))
  /\ (forall w file_name chunk b st,
        chunk_blob chunk = Some b ->
        blob_mime_type b <> "audio/wav" ->
        let path :=
          (file_name ++ file_extension_of w (blob_mime_type b))%string in
        (forall wav,
           convert_to_wav (blob_data b) (blob_mime_type b) = Ok wav ->
           write_file w (trace st ++ [Printed OutConverting])%list path wav
           = Written ->
           process_chunk w file_name chunk st
           = (Ok tt,
              {| trace := trace st ++ [Printed OutConverting;
                                       Wrote path wav;
                                       Printed (OutSaved path)];
                 files := <[path := wav]> (files st) |}))
        /\ (forall e,
              convert_to_wav (blob_data b) (blob_mime_type b) = Raise e ->
              process_chunk w file_name chunk st
              = (Raise e,
                 {| trace := trace st ++ [Printed OutConverting];
                    files := files st |})))
  /\ (forall w file_name chunk b bytes st,
        chunk_blob chunk = Some b ->
        bytes_to_write b = Ok bytes ->
        let path :=
          (file_name ++ file_extension_of w (blob_mime_type b))%string in
        let before :=
          if String.eqb (blob_mime_type b) "audio/wav" then trace st
          else (trace st ++ [Printed OutConverting])%list in
        let out := process_chunk w file_name chunk st in
        (forall e,
           write_file w before path bytes = OpenRaises e ->
           fst out = Raise e /\ trace (snd out) = before
           /\ files (snd out) = files st)
        /\ (forall kept e,
              write_file w before path bytes = WriteRaises kept e ->
              fst out = Raise e
              /\ trace (snd out) = (before ++ [Wrote path kept])%list
              /\ files (snd out) = <[path := kept]> (files st)))
  /\ (forall w file_name pcmBytes,
        36 + Z.of_nat (List.length pcmBytes) < 2 ^ 32 ->
        let path :=
          (file_name ++ file_extension_of w "audio/L16;rate=24000")%string in
        let wav :=
          (wav_header_bytes (36 + Z.of_nat (List.length pcmBytes)) 24000
             48000 2 16 (Z.of_nat (List.length pcmBytes)) ++ pcmBytes)%list in
        write_file w [Printed (OutChunkText (Some "hello"));
                      Printed OutConverting] path wav = Written ->
        stream_loop w file_name
          [Text "hello"; Binary pcmBytes "audio/L16;rate=24000"] initial_state
        = (Ok tt,
           {| trace := [Printed (OutChunkText (Some "hello"));
                        Printed OutConverting;
                        Wrote path wav;
                        Printed (OutSaved path)];
              files := {[path := wav]} |})
        /\ read_wav wav
           = Some ({| chunkSize := 36 + Z.of_nat (List.length pcmBytes);
                      subchunkSize := 16;
                      audioFormat := 1;
                      numChannels := 1;
                      sampleRate := 24000;
                      byteRate := 48000;
                      blockAlign := 2;
                      bitsPerSample := 16;
                      dataSize := Z.of_nat (List.length pcmBytes) |},
                   pcmBytes)).
Proof.
  split; [exact process_chunk_skipped|].
  split; [exact process_chunk_text|].
  split; [|split; [|split]].
  - intros w file_name chunk b st Hb Hm path Hw.
    rewrite (process_chunk_wav _ _ _ _ _ Hb Hm), save_binary_file_outcome.
    fold path. rewrite Hw. reflexivity.
  - intros w file_name chunk b st Hb Hm path. split.
    + intros wav Hc Hw.
      rewrite (process_chunk_other _ _ _ _ _ Hb Hm), Hc,
        save_binary_file_outcome.
      fold path. cbn [trace files]. rewrite Hw, <- app_assoc. reflexivity.
    + intros e Hc. rewrite (process_chunk_other _ _ _ _ _ Hb Hm), Hc.
      reflexivity.
  - intros w file_name chunk b bytes st Hb. unfold bytes_to_write.
    destruct (String.eqb_spec (blob_mime_type b) "audio/wav") as [Hm|Hm].
    + intros Hbytes. injection Hbytes as <-. cbv zeta.
      rewrite (process_chunk_wav _ _ _ _ _ Hb Hm), save_binary_file_outcome,
        Hm.
      split; [intros e Hw | intros kept e Hw]; rewrite Hw; auto.
    + intros Hc. cbv zeta.
      rewrite (process_chunk_other _ _ _ _ _ Hb Hm), Hc,
        save_binary_file_outcome.
      cbn [trace files].
      split; [intros e Hw | intros kept e Hw]; rewrite Hw; auto.
  - intros w file_name pcmBytes Hn path wav Hw. split.
    + rewrite stream_loop_cons.
      rewrite (process_chunk_text w file_name (Text "hello")
                 {| inline_data := None |}) by reflexivity.
      rewrite stream_loop_cons.
      rewrite (process_chunk_other w file_name
                 (Binary pcmBytes "audio/L16;rate=24000")
                 {| blob_data := pcmBytes;
                    blob_mime_type := "audio/L16;rate=24000" |})
        by (reflexivity || discriminate).
      cbn [blob_data blob_mime_type].
      pose proof (convert_to_wav_in_range pcmBytes "audio/L16;rate=24000")
        as H.
      change (parse_audio_mime_type "audio/L16;rate=24000")
        with {| bits_per_sample := 16; rate := 24000 |} in H.
      cbn [bits_per_sample rate] in H.
      rewrite H by (try lia; vm_compute; intuition discriminate).
      rewrite save_binary_file_outcome. fold path. fold wav.
      cbn [trace files initial_state app chunk_text Text one_part].
      match goal with
      | |- context [write_file w ?tr path ?x] => change x with wav
      end.
      rewrite Hw. reflexivity.
    + apply read_wav_layout; lia.
Qed.

Lemma process_chunk_dispatch_witness :
  (let path := ("out" ++ file_extension_of bare_world "audio/wav")%string in
   write_file bare_world (trace initial_state) path [x01; x02] = Written
   /\ process_chunk bare_world "out" (Binary [x01; x02] "audio/wav")
        initial_state
      = (Ok tt,
         {| trace := trace initial_state
                     ++ [Wrote path [x01; x02]; Printed (OutSaved path)];
            files := <[path := [x01; x02]]> (files initial_state) |}))
  /\ process_chunk bare_world "out"
       {| candidates := Some [ {| content := Some {| parts := None |} |} ];
          chunk_text := None |}
       initial_state
     = (Ok tt, initial_state).
Proof.
  split.
  - cbv zeta. split; [reflexivity|].
    apply (proj1 (proj2 (proj2 process_chunk_dispatch)) bare_world "out"
             (Binary [x01; x02] "audio/wav")
             {| blob_data := [x01; x02]; blob_mime_type := "audio/wav" |}
             initial_state); reflexivity.
  - apply (proj1 process_chunk_dispatch). right. right.
    exists {| content := Some {| parts := None |} |}, [],
      {| parts := None |}.
    split; [reflexivity|]. split; [reflexivity|]. left. reflexivity.
Defined.

(** C9, as stated, fails.  Where the destination cannot be opened, the
    stream of the claim's example writes no file: the error of the file
    system ends the loop, and a binary chunk tagged "audio/wav" fares no
    better.  And a chunk whose first candidate has no content, hence no
    parts, is not skipped: the guard of the loop raises AttributeError. *)
Lemma process_chunk_not_always_written :
  (let out := stream_loop missing_directory_world "nodir/out"
                [Text "hello"; Binary [x01; x02] "audio/L16;rate=24000"]
                initial_state in
   fst out = Raise OSError
   /\ files (snd out) = ∅
   /\ write_paths (trace (snd out)) = [])
  /\ (let out := process_chunk missing_directory_world "nodir/out"
                   (Binary [x01; x02] "audio/wav") initial_state in
      fst out = Raise OSError /\ files (snd out) = ∅)
  /\ first_part Contentless = None
  /\ process_chunk bare_world "out" Contentless initial_state
     = (Raise AttributeError, initial_state).
Proof.
  cbv zeta. repeat split; vm_compute; reflexivity.
Qed.
(** ** Where the loop writes *)

(** The effect of one round, by the payload of the chunk and by what the
    file system makes of the write. *)
Lemma process_chunk_effect w file_name chunk st :
  let out := process_chunk w file_name chunk st in
  match chunk_blob chunk with
  | None =>
      fst out = (if has_content chunk then Ok tt else Raise AttributeError)
      /\ files (snd out) = files st
      /\ exists evs, trace (snd out) = (trace st ++ evs)%list
                     /\ write_paths evs = [] /\ forallb is_local evs = true
  | Some b =>
      let path :=
        (file_name ++ file_extension_of w (blob_mime_type b))%string in
      has_content chunk = true
      /\ match bytes_to_write b with
         | Raise e =>
             fst out = Raise e /\ files (snd out) = files st
             /\ exists evs, trace (snd out) = (trace st ++ evs)%list
                            /\ write_paths evs = []
                            /\ forallb is_local evs = true
         | Ok bytes =>
             exists evs0,
               write_paths evs0 = [] /\ forallb is_local evs0 = true
               /\ match write_file w (trace st ++ evs0) path bytes with
                  | Written =>
                      out = (Ok tt,
                             {| trace := trace st ++ evs0
                                         ++ [Wrote path bytes;
                                             Printed (OutSaved path)];
                                files := <[path := bytes]> (files st) |})
                  | OpenRaises e =>
                      out = (Raise e, {| trace := trace st ++ evs0;
                                         files := files st |})
                  | WriteRaises kept e =>
                      out = (Raise e,
                             {| trace := trace st ++ evs0
                                         ++ [Wrote path kept];
                                files := <[path := kept]> (files st) |})
                  end
         end
  end.
Proof.
  cbv zeta.
  destruct (chunk_shape chunk)
    as [Hskip|[(candidate & cs & Hc & Hn)|[part Hp]]].
  - rewrite (process_chunk_skipped _ _ _ _ Hskip).
    assert (first_part chunk = None /\ has_content chunk = true) as [Hf Hh].
    { unfold first_part, has_content.
      destruct Hskip as [->|[->|(candidate & cs & content0 & -> & -> & H)]];
        [auto..|].
      destruct H as [->| ->]; auto. }
    unfold chunk_blob. rewrite Hf, Hh. simpl.
    repeat split. exists []. now rewrite app_nil_r.
  - rewrite (process_chunk_no_content _ _ _ _ _ _ Hc Hn).
    unfold chunk_blob, first_part, has_content. rewrite Hc, Hn. simpl.
    repeat split. exists []. now rewrite app_nil_r.
  - assert (has_content chunk = true) as Hh.
    { revert Hp. unfold first_part, has_content.
      destruct (candidates chunk) as [[|candidate cs]|]; try discriminate.
      destruct (content candidate); [reflexivity | discriminate]. }
    unfold chunk_blob. rewrite Hp.
    destruct (inline_data part) as [b|] eqn:Hi.
    + assert (chunk_blob chunk = Some b) as Hb
        by (unfold chunk_blob; now rewrite Hp).
      split; [exact Hh|]. unfold bytes_to_write.
      destruct (String.eqb_spec (blob_mime_type b) "audio/wav") as [Hm|Hm].
      * exists []. split; [reflexivity|]. split; [reflexivity|].
        rewrite (process_chunk_wav _ _ _ _ _ Hb Hm),
          save_binary_file_outcome, Hm, app_nil_r.
        destruct (write_file _ _ _ _); [reflexivity| |reflexivity].
        destruct st; reflexivity.
      * rewrite (process_chunk_other _ _ _ _ _ Hb Hm).
        destruct (convert_to_wav _ _) as [wav|e].
        -- exists [Printed OutConverting].
           split; [reflexivity|]. split; [reflexivity|].
           rewrite save_binary_file_outcome. cbn [trace files].
           destruct (write_file _ _ _ _); rewrite <- ?app_assoc;
             reflexivity.
        -- simpl. repeat split. eexists. repeat split; reflexivity.
    + rewrite (process_chunk_text _ _ _ _ _ Hp Hi), Hh. simpl.
      repeat split. eexists. repeat split; reflexivity.
Qed.

(** What one round adds: console lines and writes to the destination of
    its payload only; a round that ends well leaves the converted payload
    there. *)
Lemma process_chunk_frame w file_name chunk st :
  let out := process_chunk w file_name chunk st in
  exists evs,
    trace (snd out) = (trace st ++ evs)%list
    /\ forallb is_local evs = true
    /\ (forall p, In p (write_paths evs) ->
          exists b, chunk_blob chunk = Some b
                    /\ p = (file_name
                            ++ file_extension_of w (blob_mime_type b))%string)
    /\ (forall p,
          (forall b, chunk_blob chunk = Some b ->
                     p <> (file_name
                           ++ file_extension_of w (blob_mime_type b))%string)
          -> files (snd out) !! p = files st !! p)
    /\ (fst out = Ok tt ->
        match chunk_blob chunk with
        | Some b =>
            exists bytes,
              bytes_to_write b = Ok bytes
              /\ files (snd out)
                 = <[(file_name ++ file_extension_of w (blob_mime_type b))
                     %string := bytes]> (files st)
        | None => files (snd out) = files st
        end).
Proof.
  pose proof (process_chunk_effect w file_name chunk st) as H.
  cbv zeta in *.
  destruct (chunk_blob chunk) as [b|].
  - destruct H as [_ H].
    destruct (bytes_to_write b) as [bytes|e].
    + destruct H as (evs0 & Hw0 & Hl0 & H).
      destruct (write_file _ _ _ _) as [|e|kept e]; rewrite H; cbn [fst snd trace files].
      * exists (evs0 ++ [Wrote (file_name
                                ++ file_extension_of w (blob_mime_type b))
                           bytes;
                         Printed (OutSaved
                                    (file_name
                                     ++ file_extension_of w
                                          (blob_mime_type b)))])%list.
        split; [reflexivity|]. split; [|split; [|split]].
        -- rewrite forallb_app, Hl0. reflexivity.
        -- intros p. rewrite write_paths_app, Hw0. simpl.
           intros [<-|[]]. eauto.
        -- intros p Hp. apply lookup_insert_ne.
           intros E. now apply (Hp b eq_refl).
        -- intros _. eauto.
      * exists evs0. split; [reflexivity|]. split; [exact Hl0|].
        split; [|split].
        -- intros p. rewrite Hw0. intros [].
        -- reflexivity.
        -- discriminate.
      * exists (evs0 ++ [Wrote (file_name
                                ++ file_extension_of w (blob_mime_type b))
                           kept])%list.
        split; [reflexivity|]. split; [|split; [|split]].
        -- rewrite forallb_app, Hl0. reflexivity.
        -- intros p. rewrite write_paths_app, Hw0. simpl.
           intros [<-|[]]. eauto.
        -- intros p Hp. apply lookup_insert_ne.
           intros E. now apply (Hp b eq_refl).
        -- discriminate.
    + destruct H as (Hr & Hf & evs & Ht & Hw & Hl).
      exists evs. split; [exact Ht|]. split; [exact Hl|]. split; [|split].
      * intros p. rewrite Hw. intros [].
      * intros p _. now rewrite Hf.
      * rewrite Hr. discriminate.
  - destruct H as (Hr & Hf & evs & Ht & Hw & Hl).
    exists evs. split; [exact Ht|]. split; [exact Hl|]. split; [|split].
    + intros p. rewrite Hw. intros [].
    + intros p _. now rewrite Hf.
    + intros _. exact Hf.
Qed.

Lemma last_blob_cons chunk rest :
  last_blob (chunk :: rest)
  = match last_blob rest with
    | Some b => Some b
    | None => chunk_blob chunk
    end.
Proof. reflexivity. Qed.

(** C3, amended.  Every write of the loop goes to the file name followed
    by the extension of that chunk's media type (".wav" when the table
    knows none).  So when every binary chunk of a finite stream has a media
    type of the same extension, all writes target one path, no other file
    is touched, and after a run that reaches the end of the stream that
    file holds what was written for the most recent binary chunk: its bytes
    for "audio/wav", the converted bytes otherwise. *)
Theorem stream_loop_one_extension w file_name ext chunks : forall st,
  Forall (fun chunk => forall b, chunk_blob chunk = Some b ->
                       file_extension_of w (blob_mime_type b) = ext) chunks ->
  let out := stream_loop w file_name chunks st in
  let path := (file_name ++ ext)%string in
  (exists evs, trace (snd out) = (trace st ++ evs)%list
               /\ forall p, In p (write_paths evs) -> p = path)
  /\ (forall p, p <> path -> files (snd out) !! p = files st !! p)
  /\ (fst out = Ok tt ->
      match last_blob chunks with
      | Some b => exists bytes, bytes_to_write b = Ok bytes
                                /\ files (snd out) !! path = Some bytes
      | None => files (snd out) = files st
      end).
Proof.
  induction chunks as [|chunk rest IH]; intros st Hall.
  - simpl. split; [|split].
    + exists []. rewrite app_nil_r. split; [reflexivity | intros p []].
    + reflexivity.
    + reflexivity.
  - apply Forall_cons_iff in Hall as [Hext Hrest].
    cbv zeta. rewrite stream_loop_cons, last_blob_cons.
    pose proof (process_chunk_frame w file_name chunk st) as Hfr.
    cbv zeta in Hfr.
    destruct (process_chunk w file_name chunk st) as [r st1] eqn:Hpc.
    simpl in Hfr.
    assert (exists evs1,
               trace st1 = (trace st ++ evs1)%list
               /\ (forall p, In p (write_paths evs1) ->
                             p = (file_name ++ ext)%string)
               /\ (forall p, p <> (file_name ++ ext)%string ->
                             files st1 !! p = files st !! p)
               /\ (r = Ok tt ->
                   match chunk_blob chunk with
                   | Some b => exists bytes,
                       bytes_to_write b = Ok bytes
                       /\ files st1 !! (file_name ++ ext)%string = Some bytes
                   | None => files st1 = files st
                   end)) as (evs1 & Htr1 & Hw1 & Hother1 & Hlast1).
    { destruct Hfr as (evs & Ht & _ & Hw & Hother & Hok).
      exists evs. split; [exact Ht|]. split; [|split].
      - intros p Hp. destruct (Hw p Hp) as (b & Hb & ->).
        now rewrite (Hext b Hb).
      - intros p Hp. apply Hother. intros b Hb.
        now rewrite (Hext b Hb).
      - intros Hr. specialize (Hok Hr).
        destruct (chunk_blob chunk) as [b|]; [|exact Hok].
        destruct Hok as (bytes & Hbw & Hf). exists bytes.
        split; [exact Hbw|].
        rewrite Hf, (Hext b eq_refl). apply lookup_insert_eq. }
    destruct r as [[]|e].
    + specialize (IH st1 Hrest). cbv zeta in IH.
      destruct IH as ((evs2 & Htr2 & Hw2) & Hother2 & Hlast2).
      split; [|split].
      * exists (evs1 ++ evs2)%list. rewrite Htr2, Htr1, app_assoc.
        split; [reflexivity|].
        intros p. rewrite write_paths_app, in_app_iff. intuition.
      * intros p Hp. rewrite Hother2, Hother1 by assumption. reflexivity.
      * intros Hok. specialize (Hlast2 Hok). specialize (Hlast1 eq_refl).
        destruct (last_blob rest) as [b|]; [exact Hlast2|].
        destruct (chunk_blob chunk) as [b|].
        -- destruct Hlast1 as (bytes & Hbw & Hf). exists bytes.
           split; [exact Hbw|]. now rewrite Hlast2.
        -- now rewrite Hlast2.
    + simpl. split; [|split].
      * exists evs1. split; assumption.
      * exact Hother1.
      * discriminate.
Qed.

Lemma stream_loop_one_extension_witness :
  let chunks := [Binary [x01] "audio/wav"; Text "note";
                 Binary [x02; x03] "audio/L16;rate=24000"] in
  Forall (fun chunk => forall b, chunk_blob chunk = Some b ->
            file_extension_of bare_world (blob_mime_type b) = ".wav") chunks
  /\ (let out := stream_loop bare_world "out" chunks initial_state in
      let path := ("out" ++ ".wav")%string in
      (exists evs, trace (snd out) = (trace initial_state ++ evs)%list
                   /\ forall p, In p (write_paths evs) -> p = path)
      /\ (forall p, p <> path ->
                    files (snd out) !! p = files initial_state !! p)
      /\ (fst out = Ok tt ->
          match last_blob chunks with
          | Some b => exists bytes, bytes_to_write b = Ok bytes
                                    /\ files (snd out) !! path = Some bytes
          | None => files (snd out) = files initial_state
          end)).
Proof.
  assert (Forall (fun chunk => forall b, chunk_blob chunk = Some b ->
            file_extension_of bare_world (blob_mime_type b) = ".wav")
            [Binary [x01] "audio/wav"; Text "note";
             Binary [x02; x03] "audio/L16;rate=24000"]) as Hall.
  { repeat constructor; intros b H; vm_compute in H;
      try discriminate H; injection H as <-; reflexivity. }
  split; [exact Hall|].
  exact (stream_loop_one_extension bare_world "out" ".wav" _ initial_state
           Hall).
Defined.

(** C3, as stated, fails: with the usual table "audio/mpeg" has the
    extension ".mp3" and "audio/wav" has none, so a stream of one chunk of
    each kind writes "out.wav" and then "out.mp3", and both files exist
    after the run. *)
Lemma stream_loop_two_destinations :
  let st' := snd (stream_loop bare_world "out"
                    [Binary [x01] "audio/wav"; Binary [x02] "audio/mpeg"]
                    initial_state) in
  write_paths (trace st') = ["out.wav"; "out.mp3"]
  /\ ~ single_destination (trace st')
  /\ files st' !! "out.wav" = Some [x01]
  /\ is_some (files st' !! "out.mp3") = true
  /\ size (files st') = 2%nat.
Proof.
  cbv zeta.
  assert (write_paths
            (trace (snd (stream_loop bare_world "out"
                           [Binary [x01] "audio/wav";
                            Binary [x02] "audio/mpeg"] initial_state)))
          = ["out.wav"; "out.mp3"]) as Hpaths by (vm_compute; reflexivity).
  split; [exact Hpaths|]. split; [|repeat split; vm_compute; reflexivity].
  unfold single_destination. rewrite Hpaths. intros H.
  discriminate (H "out.wav" "out.mp3" (or_introl eq_refl)
                  (or_intror (or_introl eq_refl))).
Qed.

(** ** The run on a missing script *)

(** With the credential set and no file at the given path, the run prints
    the welcome line and the error, calls no service, writes nothing and
    ends by falling off the end of the script. *)
Lemma run_missing_script w input_file output :
  truthy (api_key w) = true ->
  Py.is_empty input_file = false ->
  isfile w input_file = false ->
  run w input_file output
  = (0, {| trace := [Printed OutWelcome;
                     Printed (OutFileNotFound input_file)];
           files := ∅ |}).
Proof.
  intros Hkey Hpath Hfile.
  unfold run, main, generate, bind, print, emit, ret. simpl.
  rewrite Hkey, Hpath. simpl. rewrite Hfile. reflexivity.
Qed.

Lemma run_missing_key w input_file output :
  truthy (api_key w) = false ->
  run w input_file output
  = (1, {| trace := [Printed OutWelcome; Printed OutNoApiKey;
                     Printed OutSetApiKey];
           files := ∅ |}).
Proof.
  intros Hkey.
  unfold run, main, bind, print, emit, raise. simpl.
  rewrite Hkey. reflexivity.
Qed.

(** C2, on the code.  For a script path that names no file the run reports
    the error and calls neither service, but its exit status is 0, not the
    non-zero status the claim asks for; the missing credential, next to
    it, ends the run with status 1. *)
Theorem missing_script_exit_status :
  run bare_world "missing.txt" None
  = (0, {| trace := [Printed OutWelcome;
                     Printed (OutFileNotFound "missing.txt")];
           files := ∅ |})
  /\ service_calls (trace (snd (run bare_world "missing.txt" None))) = []
  /\ fst (run keyless_world "missing.txt" None) = 1.
Proof.
  split; [|split].
  - apply run_missing_script; reflexivity.
  - rewrite run_missing_script by reflexivity. reflexivity.
  - rewrite run_missing_key by reflexivity. reflexivity.
Qed.

(** ** Voice selection: the same voice for both speakers *)

(** C1, on the code.  The catalog has 30 voices of both genders, yet a
    response that names "Puck" for both speakers gives both of them
    "Puck"; so does a response that names "Puck", the default of the
    first speaker, for the second speaker only. *)
Theorem same_voice_for_both_speakers :
  List.length get_available_voices = 30%nat
  /\ select_voices_for_speakers
       (answering ("Alice: Puck" ++ LF ++ "Bob: Puck")) "model" "script"
       "Alice" "Bob"
     = Ok (<["Bob" := "Puck"]> (<["Alice" := "Puck"]> ∅))
  /\ select_voices_for_speakers
       (answering "Bob: Puck") "model" "script" "Alice" "Bob"
     = Ok (<["Bob" := "Puck"]> (<["Alice" := "Puck"]> ∅)).
Proof. repeat split; vm_compute; reflexivity. Qed.

(** ** Voice selection *)

Lemma prefix_occurs c p : forall s,
  String.prefix p s = true -> occurs c p -> occurs c s.
Proof.
  induction p as [|a p IH]; intros s; [intros _ []|].
  destruct s as [|b s]; simpl; [discriminate|].
  destruct (ascii_dec a b) as [->|_]; [|discriminate].
  intros Hp [->|Hin]; [tauto | eauto].
Qed.

Lemma lower_char_colon c : Py.lower_char c = ":"%char -> c = ":"%char.
Proof. lower_char_inversion c. Qed.

Lemma occurs_lower_colon s : occurs ":" (Py.lower s) -> occurs ":" s.
Proof.
  induction s as [|x r IH]; simpl; [tauto|].
  intros [H|H]; [left; now apply lower_char_colon | auto].
Qed.

(** A line that carries a speaker's prefix has a colon. *)
Lemma has_prefix_colon speaker_name line :
  has_prefix speaker_name line = true -> occurs ":" line.
Proof.
  unfold has_prefix, Py.startswith. intros H.
  apply occurs_lower_colon. eapply prefix_occurs; [exact H|].
  apply occurs_append. right. simpl. tauto.
Qed.

Lemma index_nth_error x l i :
  Py.index x l = Ok i -> nth_error l i = Some x.
Proof.
  revert i. induction l as [|y t IH]; intros i; simpl; [discriminate|].
  destruct (String.eqb_spec y x) as [->|_].
  - intros H. injection H as <-. reflexivity.
  - destruct (Py.index x t) as [j|e]; simpl; [|discriminate].
    intros H. injection H as <-. simpl. now apply IH.
Qed.

Lemma mem_index x l :
  Py.mem x l = true -> exists i, Py.index x l = Ok i.
Proof.
  unfold Py.mem. induction l as [|y t IH]; simpl; [discriminate|].
  destruct (String.eqb_spec y x) as [->|Hne]; [eauto|].
  rewrite (proj2 (String.eqb_neq x y)) by congruence. simpl.
  intros H. destruct (IH H) as [i ->]. simpl. eauto.
Qed.

Section Catalog.

Variable available_voices : list voice.

(** The look-up of a voice raises nothing once the line has a colon. *)
Lemma resolve_voice_total line :
  occurs ":" line -> exists r, resolve_voice available_voices line = Ok r.
Proof.
  intros Hc. unfold resolve_voice, Py.split1.
  destruct (cut_char_occurs _ _ Hc) as (a & b & ->). simpl.
  destruct (Py.mem _ (voice_names_lower available_voices)) eqn:Hm; [|eauto].
  destruct (mem_index _ _ Hm) as [i Hi]. rewrite Hi. simpl.
  apply index_nth_error in Hi.
  unfold Py.item.
  destruct (nth_error (voice_names available_voices) i) as [v|] eqn:Hv; simpl; [eauto|].
  exfalso. apply nth_error_None in Hv.
  assert (nth_error (voice_names_lower available_voices) i <> None) as Hn by congruence.
  apply nth_error_Some in Hn.
  unfold voice_names_lower in Hn. rewrite length_map in Hn. lia.
Qed.

(** A resolved voice is a catalog name, equal case apart to what the line
    says after its first colon. *)
Lemma resolve_voice_canonical line v :
  named_on available_voices line = Some v ->
  In v (voice_names available_voices)
  /\ exists rest, Py.item (Py.split1 ":" line) 1 = Ok rest
                  /\ Py.lower v = Py.lower (Py.strip rest).
Proof.
  unfold named_on, resolve_voice.
  destruct (Py.item (Py.split1 ":" line) 1) as [rest|e]; simpl;
    [|discriminate].
  destruct (Py.mem _ (voice_names_lower available_voices)); [|discriminate].
  destruct (Py.index _ (voice_names_lower available_voices)) as [i|e] eqn:Hi; simpl; [|discriminate].
  unfold Py.item.
  destruct (nth_error (voice_names available_voices) i) as [v'|] eqn:Hv; simpl; [|discriminate].
  intros H. injection H as <-.
  split; [eapply nth_error_In; eassumption|].
  exists rest. split; [reflexivity|].
  apply index_nth_error in Hi. unfold voice_names_lower in Hi.
  rewrite nth_error_map, Hv in Hi. simpl in Hi. congruence.
Qed.

Section TwoSpeakers.

Variables speaker1_name speaker2_name : string.

Lemma parse_line_unresolved sv line :
  named_on available_voices line = None ->
  parse_line available_voices speaker1_name speaker2_name sv line = Ok sv.
Proof.
  intros Hn. unfold parse_line. fold (has_prefix speaker1_name line).
  fold (has_prefix speaker2_name line). unfold named_on in Hn.
  destruct (has_prefix speaker1_name line) eqn:H1.
  - destruct (resolve_voice_total line (has_prefix_colon _ _ H1)) as [r Hr].
    rewrite Hr in *. destruct r; [discriminate | reflexivity].
  - destruct (has_prefix speaker2_name line) eqn:H2; [|reflexivity].
    destruct (resolve_voice_total line (has_prefix_colon _ _ H2)) as [r Hr].
    rewrite Hr in *. destruct r; [discriminate | reflexivity].
Qed.

Lemma parse_lines_unresolved lines : forall sv,
  forallb (fun line => negb (is_some (named_on available_voices line))) lines
    = true ->
  parse_lines available_voices speaker1_name speaker2_name sv lines = Ok sv.
Proof.
  induction lines as [|line rest IH]; intros sv H; simpl in *;
    [reflexivity|].
  apply andb_true_iff in H as [Hl Hr].
  rewrite parse_line_unresolved.
  - simpl. now apply IH.
  - destruct (named_on available_voices line); [discriminate | reflexivity].
Qed.

(** What the defaults give when the response settled nothing. *)
Lemma select_voices_from_unresolved text0 m0 ms f0 fs :
  no_line_resolves available_voices text0 = true ->
  male_voices available_voices = m0 :: ms ->
  female_voices available_voices = f0 :: fs ->
  gender_of available_voices m0 = "Male" ->
  select_voices_from available_voices text0 speaker1_name speaker2_name
  = Ok (if decide (speaker1_name = speaker2_name)
        then <[speaker1_name := m0]> ∅
        else <[speaker2_name := f0]> (<[speaker1_name := m0]> ∅)).
Proof.
  intros Hno Hm Hf Hg. unfold select_voices_from.
  fold (response_lines text0).
  rewrite parse_lines_unresolved by exact Hno. simpl.
  unfold fill_speaker1. rewrite lookup_empty, Hm. simpl.
  unfold fill_speaker2.
  destruct (decide (speaker1_name = speaker2_name)) as [<-|Hne].
  - rewrite lookup_insert_eq. reflexivity.
  - rewrite lookup_insert_ne by assumption. rewrite lookup_empty.
    unfold getitem. rewrite lookup_insert_eq. simpl.
    rewrite Hg, Hf. reflexivity.
Qed.

End TwoSpeakers.

(** In a catalog without two entries of one name, the first male voice is
    found male and differs from the first female voice. *)
Lemma find_by_name v :
  List.NoDup (map vname available_voices) -> In v available_voices ->
  find (fun v' => String.eqb (vname v') (vname v)) available_voices = Some v.
Proof.
  induction available_voices as [|u l IH]; simpl; [tauto|].
  intros Hnd Hin. apply NoDup_cons_iff in Hnd as [Hu Hl].
  destruct (String.eqb_spec (vname u) (vname v)) as [He|Hne].
  - destruct Hin as [->|Hin]; [reflexivity|].
    exfalso. apply Hu. rewrite He. now apply in_map.
  - destruct Hin as [->|Hin]; [congruence | auto].
Qed.

Lemma first_of_gender g n ns :
  map vname (List.filter (fun v => String.eqb (vgender v) g) available_voices)
    = n :: ns ->
  exists v, In v available_voices /\ vname v = n /\ vgender v = g.
Proof.
  intros H.
  assert (In n (map vname (List.filter
                             (fun v => String.eqb (vgender v) g)
                             available_voices))) as Hin
    by (rewrite H; left; reflexivity).
  apply in_map_iff in Hin as (v & Hv & Hin).
  apply filter_In in Hin as [Hin Hg].
  apply String.eqb_eq in Hg. eauto.
Qed.

End Catalog.

Lemma first_male_is_male available_voices m0 ms :
  List.NoDup (map vname available_voices) ->
  male_voices available_voices = m0 :: ms ->
  gender_of available_voices m0 = "Male".
Proof.
  intros Hnd Hm. unfold male_voices in Hm.
  destruct (first_of_gender _ _ _ _ Hm) as (v & Hin & <- & Hg).
  unfold gender_of. rewrite (find_by_name _ v Hnd Hin). exact Hg.
Qed.

Lemma first_male_differs available_voices m0 ms f0 fs :
  List.NoDup (map vname available_voices) ->
  male_voices available_voices = m0 :: ms ->
  female_voices available_voices = f0 :: fs ->
  m0 <> f0.
Proof.
  intros Hnd Hm Hf He. unfold male_voices in Hm. unfold female_voices in Hf.
  destruct (first_of_gender _ _ _ _ Hm) as (v & Hin & Hn & Hg).
  destruct (first_of_gender _ _ _ _ Hf) as (u & Hin' & Hn' & Hg').
  pose proof (find_by_name _ v Hnd Hin) as Hv.
  pose proof (find_by_name _ u Hnd Hin') as Hu.
  rewrite Hn in Hv. rewrite Hn', <- He in Hu.
  rewrite Hv in Hu. injection Hu as ->. rewrite Hg in Hg'. discriminate.
Qed.

Lemma catalog_names_unique : List.NoDup (map vname get_available_voices).
Proof.
  assert (nodup string_dec (map vname get_available_voices)
          = map vname get_available_voices) as <-
    by (vm_compute; reflexivity).
  apply NoDup_nodup.
Qed.

(** C7. When no line of the response resolves to a catalog voice (the
    empty response is one such), the mapping is still populated for both
    speaker names: the first male voice for the first speaker, the first
    female voice for the second, which differ in every catalog that has a
    voice of each gender and no two entries of one name; in the deployed
    catalog these are Puck and Zephyr.  Two such responses give the very
    same result for the same speakers and catalog. *)
Theorem fallback_populated_and_deterministic :
  (forall available_voices text speaker1_name speaker2_name,
     no_line_resolves available_voices text = true ->
     List.NoDup (map vname available_voices) ->
     male_voices available_voices <> [] ->
     female_voices available_voices <> [] ->
     exists sv v1 v2,
       select_voices_from available_voices text speaker1_name speaker2_name
       = Ok sv
       /\ sv !! speaker1_name = Some v1 /\ sv !! speaker2_name = Some v2
       /\ In v1 (voice_names available_voices)
       /\ In v2 (voice_names available_voices)
       /\ (speaker1_name <> speaker2_name -> v1 <> v2))
  /\ (forall text speaker1_name speaker2_name model prompt,
        no_line_resolves get_available_voices text = true ->
        select_voices_for_speakers (answering text) model prompt
          speaker1_name speaker2_name
        = Ok (if decide (speaker1_name = speaker2_name)
              then <[speaker1_name := "Puck"]> ∅
              else <[speaker2_name := "Zephyr"]>
                     (<[speaker1_name := "Puck"]> ∅)))
  /\ (forall available_voices text text' speaker1_name speaker2_name,
        no_line_resolves available_voices text = true ->
        no_line_resolves available_voices text' = true ->
        select_voices_from available_voices text speaker1_name speaker2_name
        = select_voices_from available_voices text'
            speaker1_name speaker2_name)
  /\ (forall available_voices,
        no_line_resolves available_voices EmptyString = true).
Proof.
  split; [|split; [|split]].
  - intros cat text s1 s2 Hno Hnd Hm Hf.
    destruct (male_voices cat) as [|m0 ms] eqn:Em; [congruence|].
    destruct (female_voices cat) as [|f0 fs] eqn:Ef; [congruence|].
    pose proof (first_male_is_male _ _ _ Hnd Em) as Hg.
    rewrite (select_voices_from_unresolved cat s1 s2 text m0 ms f0 fs)
      by assumption.
    assert (In m0 (voice_names cat)) as Hin1.
    { unfold male_voices in Em.
      destruct (first_of_gender _ _ _ _ Em) as (v & Hin & <- & _).
      now apply in_map. }
    assert (In f0 (voice_names cat)) as Hin2.
    { unfold female_voices in Ef.
      destruct (first_of_gender _ _ _ _ Ef) as (v & Hin & <- & _).
      now apply in_map. }
    destruct (decide (s1 = s2)) as [<-|Hne].
    + exists (<[s1 := m0]> ∅), m0, m0.
      rewrite lookup_insert_eq. repeat split; auto; congruence.
    + exists (<[s2 := f0]> (<[s1 := m0]> ∅)), m0, f0.
      rewrite lookup_insert_eq, lookup_insert_ne, lookup_insert_eq
        by congruence.
      repeat split; auto.
      intros _. eapply first_male_differs; eassumption.
  - intros text s1 s2 model prompt Hno.
    unfold select_voices_for_speakers, answering. simpl.
    assert (male_voices get_available_voices
            = "Puck" :: tl (male_voices get_available_voices)) as Hm
      by (vm_compute; reflexivity).
    assert (female_voices get_available_voices
            = "Zephyr" :: tl (female_voices get_available_voices)) as Hf
      by (vm_compute; reflexivity).
    assert (gender_of get_available_voices "Puck" = "Male") as Hg
      by (vm_compute; reflexivity).
    exact (select_voices_from_unresolved get_available_voices s1 s2 text
             "Puck" _ "Zephyr" _ Hno Hm Hf Hg).
  - intros cat text text' s1 s2 Hno Hno'.
    unfold select_voices_from. fold (response_lines text).
    fold (response_lines text').
    rewrite !parse_lines_unresolved by assumption. reflexivity.
  - intros cat. reflexivity.
Qed.

Lemma fallback_populated_and_deterministic_witness :
  no_line_resolves get_available_voices ("Alice: Nobody" ++ LF ++ "hm") = true
  /\ List.NoDup (map vname get_available_voices)
  /\ male_voices get_available_voices <> []
  /\ female_voices get_available_voices <> []
  /\ exists sv v1 v2,
       select_voices_from get_available_voices
         ("Alice: Nobody" ++ LF ++ "hm") "Alice" "Bob" = Ok sv
       /\ sv !! "Alice" = Some v1 /\ sv !! "Bob" = Some v2
       /\ In v1 (voice_names get_available_voices)
       /\ In v2 (voice_names get_available_voices)
       /\ ("Alice" <> "Bob" -> v1 <> v2).
Proof.
  assert (no_line_resolves get_available_voices
            ("Alice: Nobody" ++ LF ++ "hm") = true) as H1
    by (vm_compute; reflexivity).
  assert (male_voices get_available_voices <> []) as H3
    by (vm_compute; discriminate).
  assert (female_voices get_available_voices <> []) as H4
    by (vm_compute; discriminate).
  split; [exact H1|]. split; [exact catalog_names_unique|].
  split; [exact H3|]. split; [exact H4|].
  exact (proj1 fallback_populated_and_deterministic get_available_voices
           ("Alice: Nobody" ++ LF ++ "hm") "Alice" "Bob"
           H1 catalog_names_unique H3 H4).
Defined.

(** ** Voice selection: following the response *)

Lemma forallb_cons_true {A : Type} (f : A -> bool) x l :
  forallb f (x :: l) = true -> f x = true /\ forallb f l = true.
Proof. simpl. intros H. now apply andb_true_iff in H. Qed.

Section Followed.

Variable available_voices : list voice.
Variables speaker1_name speaker2_name v1 v2 : string.
Hypothesis speakers_differ : speaker1_name <> speaker2_name.

(** One round of the parser on a line that respects the three conditions:
    at most one insertion, of the voice meant for the speaker. *)
Lemma parse_line_named sv line :
  line_not_shared speaker1_name speaker2_name line = true ->
  line_names_only available_voices speaker1_name v1 line = true ->
  line_names_only available_voices speaker2_name v2 line = true ->
  parse_line available_voices speaker1_name speaker2_name sv line
  = Ok (if line_names available_voices speaker1_name v1 line
        then <[speaker1_name := v1]> sv
        else if line_names available_voices speaker2_name v2 line
             then <[speaker2_name := v2]> sv
             else sv).
Proof.
  unfold line_not_shared, line_names_only, line_names, parse_line, named_on.
  fold (has_prefix speaker1_name line). fold (has_prefix speaker2_name line).
  destruct (has_prefix speaker1_name line) eqn:H1.
  - destruct (resolve_voice_total available_voices line
                (has_prefix_colon _ _ H1)) as [r ->].
    destruct (has_prefix speaker2_name line); [discriminate|].
    simpl. intros _ Hv _.
    destruct r as [v|]; [|reflexivity].
    rewrite Hv. apply String.eqb_eq in Hv. now subst.
  - destruct (has_prefix speaker2_name line) eqn:H2; [|reflexivity].
    destruct (resolve_voice_total available_voices line
                (has_prefix_colon _ _ H2)) as [r ->].
    simpl. intros _ _ Hv.
    destruct r as [v|]; [|reflexivity].
    rewrite Hv. apply String.eqb_eq in Hv. now subst.
Qed.

Lemma parse_lines_named lines : forall sv,
  forallb (line_not_shared speaker1_name speaker2_name) lines = true ->
  forallb (line_names_only available_voices speaker1_name v1) lines = true ->
  forallb (line_names_only available_voices speaker2_name v2) lines = true ->
  parse_lines available_voices speaker1_name speaker2_name sv lines
  = Ok ((if existsb (line_names available_voices speaker2_name v2) lines
         then <[speaker2_name := v2]> else id)
          ((if existsb (line_names available_voices speaker1_name v1) lines
            then <[speaker1_name := v1]> else id) sv)).
Proof.
  induction lines as [|line rest IH]; intros sv Hs H1 H2; [reflexivity|].
  apply forallb_cons_true in Hs as [Hs Hs'].
  apply forallb_cons_true in H1 as [H1 H1'].
  apply forallb_cons_true in H2 as [H2 H2'].
  cbn [parse_lines existsb].
  rewrite (parse_line_named sv line Hs H1 H2). cbn [rbind].
  assert (line_names available_voices speaker1_name v1 line
          && line_names available_voices speaker2_name v2 line = false)
    as Hboth.
  { unfold line_not_shared in Hs. unfold line_names.
    destruct (has_prefix speaker1_name line),
      (has_prefix speaker2_name line); simpl in *;
      try discriminate; rewrite ?andb_false_r; reflexivity. }
  destruct (line_names available_voices speaker1_name v1 line),
    (line_names available_voices speaker2_name v2 line);
    try discriminate Hboth; cbn [orb]; rewrite (IH _ Hs' H1' H2');
    destruct (existsb (line_names available_voices speaker1_name v1) rest),
      (existsb (line_names available_voices speaker2_name v2) rest);
    unfold id; f_equal;
    rewrite ?insert_insert_eq; try reflexivity.
  - rewrite (insert_insert_ne _ speaker1_name speaker2_name) by assumption.
    now rewrite insert_insert_eq.
  - now rewrite (insert_insert_ne _ speaker1_name speaker2_name)
      by assumption.
Qed.

(** A response that names one voice for each speaker, on lines that carry
    one prefix only, is followed. *)
Lemma select_voices_from_named text0 :
  no_shared_line text0 speaker1_name speaker2_name = true ->
  names_voice available_voices text0 speaker1_name v1 = true ->
  names_only available_voices text0 speaker1_name v1 = true ->
  names_voice available_voices text0 speaker2_name v2 = true ->
  names_only available_voices text0 speaker2_name v2 = true ->
  select_voices_from available_voices text0 speaker1_name speaker2_name
  = Ok (<[speaker2_name := v2]> (<[speaker1_name := v1]> ∅)).
Proof.
  unfold no_shared_line, names_voice, names_only, select_voices_from.
  fold (response_lines text0).
  intros Hs He1 Ho1 He2 Ho2.
  rewrite (parse_lines_named _ _ Hs Ho1 Ho2), He1, He2. simpl.
  unfold fill_speaker1.
  rewrite lookup_insert_ne, lookup_insert_eq by congruence. simpl.
  unfold fill_speaker2. rewrite lookup_insert_eq. reflexivity.
Qed.

End Followed.

Lemma shared_line_same_speaker text0 speaker_name v available_voices :
  names_voice available_voices text0 speaker_name v = true ->
  no_shared_line text0 speaker_name speaker_name = false.
Proof.
  unfold names_voice, no_shared_line.
  induction (response_lines text0) as [|line rest IH]; simpl;
    [discriminate|].
  intros H. apply orb_true_iff in H as [H|H].
  - unfold line_names in H. apply andb_true_iff in H as [H _].
    unfold line_not_shared. now rewrite H.
  - rewrite (IH H). apply andb_false_r.
Qed.

(** Two colon-free names followed by a colon head one text only when they
    are the same name. *)
Lemma colon_prefix_unique a : forall b s,
  String.prefix (a ++ ":") s = true ->
  String.prefix (b ++ ":") s = true ->
  ~ occurs ":" a -> ~ occurs ":" b -> a = b.
Proof.
  induction a as [|x a IH]; intros [|y b] [|z s];
    rewrite ?append_nil, ?append_cons; cbn [String.prefix];
    try discriminate.
  - reflexivity.
  - destruct (ascii_dec ":" z) as [<-|_]; [|discriminate].
    destruct (ascii_dec y ":") as [->|_]; [|discriminate].
    intros _ _ _ H. exfalso. apply H. left. reflexivity.
  - destruct (ascii_dec x z) as [<-|_]; [|discriminate].
    destruct (ascii_dec ":" x) as [<-|_]; [|discriminate].
    intros _ _ H _. exfalso. apply H. left. reflexivity.
  - destruct (ascii_dec x z) as [<-|_]; [|discriminate].
    destruct (ascii_dec y x) as [->|_]; [|discriminate].
    intros Ha Hb Hna Hnb. f_equal.
    apply (IH b s); try assumption; intros Hc; [apply Hna | apply Hnb];
      right; exact Hc.
Qed.

(** Names without colon that differ even with case set aside share no
    line. *)
Lemma names_share_no_line speaker1_name speaker2_name text0 :
  ~ occurs ":" speaker1_name -> ~ occurs ":" speaker2_name ->
  Py.lower speaker1_name <> Py.lower speaker2_name ->
  no_shared_line text0 speaker1_name speaker2_name = true.
Proof.
  intros H1 H2 Hne. unfold no_shared_line. apply forallb_forall.
  intros line _. unfold line_not_shared, has_prefix, Py.startswith.
  destruct (String.prefix (Py.lower speaker1_name ++ ":") (Py.lower line))
    eqn:Hp1; [|reflexivity].
  destruct (String.prefix (Py.lower speaker2_name ++ ":") (Py.lower line))
    eqn:Hp2; [|reflexivity].
  exfalso. apply Hne.
  apply (colon_prefix_unique _ _ _ Hp1 Hp2);
    intros Hc; apply occurs_lower_colon in Hc; tauto.
Qed.

(** C8, amended.  When no line of the response carries the prefix of both
    speakers (so it is for names without colon that differ even with case
    set aside), some line with the first speaker's prefix names the catalog
    voice v1 and no such line names another catalog voice, and likewise v2
    for the second speaker, the mapping assigns exactly v1 and v2.  A named
    voice is the catalog's own spelling of what the line says, case apart,
    after its first colon. *)
Theorem well_formed_response_followed :
  (forall available_voices text speaker1_name speaker2_name v1 v2,
     no_shared_line text speaker1_name speaker2_name = true ->
     names_voice available_voices text speaker1_name v1 = true ->
     names_only available_voices text speaker1_name v1 = true ->
     names_voice available_voices text speaker2_name v2 = true ->
     names_only available_voices text speaker2_name v2 = true ->
     select_voices_from available_voices text speaker1_name speaker2_name
     = Ok (<[speaker2_name := v2]> (<[speaker1_name := v1]> ∅)))
  /\ (forall text speaker1_name speaker2_name v1 v2 model prompt,
        no_shared_line text speaker1_name speaker2_name = true ->
        names_voice get_available_voices text speaker1_name v1 = true ->
        names_only get_available_voices text speaker1_name v1 = true ->
        names_voice get_available_voices text speaker2_name v2 = true ->
        names_only get_available_voices text speaker2_name v2 = true ->
        select_voices_for_speakers (answering text) model prompt
          speaker1_name speaker2_name
        = Ok (<[speaker2_name := v2]> (<[speaker1_name := v1]> ∅)))
  /\ (forall speaker1_name speaker2_name text,
        ~ occurs ":" speaker1_name -> ~ occurs ":" speaker2_name ->
        Py.lower speaker1_name <> Py.lower speaker2_name ->
        no_shared_line text speaker1_name speaker2_name = true)
  /\ (forall available_voices line v,
        named_on available_voices line = Some v ->
        In v (voice_names available_voices)
        /\ exists rest, Py.item (Py.split1 ":" line) 1 = Ok rest
                        /\ Py.lower v = Py.lower (Py.strip rest))
  /\ select_voices_for_speakers
       (answering ("alice: kORE " ++ LF ++ "BOB:zephyr")) "model" "script"
       "Alice" "Bob"
     = Ok (<["Bob" := "Zephyr"]> (<["Alice" := "Kore"]> ∅)).
Proof.
  assert (forall available_voices text speaker1_name speaker2_name v1 v2,
     no_shared_line text speaker1_name speaker2_name = true ->
     names_voice available_voices text speaker1_name v1 = true ->
     names_only available_voices text speaker1_name v1 = true ->
     names_voice available_voices text speaker2_name v2 = true ->
     names_only available_voices text speaker2_name v2 = true ->
     select_voices_from available_voices text speaker1_name speaker2_name
     = Ok (<[speaker2_name := v2]> (<[speaker1_name := v1]> ∅))) as Hgen.
  { intros cat text s1 s2 v1 v2 Hs He1 Ho1 He2 Ho2.
    apply select_voices_from_named; try assumption.
    intros ->.
    rewrite (shared_line_same_speaker _ _ _ _ He2) in Hs. discriminate. }
  split; [exact Hgen|]. split; [|split; [|split; [|vm_compute; reflexivity]]].
  - intros text s1 s2 v1 v2 model prompt Hs He1 Ho1 He2 Ho2.
    unfold select_voices_for_speakers, answering. simpl.
    now apply Hgen.
  - exact names_share_no_line.
  - exact resolve_voice_canonical.
Qed.

Lemma well_formed_response_followed_witness :
  let text := ("alice: kORE " ++ LF ++ "Note: none" ++ LF ++ "BOB:zephyr")
              %string in
  no_shared_line text "Alice" "Bob" = true
  /\ names_voice get_available_voices text "Alice" "Kore" = true
  /\ names_only get_available_voices text "Alice" "Kore" = true
  /\ names_voice get_available_voices text "Bob" "Zephyr" = true
  /\ names_only get_available_voices text "Bob" "Zephyr" = true
  /\ select_voices_from get_available_voices text "Alice" "Bob"
     = Ok (<["Bob" := "Zephyr"]> (<["Alice" := "Kore"]> ∅)).
Proof.
  cbv zeta.
  assert (no_shared_line
            ("alice: kORE " ++ LF ++ "Note: none" ++ LF ++ "BOB:zephyr")
            "Alice" "Bob" = true) as H0 by (vm_compute; reflexivity).
  assert (names_voice get_available_voices
            ("alice: kORE " ++ LF ++ "Note: none" ++ LF ++ "BOB:zephyr")
            "Alice" "Kore" = true) as H1 by (vm_compute; reflexivity).
  assert (names_only get_available_voices
            ("alice: kORE " ++ LF ++ "Note: none" ++ LF ++ "BOB:zephyr")
            "Alice" "Kore" = true) as H2 by (vm_compute; reflexivity).
  assert (names_voice get_available_voices
            ("alice: kORE " ++ LF ++ "Note: none" ++ LF ++ "BOB:zephyr")
            "Bob" "Zephyr" = true) as H3 by (vm_compute; reflexivity).
  assert (names_only get_available_voices
            ("alice: kORE " ++ LF ++ "Note: none" ++ LF ++ "BOB:zephyr")
            "Bob" "Zephyr" = true) as H4 by (vm_compute; reflexivity).
  repeat (split; [assumption|]).
  exact (proj1 well_formed_response_followed get_available_voices _
           "Alice" "Bob" "Kore" "Zephyr" H0 H1 H2 H3 H4).
Defined.

(** C8, as stated, fails.  For the speakers "Bob" and "bob" the response
    "Bob: Puck", "bob: Kore" has a line for each naming two distinct
    catalog voices, yet both lines carry the first speaker's prefix: "Bob"
    ends with Kore and "bob" with the default Puck.  And a response with a
    second line for a speaker follows the later line. *)
Lemma well_formed_response_not_always_followed :
  ~ follows_every_well_formed_response
  /\ select_voices_for_speakers
       (answering ("Bob: Puck" ++ LF ++ "bob: Kore")) "model" "script"
       "Bob" "bob"
     = Ok (<["bob" := "Puck"]> (<["Bob" := "Kore"]> ∅))
  /\ select_voices_for_speakers
       (answering ("Alice: Puck" ++ LF ++ "Bob: Kore" ++ LF
                   ++ "Alice: Zephyr")) "model" "script" "Alice" "Bob"
     = Ok (<["Bob" := "Kore"]> (<["Alice" := "Zephyr"]> ∅)).
Proof.
  split; [|split; vm_compute; reflexivity].
  intros H.
  specialize (H "Bob" "bob" ("Bob: Puck" ++ LF ++ "bob: Kore")%string
                "Puck" "Kore" "model" "script").
  assert (select_voices_for_speakers
            (answering ("Bob: Puck" ++ LF ++ "bob: Kore")) "model" "script"
            "Bob" "bob"
          = Ok (<["bob" := "Puck"]> (<["Bob" := "Kore"]> ∅))) as Hrun
    by (vm_compute; reflexivity).
  rewrite Hrun in H.
  assert (Ok (<["bob" := "Puck"]> (<["Bob" := "Kore"]> (∅ : gmap string string)))
          = Ok (<["bob" := "Kore"]> (<["Bob" := "Puck"]> ∅))) as Heq.
  { apply H; [vm_compute; reflexivity | vm_compute; reflexivity
              | discriminate]. }
  apply (f_equal (fun r : result (gmap string string) =>
                    match r with
                    | Ok m => m !! "Bob"
                    | Raise _ => None
                    end)) in Heq.
  vm_compute in Heq. discriminate.
Qed.

(** * Further properties of the code *)

(** ** Trimming *)

Lemma lstrip_occurs c s : occurs c (Py.lstrip s) -> occurs c s.
Proof.
  induction s as [|x r IH]; simpl; [tauto|].
  destruct (Py.isspace x); simpl; tauto.
Qed.

Lemma rstrip_occurs c s : occurs c (Py.rstrip s) -> occurs c s.
Proof.
  induction s as [|x r IH]; simpl; [tauto|].
  destruct (Py.isspace x && Py.is_empty (Py.rstrip r)); simpl; tauto.
Qed.

Lemma strip_occurs c s : occurs c (Py.strip s) -> occurs c s.
Proof. intros H. apply lstrip_occurs, rstrip_occurs, H. Qed.

Lemma rstrip_idempotent s : Py.rstrip (Py.rstrip s) = Py.rstrip s.
Proof.
  induction s as [|x r IH]; [reflexivity|].
  simpl. destruct (Py.isspace x && Py.is_empty (Py.rstrip r)) eqn:E;
    [reflexivity|].
  simpl. rewrite IH, E. reflexivity.
Qed.

Lemma lstrip_head s :
  match Py.lstrip s with
  | EmptyString => True
  | String c _ => Py.isspace c = false
  end.
Proof.
  induction s as [|x r IH]; simpl; [exact I|].
  destruct (Py.isspace x) eqn:E; [exact IH | exact E].
Qed.

Lemma lstrip_rstrip_lstrip s :
  Py.lstrip (Py.rstrip (Py.lstrip s)) = Py.rstrip (Py.lstrip s).
Proof.
  pose proof (lstrip_head s) as H.
  destruct (Py.lstrip s) as [|c r]; [reflexivity|].
  simpl. rewrite H. simpl. rewrite H. reflexivity.
Qed.

Lemma strip_idempotent s : Py.strip (Py.strip s) = Py.strip s.
Proof.
  unfold Py.strip. rewrite lstrip_rstrip_lstrip. apply rstrip_idempotent.
Qed.

(** ** The names the extractor returns *)

Lemma names_of_well_formed lines n :
  In n (names_of lines) -> well_formed_name n.
Proof.
  unfold names_of. intros H.
  apply filter_In in H as [H Hne].
  apply in_map_iff in H as (line & <- & H).
  apply filter_In in H as [_ Hc].
  destruct (before_first_colon line Hc) as (after & _ & Hno).
  unfold well_formed_name, speaker_name_of in *. split; [|split].
  - intros E. rewrite E in Hne. discriminate.
  - apply strip_idempotent.
  - intros Hin. apply Hno. now apply strip_occurs.
Qed.

Lemma extract_speakers_shape text :
  match extract_speakers text with
  | (Some a, Some b) => well_formed_name a /\ well_formed_name b /\ a <> b
  | (Some a, None) => well_formed_name a
  | (None, Some _) => False
  | (None, None) => True
  end.
Proof.
  unfold extract_speakers. rewrite extract_loop_none.
  unfold first_two_distinct.
  pose proof (names_of_well_formed (Py.splitlines text)) as Hwf.
  destruct (names_of (Py.splitlines text)) as [|a rest]; [exact I|].
  destruct (find (fun n => negb (String.eqb n a)) rest) as [b|] eqn:Hf.
  - apply find_some in Hf as [Hin Hne].
    split; [apply Hwf; left; reflexivity|].
    split; [apply Hwf; right; exact Hin|].
    apply negb_true_iff, String.eqb_neq in Hne. congruence.
  - apply Hwf. left. reflexivity.
Qed.

(** X1. Whatever the text, a name returned by extract_speakers is not
    empty, carries no white space at either end and no colon; the second
    name differs from the first, and there is no second name without a
    first. *)
Theorem extract_speakers_names_well_formed text :
  match extract_speakers text with
  | (Some a, Some b) => well_formed_name a /\ well_formed_name b /\ a <> b
  | (Some a, None) => well_formed_name a
  | (None, Some _) => False
  | (None, None) => True
  end.
Proof. apply extract_speakers_shape. Qed.

(** ** Lines that follow *)

Lemma splitlines_cons c r :
  Py.splitlines (String c r)
  = if Py.is_linebreak c then
      EmptyString ::
        match r with
        | String c2 r2 =>
            if Ascii.eqb c "013" && Ascii.eqb c2 "010" then Py.splitlines r2
            else Py.splitlines r
        | EmptyString => Py.splitlines r
        end
    else match Py.splitlines r with
         | h :: t => String c h :: t
         | [] => [String c EmptyString]
         end.
Proof. reflexivity. Qed.

Lemma splitlines_cons_not_nil c r : Py.splitlines (String c r) <> [].
Proof.
  rewrite splitlines_cons.
  destruct (Py.is_linebreak c); [discriminate|].
  destruct (Py.splitlines r); discriminate.
Qed.

(** The lines of a text stay the first lines when a line feed and more
    text are appended. *)
Lemma splitlines_followed t1 :
  (forall t2, exists tail,
      Py.splitlines (t1 ++ String "010" t2)
      = (Py.splitlines t1 ++ tail)%list)
  /\ (forall c t2, exists tail,
         Py.splitlines (String c t1 ++ String "010" t2)
         = (Py.splitlines (String c t1) ++ tail)%list).
Proof.
  induction t1 as [|x t [IH1 IH2]].
  - split.
    + intros t2. rewrite append_nil. eexists. reflexivity.
    + intros c t2. rewrite append_cons, append_nil.
      rewrite !splitlines_cons.
      change (Py.splitlines EmptyString) with (@nil string).
      destruct (Py.is_linebreak c).
      * eexists. reflexivity.
      * change (Py.is_linebreak "010") with true. cbv iota.
        eexists. reflexivity.
  - split; [exact (IH2 x)|].
    intros c t2. rewrite !append_cons.
    rewrite (splitlines_cons c (String x (t ++ String "010" t2))).
    rewrite (splitlines_cons c (String x t)).
    destruct (Py.is_linebreak c).
    + destruct (Ascii.eqb c "013" && Ascii.eqb x "010").
      * destruct (IH1 t2) as [tail ->]. eexists. reflexivity.
      * destruct (IH2 x t2) as [tail Ht]. rewrite append_cons in Ht.
        rewrite Ht. eexists. reflexivity.
    + destruct (IH2 x t2) as [tail Ht]. rewrite append_cons in Ht.
      rewrite Ht.
      pose proof (splitlines_cons_not_nil x t) as Hne.
      destruct (Py.splitlines (String x t)) as [|h l]; [congruence|].
      eexists. reflexivity.
Qed.

Lemma names_of_app l1 l2 :
  names_of (l1 ++ l2) = (names_of l1 ++ names_of l2)%list.
Proof.
  unfold names_of.
  now rewrite List.filter_app, List.map_app, List.filter_app.
Qed.

Lemma find_app_some {A : Type} (f : A -> bool) l1 l2 x :
  find f l1 = Some x -> find f (l1 ++ l2) = Some x.
Proof.
  induction l1 as [|y l IH]; simpl; [discriminate|].
  destruct (f y); [tauto | exact IH].
Qed.

Lemma first_two_distinct_app n1 n2 a b :
  first_two_distinct n1 = (Some a, Some b) ->
  first_two_distinct (n1 ++ n2) = (Some a, Some b).
Proof.
  destruct n1 as [|x rest]; simpl; [discriminate|].
  intros H. injection H as -> Hf.
  rewrite (find_app_some _ _ n2 _ Hf). reflexivity.
Qed.

(** X2. Once a text yields two speakers, nothing that follows on further
    lines changes them. *)
Theorem extract_speakers_ignores_what_follows text more a b :
  extract_speakers text = (Some a, Some b) ->
  extract_speakers (text ++ LF ++ more) = (Some a, Some b).
Proof.
  unfold extract_speakers. rewrite !extract_loop_none.
  intros H.
  destruct (proj1 (splitlines_followed text) more) as [tail Ht].
  change (text ++ LF ++ more)%string with (text ++ String "010" more)%string.
  rewrite Ht, names_of_app. now apply first_two_distinct_app.
Qed.

Lemma extract_speakers_ignores_what_follows_witness :
  extract_speakers ("Ann: hi" ++ LF ++ "Bo: yes") = (Some "Ann", Some "Bo")
  /\ extract_speakers (("Ann: hi" ++ LF ++ "Bo: yes") ++ LF ++ "Cy: no")
     = (Some "Ann", Some "Bo").
Proof.
  split.
  - vm_compute. reflexivity.
  - apply extract_speakers_ignores_what_follows. vm_compute. reflexivity.
Defined.

(** ** Media types, segment after segment *)

Lemma split_cons sep c r :
  Py.split sep (String c r)
  = if Ascii.eqb c sep then EmptyString :: Py.split sep r
    else match Py.split sep r with
         | h :: t => String c h :: t
         | [] => [String c EmptyString]
         end.
Proof. reflexivity. Qed.

Lemma split_not_nil sep s : Py.split sep s <> [].
Proof.
  destruct s as [|c r]; [discriminate|].
  rewrite split_cons. destruct (Ascii.eqb c sep); [discriminate|].
  destruct (Py.split sep r); discriminate.
Qed.

(** Splitting a text cut at a separator splits both sides. *)
Lemma split_app sep a b :
  Py.split sep (a ++ String sep b)
  = (Py.split sep a ++ Py.split sep b)%list.
Proof.
  induction a as [|x a IH]; rewrite ?append_nil, ?append_cons.
  - rewrite split_cons, Ascii.eqb_refl. reflexivity.
  - rewrite !(split_cons sep x). destruct (Ascii.eqb x sep).
    + rewrite IH. reflexivity.
    + rewrite IH. pose proof (split_not_nil sep a) as Hne.
      destruct (Py.split sep a) as [|h t]; [congruence | reflexivity].
Qed.

Lemma parse_audio_mime_type_app m1 m2 :
  parse_audio_mime_type (m1 ++ ";" ++ m2)
  = fold_left parse_param (Py.split ";" m2) (parse_audio_mime_type m1).
Proof.
  unfold parse_audio_mime_type.
  change (m1 ++ ";" ++ m2)%string with (m1 ++ String ";" m2)%string.
  rewrite split_app. apply fold_left_app.
Qed.

(** X3. The segments of a media type are read from left to right, each
    starting from what the segments before it gave: the result for
    m1;m2 is the result for m1 refined by the segments of m2.  So a last
    segment that is a rate with an integer decides the rate whatever came
    before, and leaves the bit depth alone. *)
Theorem parse_audio_mime_type_left_to_right :
  (forall m1 m2,
     parse_audio_mime_type (m1 ++ ";" ++ m2)
     = fold_left parse_param (Py.split ";" m2) (parse_audio_mime_type m1))
  /\ (forall m seg r,
        ~ occurs ";" seg ->
        Py.startswith (Py.lower (Py.strip seg)) "rate=" = true ->
        rbind (Py.item (Py.split1 "=" (Py.strip seg)) 1) Py.int = Ok r ->
        parse_audio_mime_type (m ++ ";" ++ seg)
        = {| bits_per_sample := bits_per_sample (parse_audio_mime_type m);
             rate := r |}).
Proof.
  split; [exact parse_audio_mime_type_app|].
  intros m seg r Hno Hrate Hint.
  rewrite parse_audio_mime_type_app, (split_no_sep _ _ Hno). simpl.
  unfold parse_param. rewrite Hrate, Hint. reflexivity.
Qed.

Lemma parse_audio_mime_type_left_to_right_witness :
  ~ occurs ";" " RATE=16000 "
  /\ Py.startswith (Py.lower (Py.strip " RATE=16000 ")) "rate=" = true
  /\ rbind (Py.item (Py.split1 "=" (Py.strip " RATE=16000 ")) 1) Py.int
     = Ok 16000
  /\ parse_audio_mime_type ("audio/L24;rate=8000" ++ ";" ++ " RATE=16000 ")
     = {| bits_per_sample :=
            bits_per_sample (parse_audio_mime_type "audio/L24;rate=8000");
          rate := 16000 |}.
Proof.
  assert (~ occurs ";" " RATE=16000 ") as H1
    by (vm_compute; intuition discriminate).
  split; [exact H1|]. split; [reflexivity|]. split; [reflexivity|].
  apply (proj2 parse_audio_mime_type_left_to_right);
    [exact H1 | reflexivity | reflexivity].
Defined.

(** ** When the encoder succeeds *)

Lemma pack_uint_ok_inv width z b :
  pack_uint width z = Ok b ->
  0 <= z < 2 ^ (8 * Z.of_nat width) /\ b = le_bytes width z.
Proof.
  unfold pack_uint.
  destruct (Z.leb_spec 0 z), (Z.ltb_spec z (2 ^ (8 * Z.of_nat width)));
    simpl; try discriminate.
  intros Hb. injection Hb as <-. auto.
Qed.

Lemma pack_uint_raise_inv width z e :
  pack_uint width z = Raise e -> e = StructError.
Proof.
  unfold pack_uint. destruct (_ && _); [discriminate|].
  intros H. now injection H as <-.
Qed.

Lemma struct_pack_raise_inv fields e :
  struct_pack fields = Raise e -> e = StructError.
Proof.
  induction fields as [|f rest IH]; simpl; [discriminate|].
  destruct (pack_field f) as [b|e'] eqn:Hf; simpl.
  - destruct (struct_pack rest) as [bs|e'']; simpl; [discriminate|].
    intros H. injection H as <-. now apply IH.
  - intros H. injection H as <-.
    destruct f; simpl in Hf; [discriminate | |];
      eapply pack_uint_raise_inv; eassumption.
Qed.

Lemma convert_to_wav_raise_inv audio_data mime_type e :
  convert_to_wav audio_data mime_type = Raise e -> e = StructError.
Proof.
  unfold convert_to_wav.
  destruct (struct_pack _) as [h|e'] eqn:Hp; simpl; [discriminate|].
  intros H. injection H as <-. eapply struct_pack_raise_inv, Hp.
Qed.

Lemma struct_pack_cons_ok f rest out :
  struct_pack (f :: rest) = Ok out ->
  exists b bs, pack_field f = Ok b /\ struct_pack rest = Ok bs
               /\ out = (b ++ bs)%list.
Proof.
  simpl. destruct (pack_field f) as [b|]; simpl; [|discriminate].
  destruct (struct_pack rest) as [bs|]; simpl; [|discriminate].
  intros H. injection H as <-. eauto.
Qed.

Lemma convert_to_wav_ok_inv audio_data mime_type out :
  convert_to_wav audio_data mime_type = Ok out ->
  let bits := bits_per_sample (parse_audio_mime_type mime_type) in
  let sr := rate (parse_audio_mime_type mime_type) in
  let n := Z.of_nat (List.length audio_data) in
  0 <= bits < 2 ^ 16 /\ 0 <= sr < 2 ^ 32
  /\ sr * (bits / 8) < 2 ^ 32 /\ 36 + n < 2 ^ 32.
Proof.
  unfold convert_to_wav. cbv zeta.
  set (bits := bits_per_sample (parse_audio_mime_type mime_type)).
  set (sr := rate (parse_audio_mime_type mime_type)).
  set (n := Z.of_nat (List.length audio_data)).
  destruct (struct_pack _) as [h|] eqn:Hp; [|discriminate].
  intros _.
  apply struct_pack_cons_ok in Hp as (? & ? & _ & Hp & _).
  apply struct_pack_cons_ok in Hp as (b1 & ? & H1 & Hp & _).
  apply struct_pack_cons_ok in Hp as (? & ? & _ & Hp & _).
  apply struct_pack_cons_ok in Hp as (? & ? & _ & Hp & _).
  apply struct_pack_cons_ok in Hp as (? & ? & _ & Hp & _).
  apply struct_pack_cons_ok in Hp as (? & ? & _ & Hp & _).
  apply struct_pack_cons_ok in Hp as (? & ? & _ & Hp & _).
  apply struct_pack_cons_ok in Hp as (b4 & ? & H4 & Hp & _).
  apply struct_pack_cons_ok in Hp as (b5 & ? & H5 & Hp & _).
  apply struct_pack_cons_ok in Hp as (? & ? & _ & Hp & _).
  apply struct_pack_cons_ok in Hp as (b7 & ? & H7 & _ & _).
  change (pack_uint 4 (36 + n) = Ok b1) in H1.
  change (pack_uint 4 sr = Ok b4) in H4.
  change (pack_uint 4 (sr * (1 * (bits / 8))) = Ok b5) in H5.
  change (pack_uint 2 bits = Ok b7) in H7.
  apply pack_uint_ok_inv in H1 as [H1 _], H4 as [H4 _], H5 as [H5 _],
    H7 as [H7 _].
  replace (sr * (1 * (bits / 8))) with (sr * (bits / 8)) in H5 by lia.
  lia.
Qed.

(** X4. convert_to_wav succeeds exactly when the parsed bit depth fits 16
    bits, the sample rate and the byte rate fit 32 bits and the payload
    leaves room for the 36 bytes counted with it; a bit depth that is not
    a multiple of 8 is accepted, the block align being bits // 8.  The
    result is then 44 bytes longer than the payload and reads back as the
    header fields and the payload.  Any failure is a struct.error. *)
Theorem convert_to_wav_succeeds_iff audio_data mime_type :
  let bits := bits_per_sample (parse_audio_mime_type mime_type) in
  let sr := rate (parse_audio_mime_type mime_type) in
  let n := Z.of_nat (List.length audio_data) in
  ((exists out, convert_to_wav audio_data mime_type = Ok out)
   <-> 0 <= bits < 2 ^ 16 /\ 0 <= sr < 2 ^ 32
       /\ sr * (bits / 8) < 2 ^ 32 /\ 36 + n < 2 ^ 32)
  /\ (forall out,
        convert_to_wav audio_data mime_type = Ok out ->
        List.length out = (44 + List.length audio_data)%nat
        /\ read_wav out
           = Some ({| chunkSize := 36 + n;
                      subchunkSize := 16;
                      audioFormat := 1;
                      numChannels := 1;
                      sampleRate := sr;
                      byteRate := sr * (bits / 8);
                      blockAlign := bits / 8;
                      bitsPerSample := bits;
                      dataSize := n |}, audio_data))
  /\ (forall e, convert_to_wav audio_data mime_type = Raise e ->
                e = StructError).
Proof.
  intros bits sr n. split; [split|split].
  - intros [out H]. exact (convert_to_wav_ok_inv _ _ _ H).
  - intros (Hb & Hs & Hr & Hn). eexists.
    apply convert_to_wav_in_range; assumption.
  - intros out H.
    destruct (convert_to_wav_ok_inv _ _ _ H) as (Hb & Hs & Hr & Hn).
    fold bits sr n in Hb, Hs, Hr, Hn.
    pose proof (convert_to_wav_in_range audio_data mime_type Hb Hs Hr Hn)
      as Hok.
    fold bits sr n in Hok.
    assert (out = (wav_header_bytes (36 + n) sr (sr * (1 * (bits / 8)))
                     (1 * (bits / 8)) bits n ++ audio_data)%list) as ->
      by congruence.
    clear H Hok.
    assert (0 <= bits / 8 < 2 ^ 16) as Hba.
    { split; [apply Z.div_pos; lia|].
      apply Z.div_lt_upper_bound; lia. }
    assert (0 <= sr * (bits / 8)) as Hbr0
      by (apply Z.mul_nonneg_nonneg; lia).
    replace (1 * (bits / 8)) with (bits / 8) by lia.
    split.
    + rewrite length_app, length_wav_header_bytes. reflexivity.
    + apply read_wav_layout; lia.
  - intros e. apply convert_to_wav_raise_inv.
Qed.

Lemma convert_to_wav_succeeds_iff_witness :
  let bits := bits_per_sample (parse_audio_mime_type "audio/L12;rate=8000") in
  let sr := rate (parse_audio_mime_type "audio/L12;rate=8000") in
  let n := Z.of_nat (List.length [x01; x02; x03]) in
  (0 <= bits < 2 ^ 16 /\ 0 <= sr < 2 ^ 32
   /\ sr * (bits / 8) < 2 ^ 32 /\ 36 + n < 2 ^ 32)
  /\ exists out,
       convert_to_wav [x01; x02; x03] "audio/L12;rate=8000" = Ok out.
Proof.
  cbv zeta.
  assert (0 <= bits_per_sample (parse_audio_mime_type "audio/L12;rate=8000")
            < 2 ^ 16
          /\ 0 <= rate (parse_audio_mime_type "audio/L12;rate=8000") < 2 ^ 32
          /\ rate (parse_audio_mime_type "audio/L12;rate=8000")
             * (bits_per_sample (parse_audio_mime_type "audio/L12;rate=8000")
                / 8) < 2 ^ 32
          /\ 36 + Z.of_nat (List.length [x01; x02; x03]) < 2 ^ 32) as H
    by (vm_compute; intuition discriminate).
  split; [exact H|].
  exact (proj2 (proj1 (convert_to_wav_succeeds_iff [x01; x02; x03]
                         "audio/L12;rate=8000")) H).
Defined.

(** ** Voice selection: what every response gives *)

Section Populated.

Variable available_voices : list voice.
Variables speaker1_name speaker2_name : string.

Lemma voices_invariant_insert sv k v :
  (voices_invariant available_voices speaker1_name speaker2_name) sv ->
  k = speaker1_name \/ k = speaker2_name ->
  In v (voice_names available_voices) ->
  (voices_invariant available_voices speaker1_name speaker2_name) (<[k := v]> sv).
Proof.
  intros Hinv Hk Hv k' v'. unfold voices_invariant in *.
  rewrite lookup_insert.
  destruct (decide (k = k')) as [<-|_].
  - intros H. injection H as <-. auto.
  - apply Hinv.
Qed.

Lemma resolve_voice_in line v :
  resolve_voice available_voices line = Ok (Some v) ->
  In v (voice_names available_voices).
Proof.
  intros H. apply (resolve_voice_canonical available_voices line v).
  unfold named_on. now rewrite H.
Qed.

Lemma parse_line_invariant sv line :
  (voices_invariant available_voices speaker1_name speaker2_name) sv ->
  exists sv', parse_line available_voices speaker1_name speaker2_name sv line
              = Ok sv'
              /\ (voices_invariant available_voices speaker1_name speaker2_name) sv'.
Proof.
  intros Hinv. unfold parse_line.
  fold (has_prefix speaker1_name line). fold (has_prefix speaker2_name line).
  destruct (has_prefix speaker1_name line) eqn:H1.
  - destruct (resolve_voice_total available_voices line
                (has_prefix_colon _ _ H1)) as [[v|] Hr]; rewrite Hr; simpl.
    + eexists. split; [reflexivity|].
      apply voices_invariant_insert; auto. eapply resolve_voice_in, Hr.
    + eauto.
  - destruct (has_prefix speaker2_name line) eqn:H2; [|eauto].
    destruct (resolve_voice_total available_voices line
                (has_prefix_colon _ _ H2)) as [[v|] Hr]; rewrite Hr; simpl.
    + eexists. split; [reflexivity|].
      apply voices_invariant_insert; auto. eapply resolve_voice_in, Hr.
    + eauto.
Qed.

Lemma parse_lines_invariant lines : forall sv,
  (voices_invariant available_voices speaker1_name speaker2_name) sv ->
  exists sv', parse_lines available_voices speaker1_name speaker2_name sv lines
              = Ok sv'
              /\ (voices_invariant available_voices speaker1_name speaker2_name) sv'.
Proof.
  induction lines as [|line rest IH]; intros sv Hinv; simpl; [eauto|].
  destruct (parse_line_invariant sv line Hinv) as (sv1 & -> & Hinv1).
  simpl. now apply IH.
Qed.

Lemma first_male_in m0 ms :
  male_voices available_voices = m0 :: ms ->
  In m0 (voice_names available_voices).
Proof.
  unfold male_voices. intros H.
  destruct (first_of_gender _ _ _ _ H) as (v & Hin & <- & _).
  now apply in_map.
Qed.

Lemma first_female_in f0 fs :
  female_voices available_voices = f0 :: fs ->
  In f0 (voice_names available_voices).
Proof.
  unfold female_voices. intros H.
  destruct (first_of_gender _ _ _ _ H) as (v & Hin & <- & _).
  now apply in_map.
Qed.

Lemma fill_speaker1_invariant sv :
  male_voices available_voices <> [] ->
  (voices_invariant available_voices speaker1_name speaker2_name) sv ->
  exists sv', fill_speaker1 available_voices speaker1_name sv = Ok sv'
              /\ (voices_invariant available_voices speaker1_name speaker2_name) sv'
              /\ is_some (sv' !! speaker1_name) = true.
Proof.
  intros Hm Hinv. unfold fill_speaker1.
  destruct (sv !! speaker1_name) as [v|] eqn:Hl.
  - exists sv. rewrite Hl. auto.
  - destruct (male_voices available_voices) as [|m0 ms] eqn:Em;
      [congruence|].
    simpl. eexists. split; [reflexivity|]. split.
    + apply voices_invariant_insert; auto. eapply first_male_in, Em.
    + now rewrite lookup_insert_eq.
Qed.

Lemma fill_speaker2_invariant sv :
  (voices_invariant available_voices speaker1_name speaker2_name) sv ->
  is_some (sv !! speaker1_name) = true ->
  exists sv', fill_speaker2 available_voices speaker1_name speaker2_name sv
              = Ok sv'
              /\ (voices_invariant available_voices speaker1_name speaker2_name) sv'
              /\ is_some (sv' !! speaker1_name) = true
              /\ is_some (sv' !! speaker2_name) = true.
Proof.
  intros Hinv H1. unfold fill_speaker2.
  destruct (sv !! speaker2_name) as [v|] eqn:Hl.
  - exists sv. rewrite Hl. auto.
  - unfold getitem.
    destruct (sv !! speaker1_name) as [voice1|] eqn:Hv1; [|discriminate].
    simpl.
    assert (forall v, In v (voice_names available_voices) ->
              (voices_invariant available_voices speaker1_name speaker2_name) (<[speaker2_name := v]> sv)
              /\ is_some (<[speaker2_name := v]> sv !! speaker1_name) = true
              /\ is_some (<[speaker2_name := v]> sv !! speaker2_name) = true)
      as Hins.
    { intros v Hv. split; [|split].
      - apply voices_invariant_insert; auto.
      - rewrite lookup_insert. destruct (decide _); [reflexivity|].
        now rewrite Hv1.
      - now rewrite lookup_insert_eq. }
    destruct (String.eqb (gender_of available_voices voice1) "Male"
              && negb (Nat.eqb (List.length (female_voices available_voices))
                         0)) eqn:Hg.
    + destruct (female_voices available_voices) as [|f0 fs] eqn:Ef.
      { rewrite andb_false_r in Hg. discriminate. }
      simpl. eexists. split; [reflexivity|].
      apply Hins. eapply first_female_in, Ef.
    + destruct (male_voices available_voices) as [|m0 ms] eqn:Em; simpl.
      * destruct (find _ (voice_names available_voices)) as [v|] eqn:Hf.
        -- eexists. split; [reflexivity|].
           apply Hins. apply find_some in Hf. tauto.
        -- eexists. split; [reflexivity|].
           apply Hins. eapply Hinv, Hv1.
      * eexists. split; [reflexivity|].
        apply Hins. eapply first_male_in, Em.
Qed.

Lemma select_voices_from_populated text0 :
  male_voices available_voices <> [] ->
  exists sv v1 v2,
    select_voices_from available_voices text0 speaker1_name speaker2_name
    = Ok sv
    /\ sv !! speaker1_name = Some v1 /\ sv !! speaker2_name = Some v2
    /\ In v1 (voice_names available_voices)
    /\ In v2 (voice_names available_voices)
    /\ (forall k, k <> speaker1_name -> k <> speaker2_name -> sv !! k = None).
Proof.
  intros Hm. unfold select_voices_from.
  assert ((voices_invariant available_voices speaker1_name speaker2_name) ∅) as H0.
  { intros k v. rewrite lookup_empty. discriminate. }
  destruct (parse_lines_invariant (Py.split "010" (Py.strip text0)) ∅ H0)
    as (sv1 & -> & Hinv1). simpl.
  destruct (fill_speaker1_invariant sv1 Hm Hinv1) as (sv2 & -> & Hinv2 & H1).
  simpl.
  destruct (fill_speaker2_invariant sv2 Hinv2 H1)
    as (sv3 & -> & Hinv3 & H31 & H32).
  destruct (sv3 !! speaker1_name) as [v1|] eqn:E1; [|discriminate].
  destruct (sv3 !! speaker2_name) as [v2|] eqn:E2; [|discriminate].
  exists sv3, v1, v2. repeat split; auto.
  - eapply Hinv3, E1.
  - eapply Hinv3, E2.
  - intros k Hk1 Hk2. destruct (sv3 !! k) as [v|] eqn:Ek; [|reflexivity].
    destruct (Hinv3 k v Ek) as [[?|?] _]; congruence.
Qed.

End Populated.

(** X5. With a catalog that has a male voice, as the deployed one has,
    every response text makes select_voices_for_speakers return a mapping:
    it holds a catalog voice for each of the two speakers and no other
    key.  Without a male voice and with a response that settles nothing,
    the look-up of the first male voice raises IndexError. *)
Theorem select_voices_always_populated :
  (forall available_voices text speaker1_name speaker2_name,
     male_voices available_voices <> [] ->
     exists sv v1 v2,
       select_voices_from available_voices text speaker1_name speaker2_name
       = Ok sv
       /\ sv !! speaker1_name = Some v1 /\ sv !! speaker2_name = Some v2
       /\ In v1 (voice_names available_voices)
       /\ In v2 (voice_names available_voices)
       /\ (forall k, k <> speaker1_name -> k <> speaker2_name ->
                     sv !! k = None))
  /\ (forall text speaker1_name speaker2_name model prompt,
        exists sv v1 v2,
          select_voices_for_speakers (answering text) model prompt
            speaker1_name speaker2_name = Ok sv
          /\ sv !! speaker1_name = Some v1 /\ sv !! speaker2_name = Some v2
          /\ In v1 (voice_names get_available_voices)
          /\ In v2 (voice_names get_available_voices)
          /\ (forall k, k <> speaker1_name -> k <> speaker2_name ->
                        sv !! k = None))
  /\ (forall available_voices text speaker1_name speaker2_name,
        male_voices available_voices = [] ->
        no_line_resolves available_voices text = true ->
        select_voices_from available_voices text speaker1_name speaker2_name
        = Raise IndexError).
Proof.
  split; [|split].
  - intros cat text s1 s2 Hm. now apply select_voices_from_populated.
  - intros text s1 s2 model prompt.
    unfold select_voices_for_speakers, answering. simpl.
    apply select_voices_from_populated. vm_compute. discriminate.
  - intros cat text s1 s2 Hm Hno. unfold select_voices_from.
    fold (response_lines text).
    rewrite parse_lines_unresolved by exact Hno. simpl.
    unfold fill_speaker1. rewrite lookup_empty, Hm. reflexivity.
Qed.

Lemma select_voices_always_populated_witness :
  male_voices get_available_voices <> []
  /\ exists sv v1 v2,
       select_voices_from get_available_voices
         ("Bob: kore" ++ LF ++ "sure!") "Alice" "Bob" = Ok sv
       /\ sv !! "Alice" = Some v1 /\ sv !! "Bob" = Some v2
       /\ In v1 (voice_names get_available_voices)
       /\ In v2 (voice_names get_available_voices)
       /\ (forall k, k <> "Alice" -> k <> "Bob" -> sv !! k = None).
Proof.
  assert (male_voices get_available_voices <> []) as H
    by (vm_compute; discriminate).
  split; [exact H|].
  exact (proj1 select_voices_always_populated get_available_voices
           ("Bob: kore" ++ LF ++ "sure!") "Alice" "Bob" H).
Defined.

(** ** Voice selection: the second speaker left open *)

Lemma first_of_gender_found available_voices g n ns :
  List.NoDup (map vname available_voices) ->
  map vname (List.filter (fun v => String.eqb (vgender v) g) available_voices)
    = n :: ns ->
  gender_of available_voices n = g.
Proof.
  intros Hnd H.
  destruct (first_of_gender _ _ _ _ H) as (v & Hin & <- & Hg).
  unfold gender_of. rewrite (find_by_name _ v Hnd Hin). exact Hg.
Qed.

Lemma select_voices_from_first_only available_voices text0
    speaker1_name speaker2_name v1 m0 ms f0 fs :
  male_voices available_voices = m0 :: ms ->
  female_voices available_voices = f0 :: fs ->
  no_shared_line text0 speaker1_name speaker2_name = true ->
  names_voice available_voices text0 speaker1_name v1 = true ->
  names_only available_voices text0 speaker1_name v1 = true ->
  speaker_unsettled available_voices text0 speaker2_name = true ->
  select_voices_from available_voices text0 speaker1_name speaker2_name
  = Ok (<[speaker2_name :=
            if String.eqb (gender_of available_voices v1) "Male"
            then f0 else m0]> (<[speaker1_name := v1]> ∅)).
Proof.
  intros Hm Hf Hs He1 Ho1 Hu.
  assert (speaker1_name <> speaker2_name) as Hne.
  { intros <-.
    rewrite (shared_line_same_speaker _ _ _ _ He1) in Hs. discriminate. }
  unfold select_voices_from. fold (response_lines text0).
  unfold no_shared_line, names_voice, names_only, speaker_unsettled in *.
  assert (forallb (line_names_only available_voices speaker2_name
                     EmptyString) (response_lines text0) = true) as Ho2.
  { apply forallb_forall. intros line Hin.
    rewrite forallb_forall in Hu. specialize (Hu line Hin).
    unfold line_names_only.
    destruct (has_prefix speaker2_name line); [|reflexivity].
    destruct (named_on available_voices line); [discriminate | reflexivity]. }
  assert (existsb (line_names available_voices speaker2_name EmptyString)
            (response_lines text0) = false) as He2.
  { apply not_true_is_false. intros H.
    apply existsb_exists in H as (line & Hin & H).
    rewrite forallb_forall in Hu. specialize (Hu line Hin).
    unfold line_names in H.
    destruct (has_prefix speaker2_name line); [|discriminate].
    destruct (named_on available_voices line); discriminate. }
  rewrite (parse_lines_named available_voices speaker1_name speaker2_name
             v1 EmptyString Hne _ _ Hs Ho1 Ho2), He1, He2.
  unfold id. simpl.
  unfold fill_speaker1. rewrite lookup_insert_eq. simpl.
  unfold fill_speaker2.
  rewrite lookup_insert_ne, lookup_empty by assumption.
  unfold getitem. rewrite lookup_insert_eq. simpl.
  rewrite Hm, Hf. simpl. rewrite andb_true_r.
  destruct (String.eqb (gender_of available_voices v1) "Male");
    reflexivity.
Qed.

(** X6. When the response settles the first speaker only, on lines of
    its own, the second speaker gets the first female voice if the first
    speaker's voice is male and the first male voice otherwise: in a
    catalog with unique names the two voices are of different gender,
    hence different.  In the deployed catalog the second voice is Zephyr
    or Puck. *)
Theorem second_speaker_gets_other_gender :
  (forall available_voices text speaker1_name speaker2_name v1 m0 ms f0 fs,
     List.NoDup (map vname available_voices) ->
     male_voices available_voices = m0 :: ms ->
     female_voices available_voices = f0 :: fs ->
     no_shared_line text speaker1_name speaker2_name = true ->
     names_voice available_voices text speaker1_name v1 = true ->
     names_only available_voices text speaker1_name v1 = true ->
     speaker_unsettled available_voices text speaker2_name = true ->
     let v2 := if String.eqb (gender_of available_voices v1) "Male"
               then f0 else m0 in
     select_voices_from available_voices text speaker1_name speaker2_name
     = Ok (<[speaker2_name := v2]> (<[speaker1_name := v1]> ∅))
     /\ gender_of available_voices v2 <> gender_of available_voices v1
     /\ v2 <> v1)
  /\ (forall text speaker1_name speaker2_name v1 model prompt,
        no_shared_line text speaker1_name speaker2_name = true ->
        names_voice get_available_voices text speaker1_name v1 = true ->
        names_only get_available_voices text speaker1_name v1 = true ->
        speaker_unsettled get_available_voices text speaker2_name = true ->
        let v2 := if String.eqb (gender_of get_available_voices v1) "Male"
                  then "Zephyr" else "Puck" in
        select_voices_for_speakers (answering text) model prompt
          speaker1_name speaker2_name
        = Ok (<[speaker2_name := v2]> (<[speaker1_name := v1]> ∅))
        /\ v2 <> v1).
Proof.
  assert (forall available_voices text speaker1_name speaker2_name v1
                 m0 ms f0 fs,
     List.NoDup (map vname available_voices) ->
     male_voices available_voices = m0 :: ms ->
     female_voices available_voices = f0 :: fs ->
     no_shared_line text speaker1_name speaker2_name = true ->
     names_voice available_voices text speaker1_name v1 = true ->
     names_only available_voices text speaker1_name v1 = true ->
     speaker_unsettled available_voices text speaker2_name = true ->
     let v2 := if String.eqb (gender_of available_voices v1) "Male"
               then f0 else m0 in
     select_voices_from available_voices text speaker1_name speaker2_name
     = Ok (<[speaker2_name := v2]> (<[speaker1_name := v1]> ∅))
     /\ gender_of available_voices v2 <> gender_of available_voices v1
     /\ v2 <> v1) as Hgen.
  { intros cat text s1 s2 v1 m0 ms f0 fs Hnd Hm Hf Hs He1 Ho1 Hu v2.
    split; [now apply (select_voices_from_first_only cat text s1 s2 v1
                         m0 ms f0 fs)|].
    assert (gender_of cat v2 <> gender_of cat v1) as Hg.
    { unfold v2. unfold male_voices in Hm. unfold female_voices in Hf.
      destruct (String.eqb_spec (gender_of cat v1) "Male") as [E|E].
      - rewrite (first_of_gender_found _ _ _ _ Hnd Hf), E. discriminate.
      - rewrite (first_of_gender_found _ _ _ _ Hnd Hm). congruence. }
    split; [exact Hg | congruence]. }
  split; [exact Hgen|].
  intros text s1 s2 v1 model prompt Hs He1 Ho1 Hu.
  unfold select_voices_for_speakers, answering. cbn [rbind].
  assert (male_voices get_available_voices
          = "Puck" :: tl (male_voices get_available_voices)) as Hm
    by (vm_compute; reflexivity).
  assert (female_voices get_available_voices
          = "Zephyr" :: tl (female_voices get_available_voices)) as Hf
    by (vm_compute; reflexivity).
  destruct (Hgen get_available_voices text s1 s2 v1 _ _ _ _
              catalog_names_unique Hm Hf Hs He1 Ho1 Hu) as (H1 & _ & H3).
  split; assumption.
Qed.

Lemma second_speaker_gets_other_gender_witness :
  let text := ("intro" ++ LF ++ "alice: KORE" ++ LF ++ "Bob: nobody")%string in
  no_shared_line text "Alice" "Bob" = true
  /\ names_voice get_available_voices text "Alice" "Kore" = true
  /\ names_only get_available_voices text "Alice" "Kore" = true
  /\ speaker_unsettled get_available_voices text "Bob" = true
  /\ (let v2 := if String.eqb (gender_of get_available_voices "Kore") "Male"
                then "Zephyr" else "Puck" in
      select_voices_for_speakers (answering text) "model" "script"
        "Alice" "Bob"
      = Ok (<["Bob" := v2]> (<["Alice" := "Kore"]> ∅))
      /\ v2 <> "Kore").
Proof.
  cbv zeta.
  assert (no_shared_line ("intro" ++ LF ++ "alice: KORE" ++ LF ++ "Bob: nobody")
            "Alice" "Bob" = true) as H0 by (vm_compute; reflexivity).
  assert (names_voice get_available_voices
            ("intro" ++ LF ++ "alice: KORE" ++ LF ++ "Bob: nobody")
            "Alice" "Kore" = true) as H1 by (vm_compute; reflexivity).
  assert (names_only get_available_voices
            ("intro" ++ LF ++ "alice: KORE" ++ LF ++ "Bob: nobody")
            "Alice" "Kore" = true) as H2 by (vm_compute; reflexivity).
  assert (speaker_unsettled get_available_voices
            ("intro" ++ LF ++ "alice: KORE" ++ LF ++ "Bob: nobody")
            "Bob" = true) as H3 by (vm_compute; reflexivity).
  repeat (split; [assumption|]).
  exact (proj2 second_speaker_gets_other_gender _ "Alice" "Bob" "Kore"
           "model" "script" H0 H1 H2 H3).
Defined.
(** ** The loop over the stream: completion and failure *)

Lemma process_chunk_local w file_name chunk st :
  exists evs,
    trace (snd (process_chunk w file_name chunk st)) = (trace st ++ evs)%list
    /\ forallb is_local evs = true
    /\ forall p, In p (write_paths evs) ->
         exists b, chunk_blob chunk = Some b
                   /\ p = (file_name
                           ++ file_extension_of w (blob_mime_type b))%string.
Proof.
  destruct (process_chunk_frame w file_name chunk st)
    as (evs & Ht & Hl & Hw & _).
  exists evs. auto.
Qed.

(** What a run of the loop adds to the trace: console lines and writes
    only, each write to the file name followed by the extension of the
    media type of one of the chunks. *)
Lemma stream_loop_local w file_name chunks : forall st,
  exists evs,
    trace (snd (stream_loop w file_name chunks st)) = (trace st ++ evs)%list
    /\ forallb is_local evs = true
    /\ forall p, In p (write_paths evs) ->
         exists chunk b, In chunk chunks /\ chunk_blob chunk = Some b
                         /\ p = (file_name
                                 ++ file_extension_of w (blob_mime_type b))
                                %string.
Proof.
  induction chunks as [|chunk rest IH]; intros st.
  - exists []. simpl. rewrite app_nil_r. repeat split. intros p [].
  - rewrite stream_loop_cons.
    destruct (process_chunk_local w file_name chunk st)
      as (evs1 & Ht1 & Hl1 & Hw1).
    destruct (process_chunk w file_name chunk st) as [[[]|e] st1].
    + destruct (IH st1) as (evs2 & Ht2 & Hl2 & Hw2). simpl in Ht1.
      exists (evs1 ++ evs2)%list. split; [|split].
      * rewrite Ht2, Ht1, app_assoc. reflexivity.
      * rewrite forallb_app, Hl1, Hl2. reflexivity.
      * intros p. rewrite write_paths_app, in_app_iff. intros [H|H].
        -- destruct (Hw1 p H) as (b & Hb & Hp). exists chunk, b.
           split; [left; reflexivity | auto].
        -- destruct (Hw2 p H) as (c & b & Hc & Hb & Hp). exists c, b.
           split; [right; exact Hc | auto].
    + simpl in *. exists evs1. split; [exact Ht1|]. split; [exact Hl1|].
      intros p H. destruct (Hw1 p H) as (b & Hb & Hp). exists chunk, b.
      split; [left; reflexivity | auto].
Qed.

Lemma stream_loop_app w file_name chunks1 chunks2 : forall st,
  stream_loop w file_name (chunks1 ++ chunks2) st
  = match stream_loop w file_name chunks1 st with
    | (Ok _, st') => stream_loop w file_name chunks2 st'
    | (Raise e, st') => (Raise e, st')
    end.
Proof.
  induction chunks1 as [|chunk rest IH]; intros st; [reflexivity|].
  rewrite <- app_comm_cons, !stream_loop_cons.
  destruct (process_chunk w file_name chunk st) as [[[]|e] st1];
    [apply IH | reflexivity].
Qed.

Lemma bytes_to_write_raise_inv b e :
  bytes_to_write b = Raise e -> e = StructError.
Proof.
  unfold bytes_to_write. destruct (String.eqb _ _); [discriminate|].
  apply convert_to_wav_raise_inv.
Qed.

(** A chunk the loop can make nothing of ends the loop before any write. *)
Lemma process_chunk_unwritable w file_name chunk st :
  chunk_writable chunk = false ->
  fst (process_chunk w file_name chunk st)
  = Raise (if has_content chunk then StructError else AttributeError)
  /\ files (snd (process_chunk w file_name chunk st)) = files st.
Proof.
  pose proof (process_chunk_effect w file_name chunk st) as H.
  cbv zeta in H. unfold chunk_writable.
  destruct (chunk_blob chunk) as [b|].
  - destruct H as [-> H]. simpl.
    destruct (bytes_to_write b) as [bytes|e] eqn:Hb; [discriminate|].
    apply bytes_to_write_raise_inv in Hb as ->. intros _. tauto.
  - destruct H as (Hr & Hf & _). rewrite Hr.
    destruct (has_content chunk); [discriminate|]. auto.
Qed.

(** A chunk the loop can make something of fails on the write alone. *)
Lemma process_chunk_writable w file_name chunk st :
  chunk_writable chunk = true ->
  fst (process_chunk w file_name chunk st) = Ok tt
  \/ exists tr path data,
       (exists e, write_file w tr path data = OpenRaises e
                  /\ fst (process_chunk w file_name chunk st) = Raise e)
       \/ (exists kept e,
              write_file w tr path data = WriteRaises kept e
              /\ fst (process_chunk w file_name chunk st) = Raise e).
Proof.
  pose proof (process_chunk_effect w file_name chunk st) as H.
  cbv zeta in H. unfold chunk_writable.
  destruct (chunk_blob chunk) as [b|].
  - destruct H as [-> H]. simpl.
    destruct (bytes_to_write b) as [bytes|e]; [|discriminate].
    intros _. destruct H as (evs0 & _ & _ & H).
    destruct (write_file w (trace st ++ evs0)
                (file_name ++ file_extension_of w (blob_mime_type b)) bytes)
      as [|e|kept e] eqn:Hw; rewrite H; [left; reflexivity|right..].
    + do 3 eexists. left. exists e. split; [exact Hw | reflexivity].
    + do 3 eexists. right. exists kept, e. split; [exact Hw | reflexivity].
  - destruct H as (Hr & _). rewrite Hr.
    destruct (has_content chunk); [left; reflexivity | discriminate].
Qed.

Lemma process_chunk_outcome w file_name chunk st :
  takes_every_write w ->
  fst (process_chunk w file_name chunk st)
  = if chunk_writable chunk then Ok tt
    else Raise (if has_content chunk then StructError else AttributeError).
Proof.
  intros Hw. destruct (chunk_writable chunk) eqn:Hc.
  - destruct (process_chunk_writable w file_name chunk st Hc)
      as [H|(tr & path & data & [(e & H & _)|(kept & e & H & _)])];
      [exact H|rewrite Hw in H; discriminate..].
  - apply process_chunk_unwritable, Hc.
Qed.

(** The loop ends well only on chunks it can make something of. *)
Lemma stream_loop_ok_writable w file_name chunks : forall st,
  fst (stream_loop w file_name chunks st) = Ok tt ->
  forallb chunk_writable chunks = true.
Proof.
  induction chunks as [|chunk rest IH]; intros st; [reflexivity|].
  rewrite stream_loop_cons. cbn [forallb].
  destruct (chunk_writable chunk) eqn:Hc.
  - destruct (process_chunk w file_name chunk st) as [[[]|e] st1];
      [apply IH | discriminate].
  - destruct (process_chunk_unwritable w file_name chunk st Hc) as [H _].
    destruct (process_chunk w file_name chunk st) as [r st1].
    simpl in H. subst r. discriminate.
Qed.

Lemma stream_loop_writable_ok w file_name chunks : forall st,
  takes_every_write w ->
  forallb chunk_writable chunks = true ->
  fst (stream_loop w file_name chunks st) = Ok tt.
Proof.
  induction chunks as [|chunk rest IH]; intros st Hw; [reflexivity|].
  cbn [forallb]. intros H. apply andb_true_iff in H as [Hc Hrest].
  rewrite stream_loop_cons.
  pose proof (process_chunk_outcome w file_name chunk st Hw) as Ho.
  rewrite Hc in Ho.
  destruct (process_chunk w file_name chunk st) as [r st1].
  simpl in Ho. subst r. now apply IH.
Qed.

Lemma stream_loop_raises w file_name chunks : forall st e,
  fst (stream_loop w file_name chunks st) = Raise e ->
  e = StructError \/ e = AttributeError
  \/ exists tr path data,
       write_file w tr path data = OpenRaises e
       \/ exists kept, write_file w tr path data = WriteRaises kept e.
Proof.
  induction chunks as [|chunk rest IH]; intros st e; [discriminate|].
  rewrite stream_loop_cons.
  destruct (chunk_writable chunk) eqn:Hc.
  - destruct (process_chunk_writable w file_name chunk st Hc)
      as [H|(tr & path & data & [(e' & Hw & H)|(kept & e' & Hw & H)])];
      destruct (process_chunk w file_name chunk st) as [r st1];
      simpl in H; subst r.
    + apply IH.
    + simpl. intros E. injection E as <-. right. right.
      exists tr, path, data. left. exact Hw.
    + simpl. intros E. injection E as <-. right. right.
      exists tr, path, data. right. exists kept. exact Hw.
  - destruct (process_chunk_unwritable w file_name chunk st Hc) as [H _].
    destruct (process_chunk w file_name chunk st) as [r st1].
    simpl in H. subst r. simpl. intros E. injection E as <-.
    destruct (has_content chunk); auto.
Qed.

(** X7. The loop over the stream can reach its end only when the first
    candidate of every chunk that has one has a content and every binary
    chunk not tagged "audio/wav" can be converted, and it does reach it
    then when the file system takes every write.  It fails with
    struct.error, with AttributeError or with the error of a refused
    write, and nothing else.  It stops at the first chunk it can make
    nothing of, with struct.error for a failed conversion and
    AttributeError for a candidate without content: the files are then as
    the chunks before it left them, whatever follows in the stream. *)
Theorem stream_loop_completes_iff w file_name :
  (forall chunks st,
     fst (stream_loop w file_name chunks st) = Ok tt ->
     forallb chunk_writable chunks = true)
  /\ (forall chunks st,
        takes_every_write w ->
        forallb chunk_writable chunks = true ->
        fst (stream_loop w file_name chunks st) = Ok tt)
  /\ (forall chunks st e,
        fst (stream_loop w file_name chunks st) = Raise e ->
        e = StructError \/ e = AttributeError
        \/ exists tr path data,
             write_file w tr path data = OpenRaises e
             \/ exists kept, write_file w tr path data = WriteRaises kept e)
  /\ (forall before bad after st,
        fst (stream_loop w file_name before st) = Ok tt ->
        chunk_writable bad = false ->
        fst (stream_loop w file_name (before ++ bad :: after) st)
        = Raise (if has_content bad then StructError else AttributeError)
        /\ files (snd (stream_loop w file_name (before ++ bad :: after) st))
           = files (snd (stream_loop w file_name before st))).
Proof.
  split; [exact (stream_loop_ok_writable w file_name)|].
  split; [exact (stream_loop_writable_ok w file_name)|].
  split; [exact (stream_loop_raises w file_name)|].
  intros before bad after st Hb Hbad.
  rewrite stream_loop_app.
  destruct (stream_loop w file_name before st) as [r st1].
  simpl in Hb. subst r. rewrite stream_loop_cons.
  destruct (process_chunk_unwritable w file_name bad st1 Hbad) as [Ho Hf].
  destruct (process_chunk w file_name bad st1) as [r st2].
  simpl in *. subst r. auto.
Qed.

Lemma stream_loop_completes_iff_witness :
  takes_every_write bare_world
  /\ forallb chunk_writable [Text "one"; Binary [x01] "audio/wav"] = true
  /\ fst (stream_loop bare_world "out"
            [Text "one"; Binary [x01] "audio/wav"] initial_state) = Ok tt
  /\ chunk_writable Contentless = false
  /\ fst (stream_loop bare_world "out"
            ([Text "one"; Binary [x01] "audio/wav"]
             ++ Contentless :: [Binary [x03] "audio/wav"]) initial_state)
     = Raise (if has_content Contentless
              then StructError else AttributeError)
  /\ files (snd (stream_loop bare_world "out"
                   ([Text "one"; Binary [x01] "audio/wav"]
                    ++ Contentless :: [Binary [x03] "audio/wav"])
                   initial_state))
     = files (snd (stream_loop bare_world "out"
                     [Text "one"; Binary [x01] "audio/wav"] initial_state)).
Proof.
  assert (takes_every_write bare_world) as H0
    by (intros tr file_name data; reflexivity).
  assert (forallb chunk_writable [Text "one"; Binary [x01] "audio/wav"]
          = true) as H1 by (vm_compute; reflexivity).
  assert (chunk_writable Contentless = false) as H2
    by (vm_compute; reflexivity).
  pose proof (proj1 (proj2 (stream_loop_completes_iff bare_world "out"))
                [Text "one"; Binary [x01] "audio/wav"] initial_state H0 H1)
    as H3.
  split; [exact H0|]. split; [exact H1|]. split; [exact H3|].
  split; [exact H2|].
  exact (proj2 (proj2 (proj2 (stream_loop_completes_iff bare_world "out")))
           _ _ [Binary [x03] "audio/wav"] initial_state H3 H2).
Defined.


(** ** A run, piece by piece *)

Lemma speakers_of_extract user_prompt o1 o2 :
  extract_speakers user_prompt = (o1, o2) ->
  speakers_of user_prompt
  = (if truthy o1 then default EmptyString o1 else "Speaker 1",
     if truthy o2 then default EmptyString o2 else "Speaker 2").
Proof. unfold speakers_of. now intros ->. Qed.

(** The script is missing: one line is printed and [generate] returns. *)
Lemma generate_not_found w input_file output_file st :
  isfile w (script_path_of w input_file) = false ->
  generate w (Some input_file) output_file st
  = (Ok tt,
     {| trace := (trace st
                  ++ (if Py.is_empty input_file then [Prompted] else [])
                  ++ [Printed (OutFileNotFound
                                 (script_path_of w input_file))])%list;
        files := files st |}).
Proof.
  unfold script_path_of, generate, bind, print, emit, ret.
  destruct (Py.is_empty input_file); simpl; intros ->; simpl;
    rewrite <- ?app_assoc; reflexivity.
Qed.

(** The script is found: [generate] prints its preamble, asks for the
    voices and, when it gets them, goes on to the audio. *)
Lemma generate_found w input_file output_file st :
  isfile w (script_path_of w input_file) = true ->
  let user_prompt := read_file w (script_path_of w input_file) in
  generate w (Some input_file) output_file st
  = match select_voices_for_speakers (suggestion_service w)
            "gemini-2.5-flash-preview-04-17" user_prompt
            (fst (speakers_of user_prompt)) (snd (speakers_of user_prompt))
    with
    | Raise e =>
        (Raise e,
         {| trace := (trace st ++ preamble w input_file output_file
                      ++ [AskedSuggestion
                            (suggestion_request_of w input_file)])%list;
            files := files st |})
    | Ok sv =>
        match sv !! fst (speakers_of user_prompt),
              sv !! snd (speakers_of user_prompt) with
        | Some voice1, Some voice2 =>
            generate_audio w input_file output_file voice1 voice2 st
        | _, _ =>
            (Raise KeyError,
             {| trace := (trace st ++ preamble w input_file output_file
                          ++ [AskedSuggestion
                                (suggestion_request_of w input_file)])%list;
                files := files st |})
        end
    end.
Proof.
  intros Hfile. cbv zeta.
  unfold generate_audio, generation_request_of, suggestion_request_of,
    preamble, output_name, falls_back_on_stem.
  unfold generate.
  set (script_path := script_path_of w input_file) in *.
  set (user_prompt := read_file w script_path).
  destruct (extract_speakers user_prompt) as [o1 o2] eqn:Hex.
  rewrite (speakers_of_extract _ _ _ Hex). cbn [fst snd].
  set (speaker1 := if truthy o1 then default EmptyString o1
                   else "Speaker 1").
  set (speaker2 := if truthy o2 then default EmptyString o2
                   else "Speaker 2").
  unfold bind at 1.
  assert ((match Some input_file with
           | Some p => if Py.is_empty p
                       then emit Prompted;;; ret (Py.strip (stdin_line w))
                       else ret p
           | None => emit Prompted;;; ret (Py.strip (stdin_line w))
           end) st
          = (Ok script_path,
             {| trace := (trace st
                          ++ (if Py.is_empty input_file
                              then [Prompted] else []))%list;
                files := files st |})) as ->.
  { unfold script_path, script_path_of, bind, emit, ret.
    destruct (Py.is_empty input_file); simpl;
      [reflexivity | rewrite app_nil_r; now destruct st]. }
  rewrite Hfile. cbn [negb]. fold user_prompt. rewrite Hex.
  unfold bind, print, emit, ret, lift, getitem.
  destruct (Py.is_empty input_file), (truthy output_file),
    (truthy o1), (truthy o2); cbn -[select_voices_for_speakers stream_loop];
    fold speaker1 speaker2;
    (destruct (select_voices_for_speakers _ _ _ _ _) as [sv|e];
     [destruct (sv !! speaker1) as [v1|];
      [destruct (sv !! speaker2) as [v2|]|]|]);
    cbn -[stream_loop]; rewrite <- ?app_assoc; try reflexivity;
    cbn [app];
    destruct (generation_service w _) as [chunks failure]; cbn [fst snd];
    destruct (stream_loop w _ chunks _) as [[[]|e] st2];
    try reflexivity; destruct failure; reflexivity.
Qed.

Lemma select_voices_for_speakers_cases client model prompt
    speaker1_name speaker2_name :
  (exists e,
      client (speaker_suggestion_prompt model prompt
                speaker1_name speaker2_name) = Raise e
      /\ select_voices_for_speakers client model prompt
           speaker1_name speaker2_name = Raise e)
  \/ (exists text sv v1 v2,
         client (speaker_suggestion_prompt model prompt
                   speaker1_name speaker2_name) = Ok text
         /\ select_voices_for_speakers client model prompt
              speaker1_name speaker2_name = Ok sv
         /\ sv !! speaker1_name = Some v1 /\ sv !! speaker2_name = Some v2
         /\ In v1 (voice_names get_available_voices)
         /\ In v2 (voice_names get_available_voices)).
Proof.
  unfold select_voices_for_speakers.
  destruct (client _) as [text|e]; simpl; [right | left; eauto].
  assert (male_voices get_available_voices <> []) as Hm
    by (vm_compute; discriminate).
  destruct (select_voices_from_populated get_available_voices
              speaker1_name speaker2_name text Hm)
    as (sv & v1 & v2 & H & H1 & H2 & Hi1 & Hi2 & _).
  exists text, sv, v1, v2. repeat split; assumption || reflexivity.
Qed.

Lemma run_with_credential w input_file output :
  truthy (api_key w) = true ->
  run w input_file output
  = (exit_code
       (fst (generate w (Some input_file) output
               {| trace := [Printed OutWelcome]; files := ∅ |})),
     snd (generate w (Some input_file) output
            {| trace := [Printed OutWelcome]; files := ∅ |})).
Proof.
  intros Hkey. unfold run, main, bind, print, emit. simpl.
  rewrite Hkey. simpl.
  destruct (generate w (Some input_file) output _); reflexivity.
Qed.

Lemma service_calls_app tr1 tr2 :
  service_calls (tr1 ++ tr2) = (service_calls tr1 ++ service_calls tr2)%list.
Proof. unfold service_calls. apply List.filter_app. Qed.

Lemma service_calls_local evs :
  forallb is_local evs = true -> service_calls evs = [].
Proof.
  induction evs as [|e evs IH]; [reflexivity|].
  simpl. intros H. apply andb_true_iff in H as [He H].
  destruct e; simpl in *; try discriminate; auto.
Qed.

Lemma preamble_local w input_file output_file :
  forallb is_local (preamble w input_file output_file) = true.
Proof.
  unfold preamble.
  destruct (Py.is_empty input_file), (falls_back_on_stem _ _); reflexivity.
Qed.

Lemma write_paths_local_console w input_file output_file :
  write_paths (preamble w input_file output_file) = [].
Proof.
  unfold preamble.
  destruct (Py.is_empty input_file), (falls_back_on_stem _ _); reflexivity.
Qed.

(** The four ways a run can go. *)
Lemma run_cases w input_file output :
  let script_path := script_path_of w input_file in
  let user_prompt := read_file w script_path in
  (truthy (api_key w) = false
   /\ run w input_file output
      = (1, {| trace := [Printed OutWelcome; Printed OutNoApiKey;
                         Printed OutSetApiKey];
               files := ∅ |}))
  \/ (truthy (api_key w) = true /\ isfile w script_path = false
      /\ run w input_file output
         = (0, {| trace := (Printed OutWelcome
                            :: (if Py.is_empty input_file
                                then [Prompted] else [])
                            ++ [Printed (OutFileNotFound script_path)])%list;
                  files := ∅ |}))
  \/ (truthy (api_key w) = true /\ isfile w script_path = true
      /\ exists e,
           suggestion_service w (suggestion_request_of w input_file)
           = Raise e
           /\ run w input_file output
              = (exit_code (Raise e),
                 {| trace := (Printed OutWelcome
                              :: preamble w input_file output
                              ++ [AskedSuggestion
                                    (suggestion_request_of w input_file)])
                             %list;
                    files := ∅ |}))
  \/ (truthy (api_key w) = true /\ isfile w script_path = true
      /\ exists text v1 v2 evs,
           suggestion_service w (suggestion_request_of w input_file)
           = Ok text
           /\ In v1 (voice_names get_available_voices)
           /\ In v2 (voice_names get_available_voices)
           /\ trace (snd (run w input_file output))
              = (Printed OutWelcome
                 :: preamble w input_file output
                 ++ [AskedSuggestion (suggestion_request_of w input_file);
                     Printed (OutSelected (fst (speakers_of user_prompt)) v1
                                (snd (speakers_of user_prompt)) v2);
                     Printed OutGenerating;
                     AskedGeneration
                       (generation_request_of w input_file v1 v2)]
                 ++ evs)%list
           /\ forallb is_local evs = true
           /\ forall p, In p (write_paths evs) ->
                exists chunk b,
                  In chunk (fst (generation_service w
                                   (generation_request_of w input_file
                                      v1 v2)))
                  /\ chunk_blob chunk = Some b
                  /\ p = (output_name w script_path output user_prompt
                          ++ file_extension_of w (blob_mime_type b))%string).
Proof.
  cbv zeta.
  destruct (truthy (api_key w)) eqn:Hkey.
  2: { left. split; [reflexivity|]. now apply run_missing_key. }
  right. rewrite (run_with_credential _ _ _ Hkey).
  destruct (isfile w (script_path_of w input_file)) eqn:Hfile.
  2: { left. split; [reflexivity|]. split; [reflexivity|].
       rewrite (generate_not_found _ _ _ _ Hfile). reflexivity. }
  right. rewrite (generate_found _ _ _ _ Hfile). cbv zeta.
  destruct (select_voices_for_speakers_cases (suggestion_service w)
              "gemini-2.5-flash-preview-04-17"
              (read_file w (script_path_of w input_file))
              (fst (speakers_of (read_file w (script_path_of w input_file))))
              (snd (speakers_of (read_file w (script_path_of w input_file)))))
    as [(e & Hc & ->)|(text & sv & v1 & v2 & Hc & -> & -> & -> & Hi1 & Hi2)].
  - left. split; [reflexivity|]. split; [reflexivity|].
    exists e. split; [exact Hc | reflexivity].
  - right. split; [reflexivity|]. split; [reflexivity|].
    unfold generate_audio.
    match goal with
    | |- context [stream_loop _ _ _ ?s] => set (st1 := s)
    end.
    destruct (stream_loop_local w
                (output_name w (script_path_of w input_file) output
                   (read_file w (script_path_of w input_file)))
                (fst (generation_service w
                        (generation_request_of w input_file v1 v2))) st1)
      as (evs & Ht & Hl & Hw).
    exists text, v1, v2, evs.
    split; [exact Hc|]. split; [exact Hi1|]. split; [exact Hi2|].
    split; [|split; assumption].
    destruct (stream_loop _ _ _ st1) as [[[]|e] st2];
      cbv beta iota; cbn [fst snd] in *;
      rewrite Ht; unfold st1; cbn [trace app];
      rewrite <- app_assoc; reflexivity.
Qed.

(** ** What a run asks and writes *)

Ltac run_case w input_file output :=
  let H := fresh "Hrun" in
  pose proof (run_cases w input_file output) as H; cbv zeta in H;
  destruct H as [(? & H)|[(? & ? & H)|[(? & ? & ? & ? & H)
    |(? & ? & ? & ? & ? & ? & ? & ? & ? & H & ? & ?)]]];
  rewrite H.

Lemma service_calls_run_tail w input_file output (evs : list event) rest :
  forallb is_local evs = true ->
  service_calls (Printed OutWelcome :: preamble w input_file output
                 ++ rest ++ evs)
  = service_calls rest.
Proof.
  intros Hl. change (Printed OutWelcome :: ?l) with ([Printed OutWelcome] ++ l)%list.
  rewrite !service_calls_app, (service_calls_local evs Hl),
    (service_calls_local _ (preamble_local w input_file output)).
  simpl. apply app_nil_r.
Qed.

Lemma run_service_discipline_aux w input_file output :
  let tr := trace (snd (run w input_file output)) in
  service_calls tr = []
  \/ service_calls tr
     = [AskedSuggestion (suggestion_request_of w input_file)]
  \/ exists v1 v2,
       In v1 (voice_names get_available_voices)
       /\ In v2 (voice_names get_available_voices)
       /\ service_calls tr
          = [AskedSuggestion (suggestion_request_of w input_file);
             AskedGeneration (generation_request_of w input_file v1 v2)].
Proof.
  cbv zeta.
  pose proof (run_cases w input_file output) as H. cbv zeta in H.
  destruct H as [(_ & H)|[(_ & _ & H)|[(_ & _ & e & _ & H)
    |(_ & _ & text & v1 & v2 & evs & _ & Hi1 & Hi2 & H & Hl & _)]]];
    rewrite H; cbn [snd trace].
  - left. reflexivity.
  - left. destruct (Py.is_empty input_file); reflexivity.
  - pose proof (service_calls_run_tail w input_file output []
                  [AskedSuggestion (suggestion_request_of w input_file)]
                  eq_refl) as Hs.
    rewrite app_nil_r in Hs. rewrite Hs. right. left. reflexivity.
  - rewrite (service_calls_run_tail w input_file output evs _ Hl).
    right. right. exists v1, v2. repeat split; assumption.
Qed.

(** X8. A run calls the suggestion service at most once and the speech
    service at most once, the suggestion service first, each with the
    request built from the script.  It calls neither unless the credential
    is set and the script file exists, and it writes no file unless it has
    asked the speech service. *)
Theorem run_service_discipline w input_file output :
  let tr := trace (snd (run w input_file output)) in
  (service_calls tr = []
   \/ service_calls tr
      = [AskedSuggestion (suggestion_request_of w input_file)]
   \/ exists v1 v2,
        service_calls tr
        = [AskedSuggestion (suggestion_request_of w input_file);
           AskedGeneration (generation_request_of w input_file v1 v2)])
  /\ (service_calls tr <> [] ->
      truthy (api_key w) = true
      /\ isfile w (script_path_of w input_file) = true)
  /\ (write_paths tr <> [] ->
      exists v1 v2,
        In (AskedGeneration (generation_request_of w input_file v1 v2)) tr).
Proof.
  cbv zeta. run_case w input_file output; cbn [snd trace].
  - split; [left; reflexivity|]. split; intros Hn; now elim Hn.
  - assert (forall l, service_calls (Printed OutWelcome
              :: (if Py.is_empty input_file then [Prompted] else [])
              ++ [Printed (OutFileNotFound l)]) = []
              /\ write_paths (Printed OutWelcome
              :: (if Py.is_empty input_file then [Prompted] else [])
              ++ [Printed (OutFileNotFound l)]) = []) as Hl
      by (intros l; destruct (Py.is_empty input_file); split; reflexivity).
    destruct (Hl (script_path_of w input_file)) as [-> ->].
    split; [left; reflexivity|]. split; intros Hn; now elim Hn.
  - pose proof (service_calls_run_tail w input_file output []
                  [AskedSuggestion (suggestion_request_of w input_file)]
                  eq_refl) as Hs.
    rewrite app_nil_r in Hs. rewrite Hs. split; [|split].
    + right. left. reflexivity.
    + intros _. split; assumption.
    + change (Printed OutWelcome :: ?l)
        with ([Printed OutWelcome] ++ l)%list.
      rewrite !write_paths_app, write_paths_local_console. simpl.
      intros Hn. now elim Hn.
  - match goal with
    | Hl : forallb is_local ?evs = true |- _ =>
        rewrite (service_calls_run_tail w input_file output evs _ Hl)
    end.
    split; [|split].
    + right. right. eauto.
    + intros _. split; assumption.
    + intros _. do 2 eexists. right. apply in_or_app. right.
      apply in_or_app. left. simpl. eauto.
Qed.

Lemma run_service_discipline_witness :
  service_calls
    (trace (snd (run (scene_world (Ok "Alice: Kore") []) "scene.txt" None)))
  <> []
  /\ truthy (api_key (scene_world (Ok "Alice: Kore") [])) = true
  /\ isfile (scene_world (Ok "Alice: Kore") [])
       (script_path_of (scene_world (Ok "Alice: Kore") []) "scene.txt")
     = true.
Proof.
  assert (service_calls
            (trace (snd (run (scene_world (Ok "Alice: Kore") [])
                           "scene.txt" None))) <> []) as H
    by (vm_compute; discriminate).
  split; [exact H|].
  exact (proj1 (proj2 (run_service_discipline
                         (scene_world (Ok "Alice: Kore") [])
                         "scene.txt" None)) H).
Defined.

(** X9. When the suggestion service raises, the fallback voices are not
    used: the exception ends the run, with the status of an uncaught
    exception, after the request to the suggestion service; the speech
    service is not asked and no file is written. *)
Theorem run_suggestion_failure w input_file output e :
  truthy (api_key w) = true ->
  isfile w (script_path_of w input_file) = true ->
  suggestion_service w (suggestion_request_of w input_file) = Raise e ->
  run w input_file output
  = (exit_code (Raise e),
     {| trace := (Printed OutWelcome
                  :: preamble w input_file output
                  ++ [AskedSuggestion (suggestion_request_of w input_file)])
                 %list;
        files := ∅ |})
  /\ ((forall code, e <> SystemExit code) ->
      fst (run w input_file output) = 1)
  /\ write_paths (trace (snd (run w input_file output))) = [].
Proof.
  intros Hkey Hfile He.
  assert (run w input_file output
          = (exit_code (Raise e),
             {| trace := (Printed OutWelcome
                          :: preamble w input_file output
                          ++ [AskedSuggestion
                                (suggestion_request_of w input_file)])%list;
                files := ∅ |})) as Hrun.
  { pose proof (run_cases w input_file output) as H. cbv zeta in H.
    destruct H as [(? & _)|[(_ & ? & _)|[(_ & _ & e' & He' & H)
      |(_ & _ & text & ? & ? & ? & Ht & _)]]]; try congruence. }
  rewrite Hrun. split; [reflexivity|]. split.
  - intros Hne. destruct e; try reflexivity. now elim (Hne code).
  - cbn [snd trace].
    change (Printed OutWelcome :: ?l) with ([Printed OutWelcome] ++ l)%list.
    rewrite !write_paths_app, write_paths_local_console. reflexivity.
Qed.

Lemma run_suggestion_failure_witness :
  let w := scene_world (Raise ServiceError) [Binary [x01] "audio/wav"] in
  truthy (api_key w) = true
  /\ isfile w (script_path_of w "scene.txt") = true
  /\ suggestion_service w (suggestion_request_of w "scene.txt")
     = Raise ServiceError
  /\ fst (run w "scene.txt" None) = 1.
Proof.
  cbv zeta. repeat (split; [reflexivity|]).
  apply (proj1 (proj2 (run_suggestion_failure
                         (scene_world (Raise ServiceError)
                            [Binary [x01] "audio/wav"])
                         "scene.txt" None ServiceError
                         eq_refl eq_refl eq_refl))).
  intros code. discriminate.
Defined.

(** ** The speakers and the voices in the requests *)

Lemma speakers_of_shape user_prompt :
  fst (speakers_of user_prompt) <> EmptyString
  /\ snd (speakers_of user_prompt) <> EmptyString
  /\ (fst (speakers_of user_prompt) = snd (speakers_of user_prompt)
      <-> extract_speakers user_prompt = (Some "Speaker 2", None)).
Proof.
  pose proof (extract_speakers_shape user_prompt) as H.
  unfold speakers_of.
  destruct (extract_speakers user_prompt) as [[a|] [b|]]; cbn [fst snd].
  - destruct H as ((Ha & _) & (Hb & _) & Hab). unfold truthy.
    destruct a; [congruence|]. destruct b; [congruence|].
    cbn [Py.is_empty negb default from_option].
    unfold id. repeat split; try discriminate; intros E; congruence.
  - destruct H as (Ha & _). unfold truthy.
    destruct a; [congruence|].
    cbn [Py.is_empty negb default from_option].
    unfold id. repeat split; try discriminate; intros E; congruence.
  - destruct H.
  - cbn. repeat split; discriminate.
Qed.

(** X10. The request to the suggestion service carries the script as it
    was read and two speaker names that are never empty.  The two names
    are the same in one case only: the script has "Speaker 2" as its only
    speaker, whom the default name of the second speaker then doubles. *)
Theorem run_speaker_names w input_file output req :
  In (AskedSuggestion req) (trace (snd (run w input_file output))) ->
  let user_prompt := read_file w (script_path_of w input_file) in
  sr_script req = user_prompt
  /\ sr_speaker1 req <> EmptyString /\ sr_speaker2 req <> EmptyString
  /\ (sr_speaker1 req = sr_speaker2 req
      <-> extract_speakers user_prompt = (Some "Speaker 2", None)).
Proof.
  intros Hin.
  assert (req = suggestion_request_of w input_file) as ->.
  { assert (In (AskedSuggestion req)
              (service_calls (trace (snd (run w input_file output)))))
      as Hs by (apply filter_In; auto).
    destruct (run_service_discipline_aux w input_file output)
      as [E|[E|(v1 & v2 & _ & _ & E)]]; rewrite E in Hs; simpl in Hs.
    - destruct Hs.
    - destruct Hs as [Hs|[]]. now injection Hs.
    - destruct Hs as [Hs|[Hs|[]]]; [now injection Hs | discriminate]. }
  cbv zeta. unfold suggestion_request_of, speaker_suggestion_prompt.
  cbn [sr_script sr_speaker1 sr_speaker2].
  split; [reflexivity|]. apply speakers_of_shape.
Qed.

Lemma run_speaker_names_witness :
  let w := lone_speaker_world in
  let req := suggestion_request_of w "scene.txt" in
  In (AskedSuggestion req) (trace (snd (run w "scene.txt" None)))
  /\ sr_speaker1 req <> EmptyString /\ sr_speaker2 req <> EmptyString
  /\ (sr_speaker1 req = sr_speaker2 req
      <-> extract_speakers (read_file w (script_path_of w "scene.txt"))
          = (Some "Speaker 2", None)).
Proof.
  cbv zeta.
  assert (In (AskedSuggestion (suggestion_request_of lone_speaker_world
                                 "scene.txt"))
            (trace (snd (run lone_speaker_world "scene.txt" None)))) as H.
  { vm_compute. repeat (try (left; reflexivity); right). }
  split; [exact H|].
  exact (proj2 (run_speaker_names lone_speaker_world "scene.txt" None _ H)).
Defined.

(** X11. Every request the run sends to the speech service names the
    model "gemini-2.5-flash-preview-tts", carries the script as read and
    binds each of the two speakers to a voice that is an entry of the
    catalog, in the catalog's own spelling. *)
Theorem run_generation_request w input_file output req :
  In (AskedGeneration req) (trace (snd (run w input_file output))) ->
  let user_prompt := read_file w (script_path_of w input_file) in
  exists v1 v2,
    req = {| gr_model := "gemini-2.5-flash-preview-tts";
             gr_script := user_prompt;
             gr_speaker_voice_configs :=
               [(fst (speakers_of user_prompt), v1);
                (snd (speakers_of user_prompt), v2)] |}
    /\ In v1 (voice_names get_available_voices)
    /\ In v2 (voice_names get_available_voices).
Proof.
  intros Hin. cbv zeta.
  assert (In (AskedGeneration req)
            (service_calls (trace (snd (run w input_file output)))))
    as Hs by (apply filter_In; auto).
  destruct (run_service_discipline_aux w input_file output)
    as [E|[E|(v1 & v2 & Hi1 & Hi2 & E)]]; rewrite E in Hs; simpl in Hs.
  - destruct Hs.
  - destruct Hs as [Hs|[]]. discriminate.
  - destruct Hs as [Hs|[Hs|[]]]; [discriminate|].
    injection Hs as <-. exists v1, v2. repeat split; assumption.
Qed.

Lemma run_generation_request_witness :
  let w := scene_world (Ok "Bob: kore") [] in
  let req := generation_request_of w "scene.txt" "Puck" "Kore" in
  In (AskedGeneration req) (trace (snd (run w "scene.txt" None)))
  /\ exists v1 v2,
       req = {| gr_model := "gemini-2.5-flash-preview-tts";
                gr_script := read_file w (script_path_of w "scene.txt");
                gr_speaker_voice_configs :=
                  [(fst (speakers_of
                           (read_file w (script_path_of w "scene.txt"))), v1);
                   (snd (speakers_of
                           (read_file w (script_path_of w "scene.txt"))),
                    v2)] |}
       /\ In v1 (voice_names get_available_voices)
       /\ In v2 (voice_names get_available_voices).
Proof.
  cbv zeta.
  assert (In (AskedGeneration
                (generation_request_of (scene_world (Ok "Bob: kore") [])
                   "scene.txt" "Puck" "Kore"))
            (trace (snd (run (scene_world (Ok "Bob: kore") [])
                           "scene.txt" None)))) as H.
  { vm_compute. repeat (try (left; reflexivity); right). }
  split; [exact H|].
  exact (run_generation_request (scene_world (Ok "Bob: kore") [])
           "scene.txt" None _ H).
Defined.

(** ** The names of the files written *)

Lemma replace_space_no_space s : ~ occurs " " (replace_space s).
Proof.
  induction s as [|c r IH]; simpl; [tauto|].
  intros [H|H]; [|tauto].
  destruct (Ascii.eqb_spec c " ") as [->|Hne]; [discriminate | congruence].
Qed.

(** X12. Every file a run writes is named by the output name of the run
    followed by the extension of the media type of the payload of a chunk
    that the speech service streamed in answer to the request of the run.
    The output name is the value of the output option whenever that is
    given and not empty; without it and with two speakers in the script it
    is their lower-cased names, spaces replaced by underscores, joined by
    an underscore, so it holds no space. *)
Theorem run_written_file_names w input_file output :
  let script_path := script_path_of w input_file in
  let user_prompt := read_file w script_path in
  (forall p,
     In p (write_paths (trace (snd (run w input_file output)))) ->
     exists v1 v2 chunk b,
       In (AskedGeneration (generation_request_of w input_file v1 v2))
         (trace (snd (run w input_file output)))
       /\ In chunk (fst (generation_service w
                           (generation_request_of w input_file v1 v2)))
       /\ chunk_blob chunk = Some b
       /\ p = (output_name w script_path output user_prompt
               ++ file_extension_of w (blob_mime_type b))%string)
  /\ (forall name,
        Py.is_empty name = false ->
        output_name w script_path (Some name) user_prompt = name)
  /\ (forall a b,
        truthy output = false ->
        extract_speakers user_prompt = (Some a, Some b) ->
        output_name w script_path output user_prompt
        = (replace_space (Py.lower a) ++ "_" ++ replace_space (Py.lower b))
          %string
        /\ ~ occurs " " (output_name w script_path output user_prompt)).
Proof.
  cbv zeta. split; [|split].
  - intros p.
    pose proof (run_cases w input_file output) as H. cbv zeta in H.
    destruct H as [(_ & H)|[(_ & _ & H)|[(_ & _ & e & _ & H)
      |(_ & _ & text & v1 & v2 & evs & _ & _ & _ & H & _ & Hw)]]];
      rewrite H; cbn [snd trace].
    + intros [].
    + destruct (Py.is_empty input_file); intros [].
    + change (Printed OutWelcome :: ?l)
        with ([Printed OutWelcome] ++ l)%list.
      rewrite !write_paths_app, write_paths_local_console. intros [].
    + change (Printed OutWelcome :: ?l)
        with ([Printed OutWelcome] ++ l)%list.
      rewrite !write_paths_app, write_paths_local_console. simpl.
      intros Hin. destruct (Hw p Hin) as (chunk & b & Hc & Hb & ->).
      exists v1, v2, chunk, b. split; [|auto].
      right. apply in_or_app. right.
      right. right. right. left. reflexivity.
  - intros name Hn. unfold output_name, truthy. rewrite Hn. reflexivity.
  - intros a b Hout Hex.
    pose proof (extract_speakers_shape
                  (read_file w (script_path_of w input_file))) as Hs.
    rewrite Hex in Hs. destruct Hs as ((Ha & _) & (Hb & _) & _).
    assert (output_name w (script_path_of w input_file) output
              (read_file w (script_path_of w input_file))
            = (replace_space (Py.lower a) ++ "_"
               ++ replace_space (Py.lower b))%string) as ->.
    { unfold output_name, falls_back_on_stem. rewrite Hout, Hex.
      cbn [fst snd]. unfold truthy.
      destruct a; [congruence|]. destruct b; [congruence|]. reflexivity. }
    split; [reflexivity|].
    rewrite !occurs_append. intros [H|[H|H]].
    + exact (replace_space_no_space _ H).
    + simpl in H. destruct H as [H|[]]. discriminate.
    + exact (replace_space_no_space _ H).
Qed.

Lemma run_written_file_names_witness :
  let w := scene_world (Ok "Bob: kore") [Binary [x01] "audio/mpeg"] in
  In "alice_bob.mp3" (write_paths (trace (snd (run w "scene.txt" None))))
  /\ (exists v1 v2 chunk b,
         In (AskedGeneration (generation_request_of w "scene.txt" v1 v2))
           (trace (snd (run w "scene.txt" None)))
         /\ In chunk (fst (generation_service w
                             (generation_request_of w "scene.txt" v1 v2)))
         /\ chunk_blob chunk = Some b
         /\ "alice_bob.mp3"
            = (output_name w (script_path_of w "scene.txt") None
                 (read_file w (script_path_of w "scene.txt"))
               ++ file_extension_of w (blob_mime_type b))%string)
  /\ Py.is_empty "take1" = false
  /\ output_name w (script_path_of w "scene.txt") (Some "take1")
       (read_file w (script_path_of w "scene.txt")) = "take1".
Proof.
  cbv zeta.
  assert (In "alice_bob.mp3"
            (write_paths
               (trace (snd (run (scene_world (Ok "Bob: kore")
                                   [Binary [x01] "audio/mpeg"])
                              "scene.txt" None))))) as H
    by (vm_compute; left; reflexivity).
  split; [exact H|]. split.
  - exact (proj1 (run_written_file_names
                    (scene_world (Ok "Bob: kore")
                       [Binary [x01] "audio/mpeg"]) "scene.txt" None) _ H).
  - split; [reflexivity|].
    exact (proj1 (proj2 (run_written_file_names
                           (scene_world (Ok "Bob: kore")
                              [Binary [x01] "audio/mpeg"])
                           "scene.txt" None)) "take1" eq_refl).
Defined.

(** ** Looking a voice up *)

Lemma index_first x l i :
  Py.index x l = Ok i -> forall j, (j < i)%nat -> nth_error l j <> Some x.
Proof.
  revert i. induction l as [|y t IH]; intros i; simpl; [discriminate|].
  destruct (String.eqb_spec y x) as [->|Hne].
  - intros H. injection H as <-. intros j Hj. lia.
  - destruct (Py.index x t) as [k|e] eqn:Hk; simpl; [|discriminate].
    intros H. injection H as <-. intros [|j] Hj; simpl.
    + congruence.
    + apply (IH k eq_refl). lia.
Qed.

Lemma mem_In x l : Py.mem x l = true <-> In x l.
Proof.
  unfold Py.mem. rewrite existsb_exists. split.
  - intros (y & Hin & He). apply String.eqb_eq in He. now subst.
  - intros H. exists x. split; [exact H | apply String.eqb_refl].
Qed.

Lemma NoDup_map_eq {A B : Type} (f : A -> B) (l : list A) a b :
  List.NoDup (map f l) -> In a l -> In b l -> f a = f b -> a = b.
Proof.
  induction l as [|x t IH]; simpl; [tauto|].
  intros Hnd. apply NoDup_cons_iff in Hnd as [Hx Ht].
  intros [->|Ha] [->|Hb] E; auto.
  - elim Hx. rewrite E. now apply in_map.
  - elim Hx. rewrite <- E. now apply in_map.
Qed.

Lemma catalog_names_unique_lower :
  List.NoDup (voice_names_lower get_available_voices).
Proof.
  assert (nodup string_dec (voice_names_lower get_available_voices)
          = voice_names_lower get_available_voices) as <-
    by (vm_compute; reflexivity).
  apply NoDup_nodup.
Qed.

(** X13. What a line says after its first colon is looked up in the
    catalog trimmed and without regard to case.  The look-up gives the
    catalog's spelling of the first entry that matches, and nothing
    exactly when no entry matches; where the names of the catalog differ
    even case apart, as in the deployed one, every entry is found under
    any spelling of its name. *)
Theorem voice_lookup_ignores_case :
  (forall available_voices line rest,
     Py.item (Py.split1 ":" line) 1 = Ok rest ->
     let wanted := Py.lower (Py.strip rest) in
     (forall v,
        named_on available_voices line = Some v ->
        exists i,
          nth_error (voice_names available_voices) i = Some v
          /\ Py.lower v = wanted
          /\ forall j v', (j < i)%nat ->
               nth_error (voice_names available_voices) j = Some v' ->
               Py.lower v' <> wanted)
     /\ (named_on available_voices line = None
         <-> forall v, In v (voice_names available_voices) ->
                       Py.lower v <> wanted)
     /\ (forall v,
           List.NoDup (voice_names_lower available_voices) ->
           In v (voice_names available_voices) ->
           Py.lower v = wanted ->
           named_on available_voices line = Some v))
  /\ List.NoDup (voice_names_lower get_available_voices).
Proof.
  split; [|exact catalog_names_unique_lower].
  intros available_voices line rest Hrest. cbv zeta.
  assert (forall v,
            named_on available_voices line = Some v ->
            exists i,
              nth_error (voice_names available_voices) i = Some v
              /\ Py.lower v = Py.lower (Py.strip rest)
              /\ forall j v', (j < i)%nat ->
                   nth_error (voice_names available_voices) j = Some v' ->
                   Py.lower v' <> Py.lower (Py.strip rest)) as Hfound.
  { intros v. unfold named_on, resolve_voice. rewrite Hrest. simpl.
    destruct (Py.mem _ (voice_names_lower available_voices)); [|discriminate].
    destruct (Py.index _ (voice_names_lower available_voices)) as [i|e]
      eqn:Hi; simpl; [|discriminate].
    unfold Py.item.
    destruct (nth_error (voice_names available_voices) i) as [v'|] eqn:Hv;
      simpl; [|discriminate].
    intros H. injection H as <-. exists i.
    pose proof (index_nth_error _ _ _ Hi) as Hn.
    unfold voice_names_lower in Hn. rewrite nth_error_map, Hv in Hn.
    simpl in Hn. split; [exact Hv|]. split; [congruence|].
    intros j v'' Hj Hv'' E.
    apply (index_first _ _ _ Hi j Hj).
    unfold voice_names_lower. rewrite nth_error_map, Hv''. simpl.
    now rewrite E. }
  assert (named_on available_voices line = None
          <-> forall v, In v (voice_names available_voices) ->
                        Py.lower v <> Py.lower (Py.strip rest)) as Hnone.
  { split.
    - intros Hn v Hin E. revert Hn.
      unfold named_on, resolve_voice. rewrite Hrest. simpl.
      assert (Py.mem (Py.lower (Py.strip rest))
                (voice_names_lower available_voices) = true) as Hm.
      { apply mem_In. rewrite <- E. unfold voice_names_lower.
        now apply in_map. }
      rewrite Hm. destruct (mem_index _ _ Hm) as [i Hi]. rewrite Hi. simpl.
      pose proof (index_nth_error _ _ _ Hi) as Hn.
      unfold voice_names_lower in Hn. rewrite nth_error_map in Hn.
      unfold Py.item.
      destruct (nth_error (voice_names available_voices) i); simpl;
        [discriminate | discriminate Hn].
    - intros Hno.
      destruct (named_on available_voices line) as [v|] eqn:Hv;
        [|reflexivity].
      destruct (Hfound v eq_refl) as (i & Hi & E & _).
      elim (Hno v); [eapply nth_error_In; eassumption | exact E]. }
  split; [exact Hfound|]. split; [exact Hnone|].
  intros v Hnd Hin E.
  destruct (named_on available_voices line) as [v'|] eqn:Hv.
  - destruct (Hfound v' eq_refl) as (i & Hi & E' & _).
    f_equal. apply (NoDup_map_eq Py.lower (voice_names available_voices));
      [exact Hnd | eapply nth_error_In; eassumption | exact Hin | congruence].
  - elim (proj1 Hnone eq_refl v Hin E).
Qed.

Lemma voice_lookup_ignores_case_witness :
  Py.item (Py.split1 ":" "Bob:  KORE ") 1 = Ok "  KORE "
  /\ In "Kore" (voice_names get_available_voices)
  /\ Py.lower "Kore" = Py.lower (Py.strip "  KORE ")
  /\ named_on get_available_voices "Bob:  KORE " = Some "Kore".
Proof.
  assert (Py.item (Py.split1 ":" "Bob:  KORE ") 1 = Ok "  KORE ") as H1
    by (vm_compute; reflexivity).
  assert (In "Kore" (voice_names get_available_voices)) as H2
    by (vm_compute; repeat (try (left; reflexivity); right)).
  assert (Py.lower "Kore" = Py.lower (Py.strip "  KORE ")) as H3
    by (vm_compute; reflexivity).
  split; [exact H1|]. split; [exact H2|]. split; [exact H3|].
  exact (proj2 (proj2 (proj1 voice_lookup_ignores_case
                         get_available_voices "Bob:  KORE " "  KORE " H1))
           "Kore" (proj2 voice_lookup_ignores_case) H2 H3).
Defined.
